(** * Indexing resolution of pandas.core.indexing

    A shallow embedding of the key-resolution and assignment code of
    [pandas/core/indexing.py] (the [ix], [loc] and [iloc] accessors) and
    the properties of its specification.

    Scope of the embedding.
    - Labels and scalar keys are integers, strings and booleans.  Float
      keys are not part of the key type, so [com.is_float] is false on
      every embedded scalar.  A Python bool is an int: [com.is_integer]
      holds of it and as a position it is 0 or 1.
    - Label sets are single-level: the class [MultiIndex] lives in
      [pandas.core.index], which is not among the sources, and every
      [isinstance(labels, MultiIndex)] test of the source is false on an
      embedded [Index].  The read of a scalar on a two-level axis 0 (lines
      623-635) is embedded on its own, in [Module Hierarchical].
    - Objects are one-axis ([Series]) and two-axis ([DataFrame]) containers
      of numeric cells with a missing value; Panels are not embedded.
    - The assignment is embedded twice: for an object that holds one block
      of cells, where [_is_mixed_type] is false and the values are set by
      one call of the storage (lines 319-333), and, in [Module MixedType],
      for any answer of [_is_mixed_type], with the split path that sets
      the items one after the other (lines 216-317).  The two agree where
      no object is of mixed type.  [Module SeriesIndexer] has the
      assignment that the class [_SeriesIndexer] overrides. *)

From Stdlib Require Import ZArith List String Bool Lia.
Import ListNotations.
Open Scope string_scope.
Open Scope list_scope.
Open Scope Z_scope.


(** ** Exceptions and fallible results *)

Inductive exn_class :=
| KeyError | IndexError | ValueError | TypeError | IndexingError
| NotImplementedError | AssertionError | AttributeError | ZeroDivisionError.

Record exn := Exn { exn_cls : exn_class; exn_msg : string }.

Definition exn_class_eqb (a b : exn_class) : bool :=
  match a, b with
  | KeyError, KeyError | IndexError, IndexError | ValueError, ValueError
  | TypeError, TypeError | IndexingError, IndexingError
  | NotImplementedError, NotImplementedError
  | AssertionError, AssertionError
  | AttributeError, AttributeError
  | ZeroDivisionError, ZeroDivisionError => true
  | _, _ => false
  end.

Inductive res (A : Type) :=
| Ok (a : A)
| Raise (e : exn).
Arguments Ok {A} a.
Arguments Raise {A} e.

Definition bind {A B} (m : res A) (f : A -> res B) : res B :=
  match m with
  | Ok a => f a
  | Raise e => Raise e
  end.

Notation "x <- m ;; k" := (bind m (fun x => k))
  (at level 61, m at next level, right associativity).

(** [try m except cls: h]: the handler runs only for the listed classes. *)
Definition try_except {A} (m : res A) (catch : exn_class -> bool)
    (h : exn -> res A) : res A :=
  match m with
  | Ok a => Ok a
  | Raise e => if catch (exn_cls e) then h e else Raise e
  end.

Definition any_exception (_ : exn_class) : bool := true.
Definition only (c : exn_class) (d : exn_class) : bool := exn_class_eqb c d.
Definition either (c1 c2 : exn_class) (d : exn_class) : bool :=
  exn_class_eqb c1 d || exn_class_eqb c2 d.

(** ** Scalars, labels and cells *)

Inductive scalar :=
| SInt (z : Z)
| SStr (s : string)
| SBool (b : bool).

Definition scalar_eqb (a b : scalar) : bool :=
  match a, b with
  | SInt x, SInt y => Z.eqb x y
  | SStr x, SStr y => String.eqb x y
  | SBool x, SBool y => Bool.eqb x y
  | _, _ => false
  end.

(** An integer proper: what makes an integer label or an integer array. *)
Definition is_int (x : scalar) : bool :=
  match x with SInt _ => true | _ => false end.

(** [com.is_integer], an [isinstance] test against the integral types: a
    Python bool is one of them. *)
Definition is_integer (x : scalar) : bool :=
  match x with SInt _ | SBool _ => true | SStr _ => false end.

(** A bool counts as 0 or 1. *)
Definition int_of_bool (b : bool) : Z := if b then 1 else 0.

(** [com.is_float]: no embedded scalar is a float. *)
Definition is_float (x : scalar) : bool := false.

(** [isinstance(x, bool)] *)
Definition is_bool (x : scalar) : bool :=
  match x with SBool _ => true | _ => false end.

Inductive cell :=
| Num (z : Z)
| NaN.

Definition cell_eqb (a b : cell) : bool :=
  match a, b with
  | Num x, Num y => Z.eqb x y
  | NaN, NaN => true
  | _, _ => false
  end.

(** ** Python sequences *)

Definition len {A} (l : list A) : Z := Z.of_nat (List.length l).

(** [l[i]] for an integer [i]: negative positions count from the end,
    positions outside the sequence raise [IndexError]. *)
Definition py_getitem {A} (l : list A) (i : Z) : res A :=
  let j := if i <? 0 then i + len l else i in
  if (j <? 0) || (len l <=? j) then
    Raise (Exn IndexError "index out of bounds")
  else
    match nth_error l (Z.to_nat j) with
    | Some a => Ok a
    | None => Raise (Exn IndexError "index out of bounds")
    end.

(** [range(a, b)] as a list of integers. *)
Definition zrange (a b : Z) : list Z :=
  map (fun k => a + Z.of_nat k) (seq 0 (Z.to_nat (b - a))).

Fixpoint mapM {A B} (f : A -> res B) (l : list A) : res (list B) :=
  match l with
  | [] => Ok []
  | a :: l' => b <- f a ;; bs <- mapM f l' ;; Ok (b :: bs)
  end.

(** [key.nonzero()] of a boolean array: the positions holding [True]. *)
Fixpoint nonzero_from (p : Z) (m : list bool) : list Z :=
  match m with
  | [] => []
  | b :: m' => if b then p :: nonzero_from (p + 1) m'
               else nonzero_from (p + 1) m'
  end.
Definition nonzero (m : list bool) : list Z := nonzero_from 0 m.

(** ** Label sets *)

(** An [Index]: the labels in axis order, and the cached attribute
    [inferred_type] the source compares against ['integer'], ['floating'],
    ['mixed-integer-float'] and tests with ['mixed' in ltype]. *)
Record Index := mkIndex {
  ilabels : list scalar;
  inferred_type : string
}.

(** Modelled from the spec: [lib.infer_dtype], the derived kind of a label
    set (section 3: integer, mixed, mixed-integer, ..., recomputed from the
    labels).  It is what the [Index(...)] constructor stores. *)
Definition infer_dtype (l : list scalar) : string :=
  match l with
  | [] => "empty"
  | _ =>
    if forallb is_int l then "integer"
    else if forallb is_bool l then "boolean"
    else if forallb (fun x => match x with SStr _ => true | _ => false end) l
    then "string"
    else if existsb is_int l then "mixed-integer"
    else "mixed"
  end.

(** [Index(values)] *)
Definition Index_of (l : list scalar) : Index :=
  mkIndex l (infer_dtype l).

(** The positions of the labels equal to [k]. *)
Fixpoint positions_from (p : Z) (k : scalar) (l : list scalar) : list Z :=
  match l with
  | [] => []
  | x :: l' => if scalar_eqb k x then p :: positions_from (p + 1) k l'
               else positions_from (p + 1) k l'
  end.
Definition positions_of (k : scalar) (l : list scalar) : list Z :=
  positions_from 0 k l.

(** [key in ax] *)
Definition contains (ax : Index) (k : scalar) : bool :=
  existsb (scalar_eqb k) (ilabels ax).

Fixpoint has_dups (l : list scalar) : bool :=
  match l with
  | [] => false
  | x :: l' => existsb (scalar_eqb x) l' || has_dups l'
  end.

(** [ax.is_unique] *)
Definition is_unique (ax : Index) : bool := negb (has_dups (ilabels ax)).

(** What [get_loc] returns: a position for a label that occurs once, a
    boolean mask for a repeated label. *)
Inductive location :=
| LocPos (p : Z)
| LocMask (m : list bool).

(** Modelled from the spec: [Index.get_loc] of the label-set abstraction
    (section 1: [get_loc(label) -> position | positions | boolean_mask]);
    an absent label raises [KeyError]. *)
Definition get_loc (ax : Index) (k : scalar) : res location :=
  match positions_of k (ilabels ax) with
  | [] => Raise (Exn KeyError "label not found")
  | [p] => Ok (LocPos p)
  | _ => Ok (LocMask (map (scalar_eqb k) (ilabels ax)))
  end.

(** Modelled from the spec: [Index.get_indexer] on a unique label set: the
    position of each requested label, [-1] for an absent one. *)
Definition get_indexer (ax : Index) (ks : list scalar) : list Z :=
  map (fun k => match positions_of k (ilabels ax) with
                | p :: _ => p
                | [] => -1
                end) ks.

(** Modelled from the spec: [Index.get_indexer_non_unique] (section 4.1:
    the position list may exceed the axis length, absent entries are
    flagged): every position of every requested label, [-1] for an absent
    one, and the positions in [ks] of the absent ones. *)
Definition get_indexer_non_unique (ax : Index) (ks : list scalar)
  : list Z * list Z :=
  (flat_map (fun k => match positions_of k (ilabels ax) with
                      | [] => [-1]
                      | ps => ps
                      end) ks,
   flat_map (fun ik => match positions_of (snd ik) (ilabels ax) with
                       | [] => [fst ik]
                       | _ => []
                       end) (combine (zrange 0 (len ks)) ks)).

(** [ax.equals(other)]: the same labels in the same order. *)
Fixpoint labels_eqb (a b : list scalar) : bool :=
  match a, b with
  | [], [] => true
  | x :: a', y :: b' => scalar_eqb x y && labels_eqb a' b'
  | _, _ => false
  end.
Definition Index_equals (a b : Index) : bool :=
  labels_eqb (ilabels a) (ilabels b).

(** Whether a label can be stored in a label set of the given kind without
    widening it. *)
Definition fits_kind (ty : string) (k : scalar) : bool :=
  if String.eqb ty "integer" then is_int k
  else if String.eqb ty "boolean" then is_bool k
  else true.

(** Modelled from the spec: [Index.insert(loc, item)] (section 4.4); it
    raises when the label kind cannot represent the item. *)
Definition Index_insert (ax : Index) (loc : Z) (item : scalar) : res Index :=
  if fits_kind (inferred_type ax) item then
    let n := Z.to_nat loc in
    let l := firstn n (ilabels ax) ++ item :: skipn n (ilabels ax) in
    Ok (mkIndex l (if String.eqb (inferred_type ax) "empty"
                   then infer_dtype l else inferred_type ax))
  else Raise (Exn TypeError "cannot insert item of a different type").

(** [index.asobject]: the same labels as a generic object index. *)
Definition asobject_values (ax : Index) : list scalar := ilabels ax.

(** [index.insert] used the way [_safe_append_to_index] does *)
Definition _safe_append_to_index (index : Index) (key : scalar) : Index :=
  match Index_insert index (len (ilabels index)) key with
  | Ok labels => labels
  | Raise _ => Index_of (asobject_values index ++ [key])
  end.

(** [ax[positions]]: the labels at the given positions. *)
Definition Index_take (ax : Index) (ps : list Z) : res Index :=
  l <- mapM (py_getitem (ilabels ax)) ps ;;
  Ok (mkIndex l (inferred_type ax)).

(** ** Keys and resolved indexers *)

Record slice := mkSlice {
  start : option scalar;
  stop : option scalar;
  step : option Z
}.

(** "null slice" *)
Definition _NS : slice := mkSlice None None None.

(** The key for one axis: a scalar, a slice or a list.  A list of booleans
    is the boolean mask. *)
Inductive akey :=
| KScalar (s : scalar)
| KSlice (sl : slice)
| KList (l : list scalar).

(** The key of an indexing expression: a single axis key or a tuple with
    one key per axis. *)
Inductive key :=
| K (k : akey)
| KTuple (t : list akey).

(** What a key is converted to: a position, a position slice, an array of
    positions, a boolean array, a list handed through as it was given, or
    the dict of one entry [{'key': k}] that stands for a missing key. *)
Inductive indexer1 :=
| IInt (p : Z)
| ISlice (sl : slice)
| IArray (a : list Z)
| IBoolArray (m : list bool)
| IList (l : list scalar)
| IDict (k : scalar).

(** The indexer of an assignment: one entry, a tuple with an entry per
    axis, or the open mesh [np.ix_] makes of a tuple of arrays. *)
Inductive indexer :=
| I1 (i : indexer1)
| ITuple (t : list indexer1)
| IMesh (arrays : list (list Z)).

(** ** Predicates on keys *)

Definition is_none {A} (o : option A) : bool :=
  match o with None => true | Some _ => false end.

Definition _is_null_slice (obj : akey) : bool :=
  match obj with
  | KSlice sl => is_none (start sl) && is_none (stop sl) && is_none (step sl)
  | _ => false
  end.

Definition _need_slice (obj : slice) : bool :=
  negb (is_none (start obj)) || negb (is_none (stop obj)) ||
  match step obj with Some s => negb (s =? 1) | None => false end.

(** [np.allclose(x, int(x), rtol=_eps, atol=0)], exact on the embedded
    scalars: an integer is its own integer part. *)
Definition allclose_int (x : scalar) : bool := is_integer x.

Definition slice_crit (valid : scalar -> bool) (v : option scalar) : bool :=
  match v with None => true | Some x => valid x end.

Definition slice_test (valid : scalar -> bool) (obj : slice) : bool :=
  let both_none := is_none (start obj) && is_none (stop obj) in
  negb both_none && (slice_crit valid (start obj) &&
                     slice_crit valid (stop obj)).

Definition _is_index_slice (obj : slice) : bool :=
  slice_test (fun x => is_integer x || (is_float x && allclose_int x)) obj.

Definition _is_int_slice (obj : slice) : bool :=
  slice_test is_integer obj.

Definition _is_float_slice (obj : slice) : bool :=
  slice_test is_float obj.

(** iterable, and not a string *)
Definition _is_list_like (obj : akey) : bool :=
  match obj with KList _ => true | _ => false end.

Definition _is_label_like (k : akey) : bool :=
  match k with
  | KSlice _ => false
  | _ => negb (_is_list_like k)
  end.

(** [com._is_bool_indexer] on a list: the array made of it has dtype bool. *)
Definition _is_bool_indexer (obj : akey) : bool :=
  match obj with
  | KList (x :: l) => forallb is_bool (x :: l)
  | _ => false
  end.

Definition truth (x : scalar) : bool :=
  match x with
  | SBool b => b
  | SInt z => negb (z =? 0)
  | SStr s => negb (String.eqb s "")
  end.

(** [_check_bool_indexer] for an unlabelled mask:
    [np.asarray(result, dtype=bool)]. *)
Definition _check_bool_indexer (ax : Index) (l : list scalar) : list bool :=
  map truth l.

(** [_asarray_tuplesafe(obj)] when the array it makes has an integer dtype:
    every entry is an integer or a bool and not all are bools. *)
Definition as_int_array (l : list scalar) : option (list Z) :=
  match l with
  | [] => None
  | _ =>
    if forallb (fun x => is_int x || is_bool x) l && existsb is_int l
    then Some (map (fun x => match x with
                             | SInt z => z
                             | SBool b => int_of_bool b
                             | SStr _ => 0
                             end) l)
    else None
  end.

Definition _is_integer_index (index : Index) : bool :=
  String.eqb (inferred_type index) "integer".

(** ['mixed' in ltype] *)
Fixpoint has_substring (sub s : string) : bool :=
  String.prefix sub s ||
  match s with
  | EmptyString => false
  | String _ s' => has_substring sub s'
  end.

(** ** Objects *)

Inductive NDFrame :=
| Series (index : Index) (values : list cell)
| DataFrame (index columns : Index) (values : list (list cell)).

Definition ndim (obj : NDFrame) : Z :=
  match obj with Series _ _ => 1 | DataFrame _ _ _ => 2 end.

Definition axes (obj : NDFrame) : list Index :=
  match obj with
  | Series index _ => [index]
  | DataFrame index columns _ => [index; columns]
  end.

(** The data has one entry per label on every axis. *)
Definition well_formed (obj : NDFrame) : bool :=
  match obj with
  | Series index values =>
    Nat.eqb (List.length values) (List.length (ilabels index))
  | DataFrame index columns values =>
    Nat.eqb (List.length values) (List.length (ilabels index)) &&
    forallb (fun row => Nat.eqb (List.length row)
                          (List.length (ilabels columns))) values
  end.

Definition _get_axis (obj : NDFrame) (axis : Z) : res Index :=
  match nth_error (axes obj) (Z.to_nat axis) with
  | Some ax => if axis <? 0 then Raise (Exn ValueError "No axis named")
               else Ok ax
  | None => Raise (Exn ValueError "No axis named")
  end.

Definition _info_axis_number (obj : NDFrame) : Z :=
  match obj with Series _ _ => 0 | DataFrame _ _ _ => 1 end.

(** The three accessors that share the resolution core, under the names
    that [get_indexers_list] gives them: [ix] is [_NDFrameIndexer], [loc]
    is [_LocIndexer] and [iloc] is [_iLocIndexer].  The class
    [_SeriesIndexer] is given no name there. *)
Inductive accessor := ix | loc | iloc.

Definition name (self : accessor) : string :=
  match self with ix => "ix" | loc => "loc" | iloc => "iloc" end.

(** Modelled from the spec: [Index.slice_indexer(start, stop, step)], the
    label set's own slicing (section 4.1: both endpoints of a label slice
    are inclusive; section 4.5: both endpoints must already exist or
    error).  The result is a position slice with an exclusive stop. *)
Definition slice_indexer (ax : Index) (start stop : option scalar)
    (step : option Z) : res slice :=
  s <- match start with
       | None => Ok 0
       | Some k => match positions_of k (ilabels ax) with
                   | p :: _ => Ok p
                   | [] => Raise (Exn KeyError "label not found")
                   end
       end ;;
  e <- match stop with
       | None => Ok (len (ilabels ax))
       | Some k => match rev (positions_of k (ilabels ax)) with
                   | p :: _ => Ok (p + 1)
                   | [] => Raise (Exn KeyError "label not found")
                   end
       end ;;
  Ok (mkSlice (Some (SInt s)) (Some (SInt e)) step).

(** [labels.get_loc(obj)] for any key: a slice or a list is unhashable. *)
Definition get_loc_key (labels : Index) (obj : akey) : res location :=
  match obj with
  | KScalar k => get_loc labels k
  | _ => Raise (Exn TypeError "unhashable type")
  end.

Definition indexer_of_location (l : location) : indexer1 :=
  match l with
  | LocPos p => IInt p
  | LocMask m => IBoolArray m
  end.

Definition ignore {A} (m : res A) : res unit := _ <- m ;; Ok tt.

(** The classification of a slice key shared by [_convert_to_indexer] and
    [_get_slice_axis]: the slice is returned as it is when it is taken by
    position, and as the label set's [slice_indexer] otherwise. *)
Definition convert_slice (labels : Index) (obj : slice) : res slice :=
  let ltype := inferred_type labels in
  (* in case of providing all floats, use label-based indexing *)
  let float_slice := String.eqb ltype "floating" && _is_float_slice obj in
  (* floats that are within tolerance of int used as positions *)
  let int_slice := _is_index_slice obj in
  let null_slice := is_none (start obj) && is_none (stop obj) in
  let position_slice :=
    int_slice && negb (String.eqb ltype "integer") && negb float_slice in
  (* last ditch effort: if we are mixed and have integers *)
  position_slice <-
    try_except
      (if position_slice && has_substring "mixed" ltype then
         _ <- match start obj with
              | Some s => ignore (get_loc labels s)
              | None => Ok tt
              end ;;
         _ <- match stop obj with
              | Some s => ignore (get_loc labels s)
              | None => Ok tt
              end ;;
         Ok false
       else Ok position_slice)
      (only KeyError)
      (fun e => if String.eqb ltype "mixed-integer-float" then Raise e
                else Ok position_slice) ;;
  if null_slice || position_slice then Ok obj
  else
    try_except (slice_indexer labels (start obj) (stop obj) (step obj))
      any_exception
      (fun e => if _is_index_slice obj then
                  if String.eqb ltype "integer" then Raise e else Ok obj
                else Raise e).

(** [obj] when [com.is_integer(obj)] *)
Definition integer_key (obj : akey) : option Z :=
  match obj with
  | KScalar (SInt p) => Some p
  | KScalar (SBool b) => Some (int_of_bool b)
  | _ => None
  end.

Module NDFrameIndexer.

(** [_NDFrameIndexer._convert_to_indexer], the resolver of [ix] and [loc]:
    convert an indexing key into something that can be used for fancy
    indexing on an array.  In the face of ambiguity with integer labels,
    prefer label-based indexing. *)
Definition _convert_to_indexer (self_obj : NDFrame) (obj : akey) (axis : Z)
    (is_setter : bool) : res indexer1 :=
  labels <- _get_axis self_obj axis ;;
  let is_int_index := _is_integer_index labels in
  let lookup :=
    match get_loc_key labels obj with
    | Ok l => Ok (indexer_of_location l)
    | Raise e =>
      if negb (either KeyError TypeError (exn_cls e)) then Raise e
      else
        match obj with
        | KSlice sl => sl' <- convert_slice labels sl ;; Ok (ISlice sl')
        | KList l =>
          if _is_bool_indexer obj then
            let m := _check_bool_indexer labels l in
            Ok (IArray (nonzero m))
          else
            let by_label :=
              let indexer := if is_unique labels then get_indexer labels l
                             else fst (get_indexer_non_unique labels l) in
              if existsb (Z.eqb (-1)) indexer
              then Raise (Exn KeyError "not in index")
              else Ok (IArray indexer) in
            (* If have integer labels, defer to label-based indexing *)
            match as_int_array l with
            | Some objarr =>
              if negb is_int_index then
                Ok (IArray
                      (if negb (String.eqb (inferred_type labels) "integer")
                       then map (fun x => if x <? 0
                                          then len (ilabels labels) + x
                                          else x) objarr
                       else objarr))
              else by_label
            | None => by_label
            end
        | KScalar k =>
          try_except
            (l <- get_loc_key labels obj ;; Ok (indexer_of_location l))
            (only KeyError)
            (fun e => (* allow a not found key only if we are a setter *)
               if negb (_is_list_like obj) && is_setter
               then Ok (IDict k) else Raise e)
        end
    end in
  match integer_key obj with
  | Some p => if negb is_int_index then Ok (IInt p) else lookup
  | None => lookup
  end.

End NDFrameIndexer.

Module iLocIndexer.

(** [_iLocIndexer._has_valid_type]; an embedded mask carries no labels of
    its own, so a boolean indexer is valid. *)
Definition _has_valid_type (key : akey) (axis : Z) : bool :=
  if _is_bool_indexer key then true
  else
    match key with
    | KSlice _ => true
    | _ => match integer_key key with
           | Some _ => true
           | None => _is_list_like key
           end
    end.

Definition _valid_types : string :=
  "integer, integer slice (START point is INCLUDED, END point is EXCLUDED), listlike of integers, boolean array".

(** [ValueError("Can only index by location with a [%s]" % self._valid_types)] *)
Definition location_error : exn :=
  Exn ValueError
    (String.append "Can only index by location with a ["
       (String.append _valid_types "]")).

(** [_iLocIndexer._convert_to_indexer]: much simpler as we only have to
    deal with our valid types; the key is handed through as it is. *)
Definition _convert_to_indexer (self_obj : NDFrame) (obj : akey) (axis : Z)
    (is_setter : bool) : res indexer1 :=
  if _has_valid_type obj axis then
    match obj with
    | KSlice sl => Ok (ISlice sl)
    | KList l => Ok (IList l)
    | KScalar _ => match integer_key obj with
                   | Some p => Ok (IInt p)
                   | None => Raise location_error
                   end
    end
  else Raise location_error.

End iLocIndexer.

(** Method resolution: [iloc] overrides the resolver, [ix] and [loc] share
    the one of [_NDFrameIndexer]. *)
Definition _convert_to_indexer (self : accessor) (self_obj : NDFrame)
    (obj : akey) (axis : Z) (is_setter : bool) : res indexer1 :=
  match self with
  | iloc => iLocIndexer._convert_to_indexer self_obj obj axis is_setter
  | _ => NDFrameIndexer._convert_to_indexer self_obj obj axis is_setter
  end.

(** ** The storage collaborator, for reads *)

(** What a read returns: one cell or an object of one or two axes. *)
Inductive value :=
| VCell (c : cell)
| VObj (o : NDFrame).

Definition value_is_list_like (v : value) : bool :=
  match v with VCell _ => false | VObj _ => true end.

(** [_maybe_convert_indices]: if we have negative indices, translate to
    positive here; if we have indices that are out-of-bounds, raise an
    IndexError. *)
Definition _maybe_convert_indices (indices : list Z) (n : Z) : res (list Z) :=
  let indices := map (fun i => if i <? 0 then i + n else i) indices in
  if existsb (fun i => (n <=? i) || (i <? 0)) indices
  then Raise (Exn IndexError "indices are out-of-bounds")
  else Ok indices.

(** Modelled from the spec: the storage manager's [take(positions, axis)]
    (section 1); [convert] runs [_maybe_convert_indices] first. *)
Definition take (obj : NDFrame) (indices : list Z) (axis : Z)
    (convert : bool) : res NDFrame :=
  ax <- _get_axis obj axis ;;
  indices <- (if convert then _maybe_convert_indices indices (len (ilabels ax))
              else Ok indices) ;;
  ax' <- Index_take ax indices ;;
  match obj with
  | Series _ values =>
    values' <- mapM (py_getitem values) indices ;;
    Ok (Series ax' values')
  | DataFrame index columns values =>
    if axis =? 0 then
      values' <- mapM (py_getitem values) indices ;;
      Ok (DataFrame ax' columns values')
    else
      values' <- mapM (fun row => mapM (py_getitem row) indices) values ;;
      Ok (DataFrame index ax' values')
  end.

(** Modelled from the spec: [obj._ixs(i, axis)], the selection by position
    (section 7: a scalar or list position beyond the axis bounds is the
    hard error [PositionOutOfRange]).  An integer lowers the dimension, a
    list of integers takes. *)
Definition _ixs_integer (obj : NDFrame) (p : Z) (axis : Z) : res value :=
  match obj with
  | Series _ values => c <- py_getitem values p ;; Ok (VCell c)
  | DataFrame index columns values =>
    if axis =? 0 then
      row <- py_getitem values p ;;
      Ok (VObj (Series columns row))
    else if axis =? 1 then
      col <- mapM (fun row => py_getitem row p) values ;;
      _ <- py_getitem (ilabels columns) p ;;
      Ok (VObj (Series index col))
    else Raise (Exn ValueError "No axis named")
  end.

(** [obj._ixs(i, axis)] for the keys the accessors hand to it. *)
Definition _ixs (obj : NDFrame) (i : akey) (axis : Z) : res value :=
  match i with
  | KScalar k =>
    match integer_key i with
    | Some p => _ixs_integer obj p axis
    | None => Raise (Exn TypeError "not a position")
    end
  | KList [] => o <- take obj [] axis true ;; Ok (VObj o)
  | KList l =>
    match as_int_array l with
    | Some a => o <- take obj a axis true ;; Ok (VObj o)
    | None => Raise (Exn IndexError "arrays used as indices must be of integer type")
    end
  | KSlice _ => Raise (Exn TypeError "not a position")
  end.

(** Modelled from the spec: [obj._xs(label, axis, copy)], the cross-section
    by label (sections 1 and 8: it returns the same row or column as a
    [take] at the position [get_loc] resolves the label to; an absent label
    is [KeyNotFound]).  A repeated label selects every row that carries it
    and keeps the dimension. *)
Definition _xs (obj : NDFrame) (label : scalar) (axis : Z) (copy : bool)
  : res value :=
  labels <- _get_axis obj axis ;;
  l <- get_loc labels label ;;
  match l with
  | LocPos p => _ixs obj (KScalar (SInt p)) axis
  | LocMask m => o <- take obj (nonzero m) axis false ;; Ok (VObj o)
  end.

(** Python 2 comparison of a slice bound with an integer: a bool counts as
    0 or 1, a string is greater than every number. *)
Definition py_lt (x : scalar) (n : Z) : bool :=
  match x with
  | SInt z => z <? n
  | SBool b => int_of_bool b <? n
  | SStr _ => false
  end.
Definition py_gt (x : scalar) (n : Z) : bool :=
  match x with
  | SInt z => n <? z
  | SBool b => n <? int_of_bool b
  | SStr _ => true
  end.

Definition _check_slice_bounds {A} (slobj : slice) (values : list A)
  : res unit :=
  let l := len values in
  _ <- match start slobj with
       | Some start =>
         if py_lt start (- l) || py_gt start (l - 1)
         then Raise (Exn IndexError "out-of-bounds on slice (start)")
         else Ok tt
       | None => Ok tt
       end ;;
  match stop slobj with
  | Some stop =>
    if py_lt stop (- l - 1) || py_gt stop l
    then Raise (Exn IndexError "out-of-bounds on slice (end)")
    else Ok tt
  | None => Ok tt
  end.

(** The bound of a position slice must be an integer. *)
Definition slice_bound (v : option scalar) : res (option Z) :=
  match v with
  | None => Ok None
  | Some (SInt z) => Ok (Some z)
  | Some (SBool b) => Ok (Some (int_of_bool b))
  | Some (SStr _) =>
    Raise (Exn TypeError "slice indices must be integers or None")
  end.

(** [range(start, stop, step)] for a step that is not zero. *)
Definition zrange_step (start stop step : Z) : list Z :=
  let count :=
    if 0 <? step then (stop - start + step - 1) / step
    else (start - stop - step - 1) / (- step) in
  map (fun k => start + Z.of_nat k * step) (seq 0 (Z.to_nat count)).

(** The positions a Python slice selects on a sequence of length [n]
    ([slice.indices]): a negative bound counts from the end and a bound
    outside the sequence is clamped to it. *)
Definition slice_positions (sl : slice) (n : Z) : res (list Z) :=
  s <- slice_bound (start sl) ;;
  e <- slice_bound (stop sl) ;;
  let step := match step sl with Some k => k | None => 1 end in
  if step =? 0 then Raise (Exn ValueError "slice step cannot be zero")
  else
    let lower := if 0 <? step then 0 else -1 in
    let upper := if 0 <? step then n else n - 1 in
    let clamp v :=
      if v <? 0 then Z.max (v + n) lower else Z.min v upper in
    let s := match s with
             | Some v => clamp v
             | None => if 0 <? step then lower else upper
             end in
    let e := match e with
             | Some v => clamp v
             | None => if 0 <? step then upper else lower
             end in
    Ok (zrange_step s e step).

(** Modelled from the spec: [obj._slice(slobj, axis, raise_on_error)] of
    the host container, the selection by a position slice: the stop is
    exclusive (section 4.1) and a bound outside the axis is tolerated and
    clamped to it (sections 4.5 and 8).  The sources hand [raise_on_error]
    on to the container ([_NDFrameIndexer._slice]) and do nothing else with
    it; [_check_slice_bounds] above has no caller among them. *)
Definition _slice (obj : NDFrame) (slobj : slice) (axis : Z)
    (raise_on_error : bool) : res NDFrame :=
  ax <- _get_axis obj axis ;;
  ps <- slice_positions slobj (len (ilabels ax)) ;;
  take obj ps axis false.

(** ** Reads *)

Fixpoint enumerate_from {A} (i : Z) (l : list A) : list (Z * A) :=
  match l with
  | [] => []
  | a :: l' => (i, a) :: enumerate_from (i + 1) l'
  end.
Definition enumerate {A} (l : list A) : list (Z * A) := enumerate_from 0 l.

Module LocIndexer.

(** [_LocIndexer._has_valid_type] *)
Definition _has_valid_type (obj : NDFrame) (key : akey) (axis : Z) : res bool :=
  ax <- _get_axis obj axis ;;
  match key with
  | KSlice sl =>
    _ <- match start sl with
         | Some s => if negb (contains ax s)
                     then Raise (Exn KeyError "start bound is not in the axis")
                     else Ok tt
         | None => Ok tt
         end ;;
    _ <- match stop sl with
         | Some s => if negb (contains ax s)
                     then Raise (Exn KeyError "stop bound is not in the axis")
                     else Ok tt
         | None => Ok tt
         end ;;
    Ok true
  | KList l =>
    if _is_bool_indexer key then Ok true
    else if negb (forallb (contains ax) l)
    then Raise (Exn KeyError "are not in ALL in the axis")
    else Ok true
  | KScalar k =>
    (* if its empty we want a KeyError here *)
    if len (ilabels ax) =? 0 then Raise (Exn KeyError "The axis is empty")
    else if negb (contains ax k)
    then Raise (Exn KeyError "the label is not in the axis")
    else Ok true
  end.

End LocIndexer.

Section Reads.

(** The collaborators of a read that are not embedded: the scalar fast
    path [obj.get_value( *key )] of the host container, the read of a list
    key ([_getitem_iterable], which reindexes) and the reindexing read of
    a tuple of lists ([_multi_take]).  No property below depends on what
    they return. *)
Variable get_value : NDFrame -> list akey -> res cell.
Variable _getitem_iterable : accessor -> NDFrame -> list scalar -> Z -> res value.
Variable _multi_take : accessor -> NDFrame -> list akey -> res value.

Definition _get_label (obj : NDFrame) (label : scalar) (axis : Z) : res value :=
  try_except (_xs obj label axis false) any_exception
    (fun _ => _xs obj label axis true).

Definition _get_loc (obj : NDFrame) (key : akey) (axis : Z) : res value :=
  _ixs obj key axis.

(** [_exception] of each accessor class *)
Definition _exception (self : accessor) : exn_class :=
  match self with ix => KeyError | loc => KeyError | iloc => IndexError end.

(** Whether the accessor's class derives from [_LocationIndexer]. *)
Definition is_location_indexer (self : accessor) : bool :=
  match self with ix => false | _ => true end.

Definition _getbool_axis (self : accessor) (obj : NDFrame) (key : list scalar)
    (axis : Z) : res value :=
  labels <- _get_axis obj axis ;;
  let key := _check_bool_indexer labels key in
  let inds := nonzero key in
  try_except (o <- take obj inds axis false ;; Ok (VObj o)) any_exception
    (fun detail => Raise (Exn (_exception self) (exn_msg detail))).

Definition slice_result (obj : NDFrame) (indexer : slice) (axis : Z)
    (raise_on_error : bool) : res value :=
  o <- _slice obj indexer axis raise_on_error ;; Ok (VObj o).

(** [_get_slice_axis] of [_NDFrameIndexer] ([ix]), of [_LocationIndexer]
    ([loc]: we just have to deal with labels) and of [_iLocIndexer]. *)
Definition _get_slice_axis (self : accessor) (obj : NDFrame)
    (slice_obj : slice) (axis : Z) : res value :=
  if negb (_need_slice slice_obj) then Ok (VObj obj)
  else
    match self with
    | ix =>
      labels <- _get_axis obj axis ;;
      indexer <- convert_slice labels slice_obj ;;
      slice_result obj indexer axis false
    | loc =>
      labels <- _get_axis obj axis ;;
      indexer <- slice_indexer labels (start slice_obj) (stop slice_obj)
                   (step slice_obj) ;;
      slice_result obj indexer axis false
    | iloc => slice_result obj slice_obj axis true
    end.

(** [_has_valid_type] of the two location indexers *)
Definition _has_valid_type (self : accessor) (obj : NDFrame) (key : akey)
    (axis : Z) : res bool :=
  match self with
  | iloc => Ok (iLocIndexer._has_valid_type key axis)
  | loc => LocIndexer._has_valid_type obj key axis
  | ix => Raise (Exn NotImplementedError "")
  end.

(** [_getitem_axis] of [_NDFrameIndexer] ([ix]), [_LocIndexer] and
    [_iLocIndexer], on single-level label sets; the branch of [ix] for a
    MultiIndex on axis 0 (lines 625-630) is in
    [Hierarchical._getitem_axis]. *)
Definition _getitem_axis (self : accessor) (obj : NDFrame) (key : akey)
    (axis : Z) : res value :=
  match self with
  | ix =>
    labels <- _get_axis obj axis ;;
    match key with
    | KSlice sl => _get_slice_axis self obj sl axis
    | KList l => _getitem_iterable self obj l axis
    | KScalar k =>
      if is_integer k && negb (_is_integer_index labels)
      then _get_loc obj key axis
      else _get_label obj k axis
    end
  | loc =>
    labels <- _get_axis obj axis ;;
    match key with
    | KSlice sl =>
      _ <- _has_valid_type self obj key axis ;;
      _get_slice_axis self obj sl axis
    | KList l =>
      if _is_bool_indexer key then _getbool_axis self obj l axis
      else _getitem_iterable self obj l axis
    | KScalar k => _get_label obj k axis
    end
  | iloc =>
    match key with
    | KSlice sl =>
      _ <- _has_valid_type self obj key axis ;;
      _get_slice_axis self obj sl axis
    | KList l =>
      if _is_bool_indexer key then
        _ <- _has_valid_type self obj key axis ;;
        _getbool_axis self obj l axis
      else _get_loc obj key axis
    | KScalar k =>
      (* a single integer or a list of integers *)
      if negb (is_integer k || _is_list_like key)
      then Raise (Exn ValueError
                    "Cannot index by location index with a non-integer key")
      else _get_loc obj key axis
    end
  end.

(** [_has_valid_tuple]: nothing for [ix]; the location indexers check
    every key across the axes. *)
Fixpoint _has_valid_tuple_loop (self : accessor) (obj : NDFrame)
    (key : list (Z * akey)) : res unit :=
  match key with
  | [] => Ok tt
  | (i, k) :: key' =>
    if ndim obj <=? i then Raise (Exn ValueError "Too many indexers")
    else
      ok <- _has_valid_type self obj k i ;;
      if negb ok
      then Raise (Exn ValueError
                    "Location based indexing can only have valid types")
      else _has_valid_tuple_loop self obj key'
  end.

Definition _has_valid_tuple (self : accessor) (obj : NDFrame)
    (key : list akey) : res unit :=
  if is_location_indexer self
  then _has_valid_tuple_loop self obj (enumerate key)
  else Ok tt.

(** ugly hack for GH #836; no embedded axis is a MultiIndex *)
Definition _multi_take_opportunity (obj : NDFrame) (tup : list akey) : bool :=
  forallb _is_list_like tup.

Definition value_ndim (v : value) : Z :=
  match v with VCell _ => 0 | VObj o => ndim o end.

(** [tup[:i]] and [tup[i + 1:]] *)
Definition before {A} (i : Z) (l : list A) : list A := firstn (Z.to_nat i) l.
Definition after {A} (i : Z) (l : list A) : list A := skipn (Z.to_nat (i + 1)) l.

Section Recursion.

(** [getattr(section, self.name)[new_key]] *)
Variable getitem : accessor -> NDFrame -> key -> res value.

Fixpoint _getitem_lowerdim_loop (self : accessor) (obj : NDFrame)
    (tup : list akey) (rest : list (Z * akey)) : res value :=
  match rest with
  | [] => Raise (Exn IndexingError "not applicable")
  | (i, key) :: rest' =>
    if _is_label_like key then
      section <- _getitem_axis self obj key i ;;
      match section with
      | VCell _ =>
        (* we have yielded a scalar ? *)
        Ok section
      | VObj sec =>
        let new_key :=
          if ndim sec =? ndim obj then
            KTuple (before i tup ++ KSlice _NS :: after i tup)
          else
            let new_key := before i tup ++ after i tup in
            (* the kludge for the DataFrame transposing convention *)
            let new_key :=
              match sec, new_key with
              | DataFrame _ _ _, [a; b] => if 0 <? i then [b; a] else new_key
              | _, _ => new_key
              end in
            match new_key with
            | [k] => K k
            | _ => KTuple new_key
            end in
        getitem self sec new_key
      end
    else _getitem_lowerdim_loop self obj tup rest'
  end.

Definition _getitem_lowerdim (self : accessor) (obj : NDFrame)
    (tup : list akey) : res value :=
  if ndim obj <? len tup then Raise (Exn IndexingError "")
  else _getitem_lowerdim_loop self obj tup (enumerate tup).

(** The loop of [_getitem_tuple]: no shortcut needed. *)
Fixpoint _getitem_tuple_loop (self : accessor) (obj : NDFrame)
    (retval : value) (tup : list (Z * akey)) : res value :=
  match tup with
  | [] => Ok retval
  | (i, key) :: tup' =>
    if ndim obj <=? i then Raise (Exn IndexingError "Too many indexers")
    else if _is_null_slice key then _getitem_tuple_loop self obj retval tup'
    else
      match retval with
      | VObj o =>
        retval <- _getitem_axis self o key i ;;
        _getitem_tuple_loop self obj retval tup'
      | VCell _ =>
        Raise (Exn TypeError "a scalar has no indexer attribute")
      end
  end.

(** [_getitem_tuple] of [_NDFrameIndexer] and of [_iLocIndexer] *)
Definition _getitem_tuple (self : accessor) (obj : NDFrame)
    (tup : list akey) : res value :=
  match self with
  | iloc =>
    _ <- _has_valid_tuple self obj tup ;;
    try_except (_getitem_lowerdim self obj tup) any_exception
      (fun _ => _getitem_tuple_loop self obj (VObj obj) (enumerate tup))
  | _ =>
    try_except (_getitem_lowerdim self obj tup) (only IndexingError)
      (fun _ =>
         (* no multi-index, so validate all of the indexers *)
         _ <- _has_valid_tuple self obj tup ;;
         if _multi_take_opportunity obj tup then _multi_take self obj tup
         else _getitem_tuple_loop self obj (VObj obj) (enumerate tup))
  end.

(** [__getitem__] of [_NDFrameIndexer] and of [_LocationIndexer] *)
Definition getitem_body (self : accessor) (obj : NDFrame) (key : key)
  : res value :=
  match key with
  | KTuple tup =>
    match self with
    | ix =>
      match get_value obj tup with
      | Ok c => Ok (VCell c)
      | Raise _ => _getitem_tuple self obj tup
      end
    | _ => _getitem_tuple self obj tup
    end
  | K k => _getitem_axis self obj k 0
  end.

End Recursion.

(** The recursion of [__getitem__] through [_getitem_lowerdim]: every call
    drops an entry of the tuple or turns a label into the null slice. *)
Fixpoint getitem_rec (fuel : nat) (self : accessor) (obj : NDFrame)
    (key : key) : res value :=
  match fuel with
  | O => Raise (Exn AssertionError "maximum recursion depth exceeded")
  | S fuel' => getitem_body (getitem_rec fuel') self obj key
  end.

Definition key_size (key : key) : nat :=
  match key with
  | K _ => 1
  | KTuple tup => 2 * List.length tup + 2
  end.

Definition __getitem__ (self : accessor) (obj : NDFrame) (key : key)
  : res value :=
  getitem_rec (key_size key) self obj key.

End Reads.

(** ** The storage collaborator, for writes *)

(** The value of an assignment: a scalar, an unlabelled list, a labelled
    vector (a Series), or a list whose entries are values themselves
    ([[[1, 2], [3, 4]]], [[5, [1, 2, 3]]]). *)
#[warnings="-register-all"]
Inductive rhs :=
| RScalar (c : cell)
| RList (l : list cell)
| RSeries (index : Index) (values : list cell)
| RNested (rows : list rhs).

(** The first position of a label, if it occurs. *)
Definition find_label (k : scalar) (l : list scalar) : option nat :=
  match positions_of k l with
  | p :: _ => Some (Z.to_nat p)
  | [] => None
  end.

(** Modelled from the spec: [Series.reindex(labels)] (section 4.3, rule 2):
    the values of a labelled vector laid out on the target labels; a target
    label absent from the vector receives the missing fill, an entry of the
    vector whose label is not a target is discarded. *)
Definition reindex_values {A} (fill : A) (index : list scalar) (values : list A)
    (target : list scalar) : list A :=
  map (fun k => match find_label k index with
                | Some p => nth p values fill
                | None => fill
                end) target.

Definition Series_reindex (index : Index) (values : list cell)
    (new_ix : Index) : list cell :=
  reindex_values NaN (ilabels index) values (ilabels new_ix).

(** Modelled from the spec: the storage manager's
    [reindex_axis(labels, axis)] (sections 1 and 4.4): the object laid out
    on the new labels of one axis; the data of a label that was there is
    kept, a new label receives the missing fill. *)
Definition reindex_axis (obj : NDFrame) (labels : Index) (axis : Z)
  : res NDFrame :=
  match obj with
  | Series index values =>
    if axis =? 0 then
      Ok (Series labels (Series_reindex index values labels))
    else Raise (Exn ValueError "No axis named")
  | DataFrame index columns values =>
    if axis =? 0 then
      Ok (DataFrame labels columns
            (reindex_values (map (fun _ => NaN) (ilabels columns))
               (ilabels index) values (ilabels labels)))
    else if axis =? 1 then
      Ok (DataFrame index labels
            (map (fun row => reindex_values NaN (ilabels columns) row
                               (ilabels labels)) values))
    else Raise (Exn ValueError "No axis named")
  end.

(** Modelled from the spec: [obj[key] = np.nan] of a two-axis container
    (section 4.4): a column under a new label is appended at the end and
    filled with the missing value; a column that is there is overwritten. *)
Definition setitem_nan (obj : NDFrame) (key : scalar) : res NDFrame :=
  match obj with
  | Series _ _ => Raise (Exn TypeError "not a two-axis container")
  | DataFrame index columns values =>
    if contains columns key then
      Ok (DataFrame index columns
            (map (fun row =>
                    map (fun lc => if scalar_eqb key (fst lc) then NaN
                                   else snd lc)
                        (combine (ilabels columns) row)) values))
    else
      Ok (DataFrame index (_safe_append_to_index columns key)
            (map (fun row => row ++ [NaN]) values))
  end.

(** [ax[idx]]: the labels an indexer selects. *)
Definition Index_getitem (ax : Index) (idx : indexer1) : res Index :=
  match idx with
  | IInt p => k <- py_getitem (ilabels ax) p ;; Ok (Index_of [k])
  | ISlice sl =>
    ps <- slice_positions sl (len (ilabels ax)) ;; Index_take ax ps
  | IArray a => Index_take ax a
  | IBoolArray m =>
    if len m =? len (ilabels ax) then Index_take ax (nonzero m)
    else Raise (Exn IndexError "boolean index did not match")
  | IList [] => Index_take ax []
  | IList l =>
    if forallb is_bool l then
      if len l =? len (ilabels ax) then Index_take ax (nonzero (map truth l))
      else Raise (Exn IndexError "boolean index did not match")
    else
      match as_int_array l with
      | Some a => Index_take ax a
      | None => Raise (Exn IndexError "arrays used as indices must be of integer type")
      end
  | IDict _ => Raise (Exn IndexError "invalid index")
  end.

(** A position on an axis of length [n], as an array index. *)
Definition norm_pos (n p : Z) : res Z :=
  let j := if p <? 0 then p + n else p in
  if (j <? 0) || (n <=? j) then Raise (Exn IndexError "index out of bounds")
  else Ok j.

(** What one entry of an indexer selects on an axis of length [n]: one
    position (the axis is dropped from the shape of the selection) or a
    list of positions. *)
Inductive selection :=
| One (p : Z)
| Many (fancy : bool) (ps : list Z).

Definition select1 (n : Z) (idx : indexer1) : res selection :=
  match idx with
  | IInt p => j <- norm_pos n p ;; Ok (One j)
  | ISlice sl => ps <- slice_positions sl n ;; Ok (Many false ps)
  | IArray a => ps <- mapM (norm_pos n) a ;; Ok (Many true ps)
  | IBoolArray m =>
    if len m =? n then Ok (Many true (nonzero m))
    else Raise (Exn IndexError "boolean index did not match")
  | IList [] => Ok (Many true [])
  | IList l =>
    if forallb is_bool l then
      if len l =? n then Ok (Many true (nonzero (map truth l)))
      else Raise (Exn IndexError "boolean index did not match")
    else
      match as_int_array l with
      | Some a => ps <- mapM (norm_pos n) a ;; Ok (Many true ps)
      | None => Raise (Exn IndexError "arrays used as indices must be of integer type")
      end
  | IDict _ => Raise (Exn IndexError "invalid index")
  end.

(** The cells an indexer selects in an array of [n] rows and [m] columns,
    in the shape of the selection: no axis, one axis, or two. *)
Inductive target :=
| T0 (c : Z * Z)
| T1 (cs : list (Z * Z))
| T2 (cs : list (list (Z * Z))).

Definition product (rs cs : list Z) : list (list (Z * Z)) :=
  map (fun r => map (fun c => (r, c)) cs) rs.

(** Modelled from the spec: the cells of the storage that an indexer
    addresses (section 1, [setitem(selector, value)]), the way an array
    indexes: a tuple of two arrays is read pairwise, the open mesh of
    [np.ix_] as every combination. *)
Definition target_cells (n m : Z) (indexer : indexer) : res target :=
  match indexer with
  | I1 i | ITuple [i] =>
    s <- select1 n i ;;
    match s with
    | One r => Ok (T1 (map (fun c => (r, c)) (zrange 0 m)))
    | Many _ rs => Ok (T2 (product rs (zrange 0 m)))
    end
  | ITuple [i; j] =>
    s <- select1 n i ;;
    t <- select1 m j ;;
    match s, t with
    | One r, One c => Ok (T0 (r, c))
    | One r, Many _ cs => Ok (T1 (map (fun c => (r, c)) cs))
    | Many _ rs, One c => Ok (T1 (map (fun r => (r, c)) rs))
    | Many true rs, Many true cs =>
      if len rs =? len cs then Ok (T1 (combine rs cs))
      else if len rs =? 1 then
        Ok (T1 (map (fun c => (nth 0 rs 0, c)) cs))
      else if len cs =? 1 then
        Ok (T1 (map (fun r => (r, nth 0 cs 0)) rs))
      else Raise (Exn ValueError "shape mismatch: indexing arrays could not be broadcast together")
    | Many _ rs, Many _ cs => Ok (T2 (product rs cs))
    end
  | IMesh [rs] =>
    rs <- mapM (norm_pos n) rs ;;
    Ok (T2 (product rs (zrange 0 m)))
  | IMesh [rs; cs] =>
    rs <- mapM (norm_pos n) rs ;;
    cs <- mapM (norm_pos m) cs ;;
    Ok (T2 (product rs cs))
  | _ => Raise (Exn IndexError "too many indices")
  end.

(** The cell each target receives from the value: a scalar goes to every
    cell, a list is laid along the last axis of the selection, and a list
    of lists is an unlabelled block that corresponds to the selection
    position by position and must have its shape (section 4.3, rule 4). *)
Definition broadcast (t : target) (value : rhs) : res (list ((Z * Z) * cell)) :=
  let mismatch :=
    Exn ValueError "shape mismatch: value array could not be broadcast to indexing result" in
  let sequence := Exn ValueError "setting an array element with a sequence" in
  match value with
  | RScalar c =>
    Ok (map (fun p => (p, c))
          (match t with T0 p => [p] | T1 ps => ps | T2 pss => List.concat pss end))
  | RList l | RSeries _ l =>
    let along ps :=
      if len l =? len ps then Ok (combine ps l)
      else if len l =? 1 then Ok (map (fun p => (p, nth 0 l NaN)) ps)
      else Raise mismatch in
    match t with
    | T0 _ => Raise sequence
    | T1 ps => along ps
    | T2 pss => pps <- mapM along pss ;; Ok (List.concat pps)
    end
  | RNested rows =>
    match t with
    | T2 pss =>
      if len rows =? len pss then
        pps <- mapM (fun pr =>
                       match snd pr with
                       | RList l =>
                         if len l =? len (fst pr) then Ok (combine (fst pr) l)
                         else Raise mismatch
                       | _ => Raise sequence
                       end) (combine pss rows) ;;
        Ok (List.concat pps)
      else Raise mismatch
    | _ => Raise sequence
    end
  end.

(** The value a cell holds after the writes, the last write winning. *)
Definition assigned (writes : list ((Z * Z) * cell)) (p : Z * Z) (old : cell)
  : cell :=
  fold_left (fun acc w => if (fst (fst w) =? fst p) && (snd (fst w) =? snd p)
                          then snd w else acc) writes old.

Definition write_cells (writes : list ((Z * Z) * cell))
    (values : list (list cell)) : list (list cell) :=
  map (fun ir => map (fun jc => assigned writes (fst ir, fst jc) (snd jc))
                     (enumerate (snd ir)))
      (enumerate values).

(** Modelled from the spec: [obj._data.setitem(indexer, value)] of the
    storage manager (section 1): the value is written at the selected
    cells and every other cell is kept; a position outside the storage and
    a value whose shape does not fit the selection are errors (section 7).
    A Series is stored as one column. *)
Definition data_setitem (obj : NDFrame) (indexer : indexer) (value : rhs)
  : res NDFrame :=
  match obj with
  | Series index values =>
    t <- match indexer with
         | ITuple (_ :: _ :: _) | IMesh (_ :: _ :: _) =>
           Raise (Exn IndexError "too many indices")
         | _ => target_cells (len values) 1 indexer
         end ;;
    let t := match t with
             | T1 [p] => match indexer with
                         | I1 (IInt _) | ITuple [IInt _] => T0 p
                         | _ => t
                         end
             | T2 pss => T1 (List.concat pss)
             | _ => t
             end in
    writes <- broadcast t value ;;
    Ok (Series index
          (map (fun ic => assigned writes (fst ic, 0) (snd ic))
               (enumerate values)))
  | DataFrame index columns values =>
    t <- target_cells (len values) (len (ilabels columns)) indexer ;;
    writes <- broadcast t value ;;
    Ok (DataFrame index columns (write_cells writes values))
  end.

(** [np.ix_( *args )]: the open mesh of position arrays; a boolean array
    stands for the positions it holds true. *)
Definition np_ix_ (args : list indexer1) : res (list (list Z)) :=
  mapM (fun arg =>
          match arg with
          | IArray a => Ok a
          | IBoolArray m => Ok (nonzero m)
          | IList [] => Ok []
          | IList l =>
            if forallb is_bool l then Ok (nonzero (map truth l))
            else match as_int_array l with
                 | Some a => Ok a
                 | None => Raise (Exn IndexError "arrays used as indices must be of integer type")
                 end
          | _ => Raise (Exn ValueError "Cross index must be 1 dimensional")
          end) args.

(** ** Assignment *)

Definition _tuplify (obj : NDFrame) (loc : indexer1) : list indexer1 :=
  match map (fun _ => ISlice _NS) (axes obj) with
  | [] => []
  | _ :: tup => loc :: tup
  end.

(** [com.is_list_like] and [com._is_sequence] on an entry of an indexer:
    anything that iterates and is not a string, the dict included. *)
Definition is_list_like (i : indexer1) : bool :=
  match i with
  | IInt _ | ISlice _ => false
  | _ => true
  end.

Definition indexer_is_null_slice (idx : indexer1) : bool :=
  match idx with
  | ISlice sl => _is_null_slice (KSlice sl)
  | _ => false
  end.

Fixpoint zip {A B} (l : list A) (l' : list B) : list (A * B) :=
  match l, l' with
  | a :: l, b :: l' => (a, b) :: zip l l'
  | _, _ => []
  end.

(** [_has_valid_positional_setitem_indexer]: validate that a positional
    indexer cannot enlarge its target; will raise if needed, does not
    modify the indexer externally. *)
Definition _has_valid_positional_setitem_indexer (self : accessor)
    (obj : NDFrame) (indexer : indexer) : res bool :=
  let cannot_enlarge :=
    Raise (Exn IndexError
             (String.append (name self) " cannot enlarge its target object")) in
  match indexer with
  | I1 (IDict _) => cannot_enlarge
  | _ =>
    let indexer := match indexer with
                   | I1 i => _tuplify obj i
                   | ITuple t => t
                   | IMesh arrays => map (fun a => IArray a) arrays
                   end in
    (fix loop (l : list (Index * indexer1)) : res bool :=
       match l with
       | [] => Ok true
       | (ax, i) :: l' =>
         match i with
         | ISlice _ => (* should check the stop slice? *) loop l'
         | IInt p =>
           if len (ilabels ax) <=? p then cannot_enlarge else loop l'
         | _ => (* should check the elements? *) loop l'
         end
       end) (zip (axes obj) indexer)
  end.

(** [_has_valid_setitem_indexer]: [True] for [ix] and [loc], the
    positional validation for [iloc]. *)
Definition _has_valid_setitem_indexer (self : accessor) (obj : NDFrame)
    (indexer : indexer) : res bool :=
  match self with
  | iloc => _has_valid_positional_setitem_indexer self obj indexer
  | _ => Ok true
  end.

(** What [_convert_missing_indexer] hands back in place of the indexer:
    the key of a missing indexer, or the indexer as it was. *)
Inductive unwrapped :=
| TheKey (k : scalar)
| TheIndexer (i : indexer1).

(** [_convert_missing_indexer]: reverse convert a missing indexer, which is
    a dict; return the scalar indexer and a boolean indicating if we
    converted. *)
Definition _convert_missing_indexer (indexer : indexer1)
  : res (unwrapped * bool) :=
  match indexer with
  | IDict k =>
    (* a missing key (but not a tuple indexer) *)
    if is_bool k
    then Raise (Exn KeyError "cannot use a single bool to index into setitem")
    else Ok (TheKey k, true)
  | _ => Ok (TheIndexer indexer, false)
  end.

(** An entry of an indexer used again as a key. *)
Definition key_of_indexer (idx : indexer1) : akey :=
  match idx with
  | IInt p => KScalar (SInt p)
  | ISlice sl => KSlice sl
  | IArray a => KList (map SInt a)
  | IBoolArray m => KList (map SBool m)
  | IList l => KList l
  | IDict k => KScalar k
  end.

(** [_convert_from_missing_indexer_tuple]: create a filtered indexer that
    doesn't have any missing indexers. *)
Definition _convert_from_missing_indexer_tuple (indexer : list indexer1)
  : list akey :=
  map key_of_indexer indexer.

(** [_maybe_convert_ix]: we likely want to take the cross-product. *)
Definition _maybe_convert_ix (args : list indexer1) : res indexer :=
  let ixify :=
    forallb (fun arg => match arg with
                        | IArray _ | IBoolArray _ | IList _ => true
                        | _ => false
                        end) args in
  if ixify then arrays <- np_ix_ args ;; Ok (IMesh arrays)
  else Ok (ITuple args).

(** The end of [_align_series]: the data of the series as it is when its
    labels are the target labels, reindexed onto them otherwise. *)
Definition align_to (ax : Index) (ser_index : Index) (ser_values : list cell)
  : list cell :=
  if Index_equals ser_index ax then ser_values
  else Series_reindex ser_index ser_values ax.

(** The head of [_align_series] on a tuple indexer: are we a single
    alignable value on a non-primary dim (frame: 0)?  Hence need to align
    to a single axis dimension rather than find all valid dims. *)
Definition single_aligner (obj : NDFrame) (indexer : list indexer1)
  : res bool :=
  let aligners := map (fun idx => negb (indexer_is_null_slice idx)) indexer in
  let single_aligner := len (filter (fun b => b) aligners) =? 1 in
  let is_frame := ndim obj =? 2 in
  if is_frame then
    a0 <- py_getitem aligners 0 ;; Ok (single_aligner && a0)
  else Ok single_aligner.

(** [com._is_sequence(idx) or isinstance(idx, slice)] *)
Definition sequence_or_slice (idx : indexer1) : bool :=
  is_list_like idx || match idx with ISlice _ => true | _ => false end.

(** [_align_series]: the indexer to assign a Series can be a tuple or a
    scalar. *)
Definition _align_series (obj : NDFrame) (indexer : indexer)
    (ser_index : Index) (ser_values : list cell) : res (list cell) :=
  let incompatible := Raise (Exn ValueError "Incompatible indexer with Series") in
  match indexer with
  | ITuple indexer =>
    single_aligner <- single_aligner obj indexer ;;
    let is_frame := ndim obj =? 2 in
    (fix loop (l : list (Z * indexer1)) : res (list cell) :=
       match l with
       | [] => incompatible
       | (i, idx) :: l' =>
         ax <- py_getitem (axes obj) i ;;
         (* multiple aligners (or null slices) *)
         if sequence_or_slice idx then
           if single_aligner && indexer_is_null_slice idx then loop l'
           else
             new_ix <- Index_getitem ax idx ;;
             Ok (align_to new_ix ser_index ser_values)
         else if single_aligner && is_frame then
           (* reindex along index *)
           ax <- py_getitem (axes obj) 1 ;;
           Ok (align_to ax ser_index ser_values)
         else loop l'
       end) (enumerate indexer)
  | IMesh _ =>
    (* the labels a mesh of positions selects are no label set *)
    Raise (Exn TypeError "cannot align a Series with a mesh")
  | I1 (IInt _) =>
    ax <- _get_axis obj 1 ;;
    Ok (align_to ax ser_index ser_values)
  | I1 _ => incompatible
  end.

Definition _convert_tuple (self : accessor) (obj : NDFrame) (key : list akey)
    (is_setter : bool) : res (list indexer1) :=
  mapM (fun ik => _convert_to_indexer self obj (snd ik) (fst ik) is_setter)
       (enumerate key).

(** [np.concatenate([self.obj.values, [value]])] *)
Definition concatenate_value (values : list cell) (value : rhs)
  : res (list cell) :=
  match value with
  | RScalar c => Ok (values ++ [c])
  | _ => Raise (Exn ValueError "all the input arrays must have same number of dimensions")
  end.

(** The head of [__setitem__]: the key converted for a setter. *)
Definition resolve_key (self : accessor) (obj : NDFrame) (key : key)
  : res indexer :=
  match key with
  | KTuple key =>
    if ndim obj <? len key
    then Raise (Exn IndexingError "only tuples of length <= ndim supported")
    else t <- _convert_tuple self obj key true ;; Ok (ITuple t)
  | K key => i <- _convert_to_indexer self obj key 0 true ;; Ok (I1 i)
  end.

(** Whether an indexer holds the dict of a missing key. *)
Definition is_dict (i : indexer1) : bool :=
  match i with IDict _ => true | _ => false end.

Definition has_missing (indexer : indexer) : bool :=
  match indexer with
  | I1 i => is_dict i
  | ITuple t => existsb is_dict t
  | IMesh _ => false
  end.

Section Assignment.

(** [getattr(self.obj, name).__setitem__(key, value)]; the object is
    handed back as the call leaves it, with the outcome. *)
Variable setitem : accessor -> NDFrame -> key -> rhs -> NDFrame * res unit.

(** The loop over a tuple indexer at the head of [_setitem_with_indexer]:
    a missing entry enlarges its axis in place.  The loop ends with the
    new indexer, or the method returns or raises from inside it. *)
Inductive enlarged :=
| Returned (obj : NDFrame) (r : res unit)
| Converted (obj : NDFrame) (nindexer : list indexer1).

Fixpoint enlarge_tuple (self_ndim : Z) (indexer : list indexer1)
    (value : rhs) (obj : NDFrame) (rest : list (Z * indexer1))
    (nindexer : list indexer1) : enlarged :=
  match rest with
  | [] => Converted obj nindexer
  | (i, idx) :: rest' =>
    match idx with
    | IDict _ =>
      (* reindex the axis to the new value and set inplace *)
      match _convert_missing_indexer idx with
      | Raise e => Returned obj (Raise e)
      | Ok (TheIndexer _, _) => Returned obj (Raise (Exn TypeError ""))
      | Ok (TheKey key, _) =>
        (* if this is the items axes, then take the main missing path first *)
        if (1 <? self_ndim) && (i =? _info_axis_number obj) then
          (* add the new item, and set the value *)
          let new_indexer := _convert_from_missing_indexer_tuple indexer in
          match setitem_nan obj key with
          | Raise e => Returned obj (Raise e)
          | Ok obj' =>
            let (obj'', r) := setitem loc obj' (KTuple new_indexer) value in
            Returned obj'' r
          end
        else
          (* reindex the axis *)
          match _get_axis obj i with
          | Raise e => Returned obj (Raise e)
          | Ok index =>
            let labels := _safe_append_to_index index key in
            match reindex_axis obj labels i with
            | Raise e => Returned obj (Raise e)
            | Ok obj' =>
              match get_loc labels key with
              | Raise e => Returned obj' (Raise e)
              | Ok l =>
                enlarge_tuple self_ndim indexer value obj' rest'
                  (nindexer ++ [indexer_of_location l])
              end
            end
          end
      end
    | _ => enlarge_tuple self_ndim indexer value obj rest' (nindexer ++ [idx])
    end
  end.

(** The end of [_setitem_with_indexer] when the split path is not taken
    (lines 319-333; the object holds one block of cells and no axis is a
    MultiIndex, so [take_split_path] is false): align and set the values.
    When a step raises, the assignment to [self.obj._data] of line 332 is
    not reached and the object is as it was.  The split path is
    [MixedType.split_path]. *)
Definition set_values (obj : NDFrame) (indexer : indexer) (value : rhs)
  : NDFrame * res unit :=
  let r :=
    indexer <- match indexer with
               | ITuple t => _maybe_convert_ix t
               | _ => Ok indexer
               end ;;
    value <- match value with
             | RSeries ser_index ser_values =>
               v <- _align_series obj indexer ser_index ser_values ;;
               Ok (RList v)
             | _ => Ok value
             end ;;
    data_setitem obj indexer value in
  match r with
  | Ok obj' => (obj', Ok tt)
  | Raise e => (obj, Raise e)
  end.

(** [_NDFrameIndexer._setitem_with_indexer] on an object that is not of
    mixed type; [MixedType._setitem_with_indexer] is the method for every
    object. *)
Definition _setitem_with_indexer (self : accessor) (obj : NDFrame)
    (indexer : indexer) (value : rhs) : NDFrame * res unit :=
  match _has_valid_setitem_indexer self obj indexer with
  | Raise e => (obj, Raise e)
  | Ok _ =>
    (* maybe partial set *)
    match indexer with
    | ITuple t =>
      match enlarge_tuple (ndim obj) t value obj (enumerate t) [] with
      | Returned obj' r => (obj', r)
      | Converted obj' nindexer => set_values obj' (ITuple nindexer) value
      end
    | IMesh _ =>
      (* a mesh is the tuple of 2-D arrays [np.ix_] made: handed in as an
         indexer it would be crossed again, which [np.ix_] refuses *)
      (obj, Raise (Exn ValueError "Cross index must be 1 dimensional"))
    | I1 i =>
      match _convert_missing_indexer i with
      | Raise e => (obj, Raise e)
      | Ok (TheIndexer i, _) => set_values obj (I1 i) value
      | Ok (TheKey indexer, _) =>
        (* reindex the axis to the new value and set inplace *)
        match obj with
        | Series index values =>
          let new_index :=
            if len (ilabels index) =? 0 then Index_of [indexer]
            else _safe_append_to_index index indexer in
          match concatenate_value values value with
          | Raise e => (obj, Raise e)
          | Ok new_values => (Series new_index new_values, Ok tt)
          end
        | DataFrame index _ _ =>
          let labels := _safe_append_to_index index indexer in
          match reindex_axis obj labels 0 with
          | Raise e => (obj, Raise e)
          | Ok obj' => setitem self obj' (K (KScalar indexer)) value
          end
        end
      end
    end
  end.

(** [__setitem__] *)
Definition setitem_body (self : accessor) (obj : NDFrame) (key : key)
    (value : rhs) : NDFrame * res unit :=
  match resolve_key self obj key with
  | Raise e => (obj, Raise e)
  | Ok indexer => _setitem_with_indexer self obj indexer value
  end.

End Assignment.

(** [__setitem__] calls itself again after an axis was enlarged: on the
    object with the new label, with the key that names it. *)
Fixpoint setitem_rec (fuel : nat) (self : accessor) (obj : NDFrame)
    (key : key) (value : rhs) : NDFrame * res unit :=
  match fuel with
  | O => (obj, Raise (Exn AssertionError "maximum recursion depth exceeded"))
  | S fuel' => setitem_body (setitem_rec fuel') self obj key value
  end.

(** A call enters [__setitem__] again only after it added the label its
    key names, which the new call then finds: the calls nest twice at
    most. *)
Definition setitem_depth : nat := 4.

Definition __setitem__ (self : accessor) (obj : NDFrame) (key : key)
    (value : rhs) : NDFrame * res unit :=
  setitem_rec setitem_depth self obj key value.

(** [_setitem_with_indexer], entered with a resolved indexer. *)
Definition setitem_with_indexer (self : accessor) (obj : NDFrame)
    (indexer : indexer) (value : rhs) : NDFrame * res unit :=
  _setitem_with_indexer (setitem_rec setitem_depth) self obj indexer value.

(** ** Auxiliary definitions of the properties *)

(** The cell at row [i] and column [j]. *)
Definition at_cell (i j : Z) (p : Z * Z) : bool :=
  (fst p =? i) && (snd p =? j).

(** A bound of a slice that is None or a label of the axis. *)
Definition bound_found (labels : Index) (v : option scalar) : bool :=
  match v with
  | None => true
  | Some k => contains labels k
  end.

(** A bound of a position slice clamped to an axis of length [n]; a
    negative bound counts from the end of the axis. *)
Definition clamp_bound (n v : Z) : Z :=
  if v <? 0 then Z.max (v + n) 0 else Z.min v n.

(** The cells of a target, whatever its shape. *)
Definition cells_of (t : target) : list (Z * Z) :=
  match t with T0 p => [p] | T1 ps => ps | T2 pss => List.concat pss end.

(** The cell at row [i] and column [j] of the data of a two-axis object. *)
Definition cell_at (values : list (list cell)) (i j : nat) : option cell :=
  match nth_error values i with
  | Some row => nth_error row j
  | None => None
  end.

(** Sample collaborators of a read, for the examples: a scalar fast path
    that finds no cell, and reads of lists that are not provided. *)
Definition no_get_value : NDFrame -> list akey -> res cell :=
  fun _ _ => Raise (Exn KeyError "not a cell").

Definition no_getitem_iterable
  : accessor -> NDFrame -> list scalar -> Z -> res value :=
  fun _ _ _ _ => Raise (Exn NotImplementedError "").

Definition no_multi_take : accessor -> NDFrame -> list akey -> res value :=
  fun _ _ _ => Raise (Exn NotImplementedError "").

(** * The rest of the indexing module *)

(** ** The length of an indexer *)

(** What [_length_of_indexer] computes: a number, one of the errors of the
    module, or the division by a zero step, which is none of them. *)
Inductive length_result :=
| Length (n : Z)
| LengthError (e : exn)
| LengthZeroDivision.

(** A bound of a slice in an arithmetic expression. *)
Definition number (x : scalar) : option Z :=
  match x with
  | SInt z => Some z
  | SBool b => Some (int_of_bool b)
  | SStr _ => None
  end.

(** [_length_of_indexer]: return the length of a single non-tuple indexer
    which could be a slice.  The division is the integer division of
    Python 2. *)
Definition _length_of_indexer (indexer : indexer1) (target : option Index)
  : length_result :=
  match target, indexer with
  | Some target, ISlice sl =>
    let l := len (ilabels target) in
    let start :=
      match start sl with
      | None => Some 0
      | Some s => if py_lt s 0 then option_map (fun v => v + l) (number s)
                  else number s
      end in
    let stop :=
      match stop sl with
      | None => Some l
      | Some s => if py_gt s l then Some l
                  else if py_lt s 0 then option_map (fun v => v + l) (number s)
                  else number s
      end in
    let step :=
      match step sl with
      | None => 1
      | Some k => if k <? 0 then Z.abs k else k
      end in
    match start, stop with
    | Some start, Some stop =>
      if step =? 0 then LengthZeroDivision
      else Length ((stop - start) / step)
    | _, _ => LengthError (Exn TypeError "unsupported operand type(s) for -")
    end
  | _, _ =>
    match indexer with
    | IArray a => Length (len a)
    | IBoolArray m => Length (len m)
    | IList l => Length (len l)
    | IInt _ | ISlice _ => Length 1
    | IDict _ =>
      LengthError (Exn AssertionError "cannot find the length of the indexer")
    end
  end.

(** ** Boolean keys that carry labels *)

(** [com.isnull] of a reindexed boolean: the label was not there. *)
Definition reindex_bools (key_index : Index) (key_values : list bool)
    (ax : Index) : list (option bool) :=
  reindex_values None (ilabels key_index) (map Some key_values) (ilabels ax).

(** [_check_bool_indexer] for a boolean Series key: boolean indexing, need
    to check that the data are aligned, otherwise disallowed. *)
Definition _check_bool_indexer_series (ax : Index) (key_index : Index)
    (key_values : list bool) : res (list bool) :=
  if negb (Index_equals key_index ax) then
    let result := reindex_bools key_index key_values ax in
    let mask := map (fun x => match x with None => true | Some _ => false end)
                    result in
    if existsb (fun b => b) mask
    then Raise (Exn IndexingError "Unalignable boolean Series key provided")
    else Ok (map (fun x => match x with Some b => b | None => false end)
                 result)
  else Ok key_values.

(** ** Keys converted to labels for a reindexing read *)

(** [_convert_for_reindex] *)
Definition _convert_for_reindex (obj : NDFrame) (key : list scalar) (axis : Z)
  : res (list scalar) :=
  labels <- _get_axis obj axis ;;
  if _is_bool_indexer (KList key) then
    let key := _check_bool_indexer labels key in
    ix' <- Index_getitem labels (IBoolArray key) ;; Ok (ilabels ix')
  else
    match as_int_array key with
    | Some keyarr =>
      if negb (_is_integer_index labels) then
        ix' <- Index_take labels keyarr ;; Ok (ilabels ix')
      else Ok (map SInt keyarr)
    | None => Ok key
    end.

(** Modelled from the spec: [obj.reindex(index=..., columns=...)], the
    object laid out on new labels along each axis given (section 1,
    [reindex_axis], one axis after the other). *)
Fixpoint reindex_axes (obj : NDFrame) (d : list (Z * list scalar))
  : res NDFrame :=
  match d with
  | [] => Ok obj
  | (axis, labels) :: d' =>
    obj' <- reindex_axis obj (Index_of labels) axis ;;
    reindex_axes obj' d'
  end.

(** [_multi_take]: create the reindex map for our objects, raise the
    _exception if we can't create the indexer.  It is called when every
    entry of the tuple is a list. *)
Definition _multi_take (self : accessor) (obj : NDFrame)
    (tup : list (list scalar)) : res value :=
  try_except
    (d <- mapM (fun at_ => labels <- _convert_for_reindex obj (snd at_)
                                       (fst at_) ;;
                           Ok (fst at_, labels))
               (zip (zrange 0 (ndim obj)) tup) ;;
     o <- reindex_axes obj d ;; Ok (VObj o))
    any_exception
    (fun _ => Raise (Exn (_exception self) "")).

(** The lists of a tuple of list keys. *)
Definition lists_of (tup : list akey) : list (list scalar) :=
  flat_map (fun k => match k with KList l => [l] | _ => [] end) tup.

(** ** Reads of a list key *)

Section Iterable.

(** The merge of the result labels and the missing labels when the axis or
    the key repeats labels and some label of the key is absent (the block
    under [if len(missing)], which rebuilds the object with
    [_reindex_with_indexers]); it is given the key array, the indexer and
    the positions of the missing labels. *)
Variable merge_missing :
  NDFrame -> Z -> list scalar -> list Z -> list Z -> res value.

(** [_getitem_iterable] *)
Definition _getitem_iterable (self : accessor) (obj : NDFrame)
    (key : list scalar) (axis : Z) : res value :=
  labels <- _get_axis obj axis ;;
  let _reindex keys :=
    o <- reindex_axis obj (Index_of keys) axis ;; Ok (VObj o) in
  if _is_bool_indexer (KList key) then
    let key := _check_bool_indexer labels key in
    let inds := nonzero key in
    o <- take obj inds axis false ;; Ok (VObj o)
  else
    let by_label keyarr :=
      let keyarr_is_unique := negb (has_dups keyarr) in
      (* existing labels are unique and indexer is unique *)
      if is_unique labels && keyarr_is_unique then _reindex keyarr
      else
        let (indexer, missing) := get_indexer_non_unique labels keyarr in
        let found := filter (fun i => negb (i =? -1)) indexer in
        result <- take obj found axis false ;;
        (* need to merge the result labels and the missing labels *)
        if negb (len missing =? 0)
        then merge_missing obj axis keyarr indexer missing
        else Ok (VObj result) in
    match as_int_array key with
    | Some keyarr =>
      let keyarr :=
        if negb (String.eqb (inferred_type labels) "integer")
        then map (fun x => if x <? 0 then len (ilabels labels) + x else x)
                 keyarr
        else keyarr in
      if String.eqb (inferred_type labels) "mixed-integer" then
        let indexer := get_indexer labels (map SInt keyarr) in
        if forallb (fun i => 0 <=? i) indexer then
          (* the rows are taken and the result is dropped *)
          _ <- take obj indexer axis true ;;
          by_label (map SInt keyarr)
        else o <- take obj keyarr axis true ;; Ok (VObj o)
      else if negb (String.eqb (inferred_type labels) "integer") then
        o <- take obj keyarr axis true ;; Ok (VObj o)
      else by_label (map SInt keyarr)
    | None => by_label key
    end.

End Iterable.

(** ** Scalar access *)

(** The two accessors of one cell: [at], by labels, and [iat], by
    positions. *)
Inductive scalar_accessor := At | iAt.

Section ScalarAccess.

(** [obj.get_value( *key )] of the host container. *)
Variable get_value : NDFrame -> list akey -> res cell.

(** [_convert_key]: the key as a list for [at]; [iat] requires integer
    args and converts them to label arguments. *)
Definition _convert_key (self : scalar_accessor) (obj : NDFrame)
    (key : list akey) : res (list akey) :=
  match self with
  | At => Ok key
  | iAt =>
    mapM (fun ai =>
            match integer_key (snd ai) with
            | None =>
              Raise (Exn ValueError
                       "iAt based indexing can only have integer indexers")
            | Some i => k <- py_getitem (ilabels (fst ai)) i ;; Ok (KScalar k)
            end)
         (zip (axes obj) key)
  end.

(** [_ScalarAccessIndexer.__getitem__] *)
Definition scalar_getitem (self : scalar_accessor) (obj : NDFrame) (key : key)
  : res cell :=
  key <- match key with
         | KTuple t => Ok t
         | K k =>
           (* we could have a convertible item here (e.g. Timestamp) *)
           if negb (_is_list_like k) then Ok [k]
           else Raise (Exn ValueError
                         "Invalid call for scalar access (getting)!")
         end ;;
  key <- _convert_key self obj key ;;
  get_value obj key.

End ScalarAccess.


(** ** Assignment to an object of mixed type *)

(** [_setitem_with_indexer] above is the method on an object that holds
    its cells in one block: [take_split_path] is false there and the
    values are set by the one call of the storage that ends the method.
    On an object of mixed type ([self.obj._is_mixed_type]) the method
    takes the split path and sets the values one item (one column of a
    two-axis object) after the other.  The attribute and the container's
    [obj[item]] and [obj[item] = s] belong to the host container, which is
    not among the sources; they are parameters. *)

Module MixedType.

Section Assignment.

Variable _is_mixed_type : NDFrame -> bool.

(** [self.obj[item]] *)
Variable getitem_item : NDFrame -> scalar -> res value.

(** [self.obj[item] = s] *)
Variable setitem_item : NDFrame -> scalar -> NDFrame -> res NDFrame.

Variable setitem : accessor -> NDFrame -> key -> rhs -> NDFrame * res unit.

(** The number [_length_of_indexer] returns, or what it raises. *)
Definition length_of (r : length_result) : res Z :=
  match r with
  | Length n => Ok n
  | LengthError e => Raise e
  | LengthZeroDivision =>
    Raise (Exn ZeroDivisionError "integer division or modulo by zero")
  end.

(** [self.obj[item].index] *)
Definition item_index (obj : NDFrame) (item : scalar) : res Index :=
  s <- getitem_item obj item ;;
  match s with
  | VCell _ => Raise (Exn AttributeError "object has no attribute 'index'")
  | VObj s => _get_axis s 0
  end.

(** [setter(item, v)] *)
Definition setter (plane_indexer : list indexer1) (lplane_indexer : Z)
    (obj : NDFrame) (item : scalar) (v : rhs) : res NDFrame :=
  s <- getitem_item obj item ;;
  pi <- (if lplane_indexer =? 1
         then i <- py_getitem plane_indexer 0 ;; Ok (I1 i)
         else Ok (ITuple plane_indexer)) ;;
  match s with
  | VCell _ => Raise (Exn AttributeError "object has no attribute '_data'")
  | VObj s =>
    (* set the item, possibly having a dtype change *)
    s <- data_setitem s pi v ;;
    setitem_item obj item s
  end.

(** [len(value)] *)
Definition value_len (value : rhs) : Z :=
  match value with
  | RScalar _ => 0
  | RList l | RSeries _ l => len l
  | RNested rows => len rows
  end.

(** [can_do_equal_len()]: return True if we have an equal len settable. *)
Definition can_do_equal_len (lplane_indexer : Z) (obj : NDFrame)
    (labels : list scalar) (value : rhs) : res bool :=
  match labels with
  | [item] =>
    let l := value_len value in
    index <- item_index obj item ;;
    (* equal len list/ndarray *)
    if len (ilabels index) =? l then Ok true
    else if lplane_indexer =? l then Ok true
    else Ok false
  | _ => Ok false
  end.

(** The entries of a list value, as [zip(labels, value)] pairs them with
    the labels. *)
Definition entries (value : rhs) : list rhs :=
  match value with
  | RScalar _ => []
  | RList l | RSeries _ l => map RScalar l
  | RNested rows => rows
  end.

(** The calls of [setter] one after the other: every call writes its item
    back to the object, and the call that raises ends the method with the
    items of the earlier calls written. *)
Fixpoint set_items (plane_indexer : list indexer1) (lplane_indexer : Z)
    (obj : NDFrame) (items : list (scalar * rhs)) : NDFrame * res unit :=
  match items with
  | [] => (obj, Ok tt)
  | (item, v) :: items' =>
    match setter plane_indexer lplane_indexer obj item v with
    | Raise e => (obj, Raise e)
    | Ok obj' => set_items plane_indexer lplane_indexer obj' items'
    end
  end.

(** The split path, on an object whose axes are single-level: what is
    computed before the first call of [setter] (the tuple of the indexer,
    the aligned value, the labels of the items, the plane indexer and its
    length, and the value of every item), then the calls. *)
Definition split_path (obj : NDFrame) (indexer : indexer) (value : rhs)
  : NDFrame * res unit :=
  let info_axis := _info_axis_number obj in
  let prepared :=
    item_labels <- _get_axis obj info_axis ;;
    indexer <- match indexer with
               | I1 i => Ok (_tuplify obj i)
               | ITuple t => Ok t
               | IMesh _ => Raise (Exn ValueError "Cross index must be 1 dimensional")
               end ;;
    value <- match value with
             | RSeries ser_index ser_values =>
               v <- _align_series obj (ITuple indexer) ser_index ser_values ;;
               Ok (RList v)
             | _ => Ok value
             end ;;
    info_idx <- py_getitem indexer info_axis ;;
    let info_idx := match info_idx with
                    | IInt p => IArray [p]
                    | _ => info_idx
                    end in
    labels <- Index_getitem item_labels info_idx ;;
    let labels := ilabels labels in
    (* if we have a partial multiindex: no, but the index of a single item
       is looked at *)
    _ <- match labels with
         | [item] => ignore (item_index obj item)
         | _ => Ok tt
         end ;;
    (* non-mi *)
    let plane_indexer := before info_axis indexer ++ after info_axis indexer in
    lplane_indexer <-
      (if 0 <? info_axis then
         plane_axis <- py_getitem (before info_axis (axes obj)) 0 ;;
         i <- py_getitem plane_indexer 0 ;;
         length_of (_length_of_indexer i (Some plane_axis))
       else Ok 0) ;;
    items <- match value with
             | RScalar _ =>
               (* scalar *)
               Ok (map (fun item => (item, value)) labels)
             | _ =>
               equal_len <- can_do_equal_len lplane_indexer obj labels value ;;
               if equal_len then
                 (* we have an equal len list/ndarray *)
                 match labels with
                 | item :: _ => Ok [(item, value)]
                 | [] => Ok []
                 end
               else
                 (* per label values *)
                 Ok (zip labels (entries value))
             end ;;
    Ok (plane_indexer, lplane_indexer, items) in
  match prepared with
  | Raise e => (obj, Raise e)
  | Ok (plane_indexer, lplane_indexer, items) =>
    set_items plane_indexer lplane_indexer obj items
  end.

(** The end of [_setitem_with_indexer]: align and set the values, on the
    split path or by the one call of the storage. *)
Definition set_values (take_split_path : bool) (obj : NDFrame)
    (indexer : indexer) (value : rhs) : NDFrame * res unit :=
  if take_split_path then split_path obj indexer value
  else set_values obj indexer value.

(** [_setitem_with_indexer]; [take_split_path] is read from the object
    before a missing key enlarges it. *)
Definition _setitem_with_indexer (self : accessor) (obj : NDFrame)
    (indexer : indexer) (value : rhs) : NDFrame * res unit :=
  match _has_valid_setitem_indexer self obj indexer with
  | Raise e => (obj, Raise e)
  | Ok _ =>
    (* maybe partial set *)
    let take_split_path := _is_mixed_type obj in
    match indexer with
    | ITuple t =>
      match enlarge_tuple setitem (ndim obj) t value obj (enumerate t) [] with
      | Returned obj' r => (obj', r)
      | Converted obj' nindexer =>
        set_values take_split_path obj' (ITuple nindexer) value
      end
    | IMesh _ =>
      (obj, Raise (Exn ValueError "Cross index must be 1 dimensional"))
    | I1 i =>
      match _convert_missing_indexer i with
      | Raise e => (obj, Raise e)
      | Ok (TheIndexer i, _) => set_values take_split_path obj (I1 i) value
      | Ok (TheKey indexer, _) =>
        (* reindex the axis to the new value and set inplace *)
        match obj with
        | Series index values =>
          let new_index :=
            if len (ilabels index) =? 0 then Index_of [indexer]
            else _safe_append_to_index index indexer in
          match concatenate_value values value with
          | Raise e => (obj, Raise e)
          | Ok new_values => (Series new_index new_values, Ok tt)
          end
        | DataFrame index _ _ =>
          let labels := _safe_append_to_index index indexer in
          match reindex_axis obj labels 0 with
          | Raise e => (obj, Raise e)
          | Ok obj' => setitem self obj' (K (KScalar indexer)) value
          end
        end
      end
    end
  end.

(** [__setitem__] *)
Definition setitem_body (self : accessor) (obj : NDFrame) (key : key)
    (value : rhs) : NDFrame * res unit :=
  match resolve_key self obj key with
  | Raise e => (obj, Raise e)
  | Ok indexer => _setitem_with_indexer self obj indexer value
  end.

End Assignment.

Fixpoint setitem_rec (_is_mixed_type : NDFrame -> bool)
    (getitem_item : NDFrame -> scalar -> res value)
    (setitem_item : NDFrame -> scalar -> NDFrame -> res NDFrame)
    (fuel : nat) (self : accessor) (obj : NDFrame) (key : key) (value : rhs)
  : NDFrame * res unit :=
  match fuel with
  | O => (obj, Raise (Exn AssertionError "maximum recursion depth exceeded"))
  | S fuel' =>
    setitem_body _is_mixed_type getitem_item setitem_item
      (setitem_rec _is_mixed_type getitem_item setitem_item fuel')
      self obj key value
  end.

Definition __setitem__ (_is_mixed_type : NDFrame -> bool)
    (getitem_item : NDFrame -> scalar -> res value)
    (setitem_item : NDFrame -> scalar -> NDFrame -> res NDFrame)
    (self : accessor) (obj : NDFrame) (key : key) (value : rhs)
  : NDFrame * res unit :=
  setitem_rec _is_mixed_type getitem_item setitem_item setitem_depth
    self obj key value.

End MixedType.

(** ** The indexer class of the one-axis container *)

(** [_SeriesIndexer] overrides the assignment of [_NDFrameIndexer].  The
    sources bind no accessor name to the class ([get_indexers_list] gives
    [ix] to [_NDFrameIndexer]); the one-axis container, which is not among
    them, may. *)

Module SeriesIndexer.

Section Assignment.

(** [self.obj._set_values(indexer, value)] of the host container. *)
Variable _set_values : NDFrame -> indexer -> rhs -> NDFrame * res unit.

Variable setitem : accessor -> NDFrame -> key -> rhs -> NDFrame * res unit.

(** [_SeriesIndexer._setitem_with_indexer] *)
Definition _setitem_with_indexer (self : accessor) (obj : NDFrame)
    (indexer : indexer) (value : rhs) : NDFrame * res unit :=
  match indexer with
  | I1 (IDict _) =>
    (* need to delegate to the super setter *)
    _setitem_with_indexer setitem self obj indexer value
  | _ =>
    (* fast access *)
    _set_values obj indexer value
  end.

End Assignment.

End SeriesIndexer.

(** ** A hierarchical label set on axis 0 *)

(** The class [MultiIndex] is not among the sources and the embedded
    [Index] has one level.  The branch of [_getitem_axis] for a
    hierarchical axis 0 (an integer key is tried as a label first) is
    embedded here, on a one-axis container whose labels are pairs. *)

Module Hierarchical.

(** Modelled from the spec: a hierarchical (multi-level) label set
    (sections 3 and 4.2), of two levels: the entry at a position is
    labelled by the pair of the outer and the inner label there. *)
Record MultiIndex := mkMultiIndex {
  outer : list scalar;
  inner : list scalar
}.

Inductive HSeries := mkHSeries (index : MultiIndex) (values : list cell).

Definition index_of (obj : HSeries) : MultiIndex :=
  match obj with mkHSeries index _ => index end.

Definition values_of (obj : HSeries) : list cell :=
  match obj with mkHSeries _ values => values end.

(** The labels of a list without their repetitions, in the order of
    their first occurrence. *)
Fixpoint distinct (l : list scalar) : list scalar :=
  match l with
  | [] => []
  | x :: l' => x :: filter (fun y => negb (scalar_eqb x y)) (distinct l')
  end.

(** [index.levels[0]]: the label set of the outer level. *)
Definition level0 (index : MultiIndex) : Index :=
  Index_of (distinct (outer index)).

(** [_is_integer_index(self.obj.index.levels[0])] *)
Definition level0_is_integer (index : MultiIndex) : bool :=
  _is_integer_index (level0 index).

(** Modelled from the spec: the inferred kind of a hierarchical label set
    (section 3); its labels are tuples, which is not the kind "integer". *)
Definition inferred_type (index : MultiIndex) : string := "mixed".

Definition _is_integer_index (index : MultiIndex) : bool :=
  String.eqb (inferred_type index) "integer".

(** Modelled from the spec: [obj._xs(label, axis=0)] on a hierarchical
    axis (sections 1 and 4.2), for a label of the outer level: the entries
    under the label, labelled by the inner level; a label that the outer
    level does not hold is [KeyNotFound]. *)
Definition _xs (obj : HSeries) (label : scalar) : res value :=
  let rows :=
    filter (fun r => scalar_eqb label (fst (fst r)))
           (combine (combine (outer (index_of obj)) (inner (index_of obj)))
                    (values_of obj)) in
  match rows with
  | [] => Raise (Exn KeyError "label not found")
  | _ => Ok (VObj (Series (Index_of (map (fun r => snd (fst r)) rows))
                          (map snd rows)))
  end.

(** [obj._ixs(i, axis=0)]: the entry at a position. *)
Definition _ixs (obj : HSeries) (key : scalar) : res value :=
  match integer_key (KScalar key) with
  | Some p => c <- py_getitem (values_of obj) p ;; Ok (VCell c)
  | None => Raise (Exn TypeError "not a position")
  end.

Definition _get_label (obj : HSeries) (label : scalar) : res value :=
  try_except (_xs obj label) any_exception (fun _ => _xs obj label).

Definition _get_loc (obj : HSeries) (key : scalar) : res value :=
  _ixs obj key.

(** [_NDFrameIndexer._getitem_axis] for a scalar key and axis 0, where
    [isinstance(labels, MultiIndex)] holds. *)
Definition _getitem_axis (obj : HSeries) (key : scalar) : res value :=
  let labels := index_of obj in
  let by_position_or_label :=
    if negb (_is_integer_index labels) then _get_loc obj key
    else _get_label obj key in
  if is_integer key then
    match _get_label obj key with
    | Ok v => Ok v
    | Raise e =>
      if either KeyError TypeError (exn_cls e) then
        if level0_is_integer (index_of obj) then Raise e
        else by_position_or_label
      else Raise e
    end
  else _get_label obj key.

End Hierarchical.

(** ** Auxiliary definitions of the further properties *)

(** Sample collaborators of an assignment to an object of mixed type,
    for the examples.  Modelled from the spec: [obj[item]] of the host
    container for a label of its info axis, the cross-section under the
    label (section 1, [xs(label, axis, copy)]). *)
Definition container_getitem (obj : NDFrame) (item : scalar) : res value :=
  _xs obj item (_info_axis_number obj) false.

(** Modelled from the spec: [obj[item] = s] of a two-axis container for a
    vector [s] with an entry for every row: the column under the label
    holds the entries of [s], a column under a new label is appended at
    the end, and every other column is kept (sections 1 and 4.4). *)
Definition container_setitem (obj : NDFrame) (item : scalar) (s : NDFrame)
  : res NDFrame :=
  match obj, s with
  | DataFrame index columns values, Series _ col =>
    if negb (len col =? len values) then
      Raise (Exn AssertionError
               "Length of values does not match length of index")
    else if contains columns item then
      Ok (DataFrame index columns
            (map (fun rc =>
                    map (fun lc => if scalar_eqb item (fst lc) then snd rc
                                   else snd lc)
                        (combine (ilabels columns) (fst rc)))
                 (combine values col)))
    else
      Ok (DataFrame index (_safe_append_to_index columns item)
            (map (fun rc => fst rc ++ [snd rc]) (combine values col)))
  | _, _ => Raise (Exn NotImplementedError "")
  end.

(** A key made of slices and lists only: no entry is a scalar. *)
Definition only_slices_and_lists (key : key) : bool :=
  match key with
  | K k => negb (_is_label_like k)
  | KTuple t => forallb (fun k => negb (_is_label_like k)) t
  end.

(** The reads of list keys as collaborators of [__getitem__]:
    [_multi_take] is called when every entry of the tuple is a list. *)
Definition multi_take (self : accessor) (obj : NDFrame) (tup : list akey)
  : res value :=
  _multi_take self obj (lists_of tup).

(** What bounds the nesting of reads: the entries of a tuple key and,
    once more, those of them that are labels. *)
Definition key_measure (key : key) : nat :=
  match key with
  | K _ => 0
  | KTuple tup => List.length tup + List.length (filter _is_label_like tup)
  end.

(** * The Excel module: pandas/io/excel.py

    The helpers of the reader and of the writers that work on strings
    and rows.  Strings are ASCII strings. *)

Module Excel.

Import Ascii.

(** ** Strings *)

Definition ord (a : Ascii.ascii) : Z := Z.of_nat (Ascii.nat_of_ascii a).

(** [str.upper] *)
Definition upper_char (a : Ascii.ascii) : Ascii.ascii :=
  let n := Ascii.nat_of_ascii a in
  if Nat.leb 97 n && Nat.leb n 122 then Ascii.ascii_of_nat (n - 32) else a.

Fixpoint upper (s : string) : string :=
  match s with
  | EmptyString => EmptyString
  | String a s' => String (upper_char a) (upper s')
  end.

(** The characters [str.strip] removes: the space and the control
    characters from the tab to the carriage return. *)
Definition is_space (a : Ascii.ascii) : bool :=
  let n := Ascii.nat_of_ascii a in
  Nat.eqb n 32 || (Nat.leb 9 n && Nat.leb n 13).

Fixpoint lstrip (s : string) : string :=
  match s with
  | EmptyString => EmptyString
  | String a s' => if is_space a then lstrip s' else s
  end.

Fixpoint rstrip (s : string) : string :=
  match s with
  | EmptyString => EmptyString
  | String a s' =>
    match rstrip s' with
    | EmptyString => if is_space a then EmptyString else String a EmptyString
    | r => String a r
    end
  end.

(** [str.strip] *)
Definition strip (s : string) : string := rstrip (lstrip s).

(** [reduce(function, sequence, initial)] over the characters of a
    string *)
Fixpoint reduce {A} (f : A -> Ascii.ascii -> A) (s : string) (initial : A)
  : A :=
  match s with
  | EmptyString => initial
  | String a s' => reduce f s' (f initial a)
  end.

(** [sep in s] for a character *)
Fixpoint contains_char (sep : Ascii.ascii) (s : string) : bool :=
  match s with
  | EmptyString => false
  | String a s' => Ascii.eqb a sep || contains_char sep s'
  end.

(** [s.split(sep)] for a separator of one character *)
Fixpoint split (sep : Ascii.ascii) (s : string) : list string :=
  match s with
  | EmptyString => [EmptyString]
  | String a s' =>
    if Ascii.eqb a sep then EmptyString :: split sep s'
    else
      match split sep s' with
      | p :: ps => String a p :: ps
      | [] => [String a EmptyString]
      end
  end.

(** [lrange(a, b)]: [list(range(a, b))] *)
Definition lrange (a b : Z) : list Z := zrange a b.

(** ** The columns to parse *)

(** Convert Excel column name like 'AB' to 0-based column index. *)
Definition _excel2num (x : string) : Z :=
  reduce (fun s a => s * 26 + ord a - ord "A"%char + 1) (strip (upper x)) 0 - 1.

(** [_range2cols]: convert comma separated list of column names and
    column ranges to a list of 0-based column indexes. *)
Definition _range2cols (areas : string) : list Z :=
  flat_map
    (fun rng =>
       if contains_char ":"%char rng then
         match split ":"%char rng with
         | r0 :: r1 :: _ => lrange (_excel2num r0) (_excel2num r1 + 1)
         | _ => []
         end
       else [_excel2num rng])
    (split ","%char areas).

(** The argument [parse_cols]: an int, a string or a list of ints. *)
Inductive parse_cols :=
| PInt (n : Z)
| PStr (s : string)
| PList (l : list Z).

(** [ExcelFile._should_parse] *)
Definition _should_parse (i : Z) (parse_cols : parse_cols) : bool :=
  match parse_cols with
  | PInt n => i <=? n
  | PStr s => existsb (Z.eqb i) (_range2cols s)
  | PList l => existsb (Z.eqb i) l
  end.

(** ** The header row *)

(** A value of a cell as the reader hands it on. *)
Inductive cell_value :=
| CNone
| CStr (s : string)
| CNum (z : Z)
| CBool (b : bool).

(** [row[0] == '' or row[0] is None] *)
Definition is_blank (v : cell_value) : bool :=
  match v with
  | CNone => true
  | CStr s => String.eqb s ""
  | _ => false
  end.

(** [_trim_excel_header]: trim header row so auto-index inference works;
    xlrd uses '', openpyxl None. *)
Fixpoint _trim_excel_header (row : list cell_value) : list cell_value :=
  match row with
  | [] => []
  | v :: row' => if is_blank v then _trim_excel_header row' else row
  end.

(** ** The writers *)

(** A writer class: its [engine] and its [supported_extensions]. *)
Record writer_class := mkWriter {
  engine : string;
  supported_extensions : list string
}.

(** [if ext.startswith('.'): ext = ext[1:]] *)
Definition without_dot (ext : string) : string :=
  match ext with
  | String "."%char ext' => ext'
  | _ => ext
  end.

(** [ExcelWriter.check_extension]: checks that path's extension against
    the Writer's supported extensions; [ext in extension] is the
    containment of strings. *)
Definition check_extension (cls : writer_class) (ext : string) : res bool :=
  let ext := without_dot ext in
  if negb (existsb (fun extension => has_substring ext extension)
             (supported_extensions cls))
  then Raise (Exn ValueError "Invalid extension for engine")
  else Ok true.

(** A dict with string keys, in the order of insertion. *)
Fixpoint dict_set {A} (d : list (string * A)) (k : string) (v : A)
  : list (string * A) :=
  match d with
  | [] => [(k, v)]
  | (k', v') :: d' =>
    if String.eqb k' k then (k, v) :: d' else (k', v') :: dict_set d' k v
  end.

Fixpoint dict_get {A} (d : list (string * A)) (k : string) : option A :=
  match d with
  | [] => None
  | (k', v') :: d' => if String.eqb k' k then Some v' else dict_get d' k
  end.

(** The state of the module: the registry [_writers] and the list
    [_writer_extensions]. *)
Record registry := mkRegistry {
  _writers : list (string * writer_class);
  _writer_extensions : list string
}.

(** What [register_writer] is given: a writer class, or something that
    cannot be called. *)
Inductive candidate :=
| Class (klass : writer_class)
| NotCallable.

Section Registry.

(** The options of [pandas.core.config], which are not embedded:
    [config.register_option(key, defval, validator=str)] changes them and
    may raise. *)
Variable config : Type.
Variable register_option : config -> string -> string -> config * res unit.

(** The loop of [register_writer] over the supported extensions. *)
Fixpoint register_extensions (engine_name : string) (exts : list string)
    (extensions : list string) (c : config)
  : list string * config * res unit :=
  match exts with
  | [] => (extensions, c, Ok tt)
  | ext :: exts' =>
    let ext := without_dot ext in
    if negb (existsb (String.eqb ext) extensions) then
      match register_option c (String.append "io.excel."
                                 (String.append ext ".writer")) engine_name with
      | (c', Ok _) =>
        register_extensions engine_name exts' (extensions ++ [ext]) c'
      | (c', Raise e) => (extensions, c', Raise e)
      end
    else register_extensions engine_name exts' extensions c
  end.

(** [register_writer]: adds engine to the excel writer registry; also
    adds config options for any new [supported_extensions] defined on
    the writer. *)
Definition register_writer (st : registry) (c : config) (klass : candidate)
  : registry * config * res unit :=
  match klass with
  | NotCallable =>
    (st, c, Raise (Exn ValueError "Can only register callables as engines"))
  | Class klass =>
    let engine_name := engine klass in
    let writers := dict_set (_writers st) engine_name klass in
    match register_extensions engine_name (supported_extensions klass)
            (_writer_extensions st) c with
    | (extensions, c', r) => (mkRegistry writers extensions, c', r)
    end
  end.

End Registry.

(** [get_writer] *)
Definition get_writer (st : registry) (engine_name : string)
  : res writer_class :=
  match dict_get (_writers st) engine_name with
  | Some klass => Ok klass
  | None => Raise (Exn ValueError "No Excel writer")
  end.

End Excel.

(** ** Auxiliary definitions of the properties of the Excel module *)

(** A letter of the alphabet, of either case. *)
Definition is_letter (a : Ascii.ascii) : bool :=
  let n := Ascii.nat_of_ascii a in
  (Nat.leb 65 n && Nat.leb n 90) || (Nat.leb 97 n && Nat.leb n 122).

(** A column name: letters only. *)
Fixpoint letters (s : string) : bool :=
  match s with
  | EmptyString => true
  | String a s' => is_letter a && letters s'
  end.
(** * Properties *)

Ltac inv H := inversion H; subst; clear H.

(** ** Lists, positions and writes *)

Lemma len_app {A} (l l' : list A) : len (l ++ l') = len l + len l'.
Proof. unfold len. rewrite length_app. lia. Qed.

Lemma len_nonneg {A} (l : list A) : 0 <= len l.
Proof. unfold len. lia. Qed.

Lemma len_cons {A} (a : A) (l : list A) : len (a :: l) = len l + 1.
Proof. unfold len. simpl List.length. lia. Qed.

Lemma enumerate_from_app {A} (l l' : list A) (p : Z) :
  enumerate_from p (l ++ l')
  = enumerate_from p l ++ enumerate_from (p + len l) l'.
Proof.
  revert p. induction l as [|a l IH]; intros p; simpl.
  - unfold len. simpl. rewrite Z.add_0_r. reflexivity.
  - rewrite IH. rewrite len_cons.
    replace (p + (len l + 1)) with (p + 1 + len l) by lia. reflexivity.
Qed.

Lemma map_snd_enumerate_from {A} (l : list A) (p : Z) :
  map snd (enumerate_from p l) = l.
Proof.
  revert p. induction l as [|a l IH]; intros p; simpl;
    [|rewrite IH]; reflexivity.
Qed.

Lemma map_const_enumerate_from {A B} (c : B) (l : list A) (p : Z) :
  map (fun _ => c) (enumerate_from p l) = map (fun _ => c) l.
Proof.
  revert p. induction l as [|a l IH]; intros p; simpl;
    [|rewrite IH]; reflexivity.
Qed.

(** A map over the numbered entries of a list, given entry by entry. *)
Lemma map_enumerate_from_ext {A B} (f g : Z * A -> B) (l : list A) (p : Z) :
  (forall i a, p <= i < p + len l -> f (i, a) = g (i, a)) ->
  map f (enumerate_from p l) = map g (enumerate_from p l).
Proof.
  revert p. induction l as [|a l IH]; intros p H; simpl.
  - reflexivity.
  - rewrite len_cons in H. f_equal.
    + apply H. pose proof (len_nonneg l). lia.
    + apply IH. intros i b Hi. apply H. lia.
Qed.

Lemma in_zrange (a b j : Z) : In j (zrange a b) <-> a <= j < b.
Proof.
  unfold zrange. rewrite in_map_iff. split.
  - intros [k [Hk Hin]]. apply in_seq in Hin. lia.
  - intros H. exists (Z.to_nat (j - a)). split; [lia|].
    apply in_seq. lia.
Qed.

(** A scalar written at a list of cells: the cell holds the scalar if it
    is one of them, and what it held otherwise. *)
Lemma assigned_scalar (c : cell) (ps : list (Z * Z)) (i j : Z) (old : cell) :
  assigned (map (fun p => (p, c)) ps) (i, j) old
  = if existsb (at_cell i j) ps then c else old.
Proof.
  unfold assigned. revert old.
  induction ps as [|p ps IH]; intros old; simpl.
  - reflexivity.
  - rewrite IH. unfold at_cell at 2. simpl.
    destruct ((fst p =? i) && (snd p =? j)); simpl.
    + destruct (existsb (at_cell i j) ps); reflexivity.
    + reflexivity.
Qed.

Lemma write_cells_scalar (c : cell) (ps : list (Z * Z))
    (values : list (list cell)) :
  write_cells (map (fun p => (p, c)) ps) values
  = map (fun ir =>
           map (fun jc => if existsb (at_cell (fst ir) (fst jc)) ps
                          then c else snd jc)
               (enumerate (snd ir)))
        (enumerate values).
Proof.
  unfold write_cells. apply map_ext. intros [i row]. apply map_ext.
  intros [j old]. apply assigned_scalar.
Qed.

Lemma existsb_at_cell_row (n i j : Z) (js : list Z) :
  existsb (at_cell i j) (map (fun j' => (n, j')) js)
  = (n =? i) && existsb (fun j' => j' =? j) js.
Proof.
  induction js as [|a js IH]; simpl.
  - rewrite andb_false_r. reflexivity.
  - rewrite IH. unfold at_cell. simpl.
    destruct (n =? i); reflexivity.
Qed.

Lemma existsb_zrange (a b j : Z) :
  existsb (fun j' => j' =? j) (zrange a b) = (a <=? j) && (j <? b).
Proof.
  destruct ((a <=? j) && (j <? b)) eqn:E.
  - apply existsb_exists. exists j. split; [|apply Z.eqb_refl].
    apply in_zrange. lia.
  - destruct (existsb (fun j' => j' =? j) (zrange a b)) eqn:E'; [|reflexivity].
    apply existsb_exists in E'. destruct E' as [x [Hin Hx]].
    apply Z.eqb_eq in Hx. subst x. apply in_zrange in Hin. lia.
Qed.


(** ** Lookups on a label set *)

Lemma scalar_eqb_refl (k : scalar) : scalar_eqb k k = true.
Proof.
  destruct k; simpl.
  - apply Z.eqb_refl.
  - apply String.eqb_refl.
  - destruct b; reflexivity.
Qed.

Lemma scalar_eqb_eq (a b : scalar) : scalar_eqb a b = true -> a = b.
Proof.
  destruct a, b; simpl; intro H; try discriminate.
  - apply Z.eqb_eq in H. congruence.
  - apply String.eqb_eq in H. congruence.
  - apply Bool.eqb_prop in H. congruence.
Qed.

Lemma scalar_eqb_sym (a b : scalar) : scalar_eqb a b = scalar_eqb b a.
Proof.
  destruct a, b; simpl; try reflexivity.
  - apply Z.eqb_sym.
  - apply String.eqb_sym.
  - destruct b0, b; reflexivity.
Qed.

Lemma labels_eqb_eq (a b : list scalar) : labels_eqb a b = true <-> a = b.
Proof.
  revert b. induction a as [|x a IH]; intros [|y b]; simpl;
    try (split; [discriminate|discriminate]); try tauto.
  rewrite andb_true_iff, IH. split.
  - intros [H1 H2]. apply scalar_eqb_eq in H1. congruence.
  - intros H. inversion H; subst. split; [apply scalar_eqb_refl|reflexivity].
Qed.

Lemma positions_from_absent (k : scalar) (l : list scalar) (p : Z) :
  existsb (scalar_eqb k) l = false -> positions_from p k l = [].
Proof.
  revert p. induction l as [|x l IH]; intros p H; simpl in *.
  - reflexivity.
  - apply orb_false_iff in H. destruct H as [Hx Hl].
    rewrite Hx. apply IH. exact Hl.
Qed.

Lemma positions_from_present (k : scalar) (l : list scalar) (p : Z) :
  existsb (scalar_eqb k) l = true -> positions_from p k l <> [].
Proof.
  revert p. induction l as [|x l IH]; intros p H; simpl in *.
  - discriminate.
  - destruct (scalar_eqb k x); [discriminate|]. apply IH. exact H.
Qed.

Lemma positions_from_app (k : scalar) (l l' : list scalar) (p : Z) :
  positions_from p k (l ++ l')
  = positions_from p k l ++ positions_from (p + len l) k l'.
Proof.
  revert p. induction l as [|x l IH]; intros p; simpl.
  - unfold len. simpl. rewrite Z.add_0_r. reflexivity.
  - replace (p + len (x :: l)) with (p + 1 + len l)
      by (unfold len; simpl List.length; lia).
    destruct (scalar_eqb k x); simpl; rewrite IH; reflexivity.
Qed.

(** An absent label is not located. *)
Lemma get_loc_absent (ax : Index) (k : scalar) :
  contains ax k = false ->
  get_loc ax k = Raise (Exn KeyError "label not found").
Proof.
  intro H. unfold get_loc, positions_of.
  rewrite positions_from_absent by exact H. reflexivity.
Qed.

Lemma get_loc_present (ax : Index) (k : scalar) :
  contains ax k = true -> exists l, get_loc ax k = Ok l.
Proof.
  intro H. unfold get_loc, positions_of.
  pose proof (positions_from_present k (ilabels ax) 0 H) as Hne.
  destruct (positions_from 0 k (ilabels ax)) as [|p [|q l]];
    [congruence|eexists; reflexivity|eexists; reflexivity].
Qed.

Lemma get_loc_raise_absent (ax : Index) (k : scalar) (e : exn) :
  get_loc ax k = Raise e -> contains ax k = false.
Proof.
  unfold get_loc, positions_of, contains. intro H.
  destruct (existsb (scalar_eqb k) (ilabels ax)) eqn:E; [|reflexivity].
  apply (positions_from_present k (ilabels ax) 0) in E.
  destruct (positions_from 0 k (ilabels ax)) as [|a [|b l]];
    [congruence|discriminate|discriminate].
Qed.

Lemma get_loc_raises_KeyError (labels : Index) (k : scalar) (e : exn) :
  get_loc labels k = Raise e -> e = Exn KeyError "label not found".
Proof.
  unfold get_loc. destruct (positions_of k (ilabels labels)) as [|p [|q l]];
    intro H; inv H. reflexivity.
Qed.

(** A label appended to a label set that did not hold it is located at
    the end, and only there. *)
Lemma positions_of_appended (k : scalar) (l : list scalar) :
  existsb (scalar_eqb k) l = false ->
  positions_of k (l ++ [k]) = [len l].
Proof.
  intro H. unfold positions_of. rewrite positions_from_app.
  rewrite positions_from_absent by exact H. simpl.
  rewrite scalar_eqb_refl. reflexivity.
Qed.

Lemma _safe_append_to_index_labels (index : Index) (key : scalar) :
  ilabels (_safe_append_to_index index key) = ilabels index ++ [key].
Proof.
  unfold _safe_append_to_index, Index_insert.
  destruct (fits_kind (inferred_type index) key); simpl.
  - unfold len. rewrite Nat2Z.id, firstn_all, skipn_all. reflexivity.
  - reflexivity.
Qed.

(** Appending an integer to an integer-labelled set keeps the kind. *)
Lemma _safe_append_to_index_integer (index : Index) (p : Z) :
  _is_integer_index index = true ->
  _is_integer_index (_safe_append_to_index index (SInt p)) = true.
Proof.
  unfold _is_integer_index, _safe_append_to_index, Index_insert, fits_kind.
  intro H. rewrite H. simpl. apply String.eqb_eq in H. rewrite H.
  reflexivity.
Qed.

(** ** Reindexing onto an enlarged axis *)

Lemma has_dups_app_absent (pre l : list scalar) (k : scalar) :
  has_dups (pre ++ k :: l) = false -> existsb (scalar_eqb k) pre = false.
Proof.
  induction pre as [|x pre IH]; simpl; intro H.
  - reflexivity.
  - apply orb_false_iff in H. destruct H as [Hx Hd].
    rewrite existsb_app in Hx. apply orb_false_iff in Hx.
    destruct Hx as [_ Hx]. simpl in Hx. apply orb_false_iff in Hx.
    destruct Hx as [Hx _]. rewrite scalar_eqb_sym, Hx. simpl.
    apply IH. exact Hd.
Qed.

Lemma find_label_first (pre l : list scalar) (k : scalar) :
  existsb (scalar_eqb k) pre = false ->
  find_label k (pre ++ k :: l) = Some (List.length pre).
Proof.
  intro H. unfold find_label, positions_of.
  rewrite positions_from_app, positions_from_absent by exact H.
  simpl. rewrite scalar_eqb_refl. unfold len. rewrite Nat2Z.id.
  reflexivity.
Qed.

Lemma find_label_absent (l : list scalar) (k : scalar) :
  existsb (scalar_eqb k) l = false -> find_label k l = None.
Proof.
  intro H. unfold find_label, positions_of.
  rewrite positions_from_absent by exact H. reflexivity.
Qed.

Lemma reindex_values_suffix {A} (fill : A) (l pre : list scalar)
    (vpre v : list A) :
  has_dups (pre ++ l) = false ->
  List.length vpre = List.length pre ->
  List.length v = List.length l ->
  map (fun k => match find_label k (pre ++ l) with
                | Some p => nth p (vpre ++ v) fill
                | None => fill
                end) l = v.
Proof.
  revert pre vpre v. induction l as [|k l IH]; intros pre vpre v Hd Hpre Hv.
  - destruct v; [reflexivity|discriminate].
  - destruct v as [|a v]; [discriminate|]. simpl. f_equal.
    + rewrite find_label_first by (eapply has_dups_app_absent; eauto).
      rewrite app_nth2 by lia. rewrite Hpre, Nat.sub_diag. reflexivity.
    + specialize (IH (pre ++ [k]) (vpre ++ [a]) v).
      rewrite <- !app_assoc in IH. simpl in IH. apply IH.
      * exact Hd.
      * rewrite !length_app. simpl. lia.
      * simpl in Hv. lia.
Qed.

(** On a unique axis enlarged by one new label the data is kept as it was
    and followed by the missing fill. *)
Lemma reindex_values_enlarged {A} (fill : A) (l : list scalar) (k : scalar)
    (values : list A) :
  has_dups l = false ->
  existsb (scalar_eqb k) l = false ->
  List.length values = List.length l ->
  reindex_values fill l values (l ++ [k]) = values ++ [fill].
Proof.
  intros Hd Hk Hlen. unfold reindex_values. rewrite map_app. f_equal.
  - apply (reindex_values_suffix fill l [] [] values); auto.
  - simpl. rewrite find_label_absent by exact Hk. reflexivity.
Qed.

(** ** Positions outside an axis *)

Lemma py_getitem_out_of_range {A} (l : list A) (p : Z) :
  len l <= p \/ p < - len l ->
  py_getitem l p = Raise (Exn IndexError "index out of bounds").
Proof.
  intro H. unfold py_getitem. pose proof (len_nonneg l).
  destruct (p <? 0) eqn:E.
  - apply Z.ltb_lt in E.
    replace (p + len l <? 0) with true by (symmetry; apply Z.ltb_lt; lia).
    reflexivity.
  - apply Z.ltb_ge in E.
    replace (len l <=? p) with true by (symmetry; apply Z.leb_le; lia).
    rewrite orb_true_r. reflexivity.
Qed.

Lemma mapM_raise_first {A B} (f : A -> res B) (a : A) (l : list A) (e : exn) :
  f a = Raise e -> mapM f (a :: l) = Raise e.
Proof. intro H. simpl. rewrite H. reflexivity. Qed.

Lemma position_out_of_range (obj : NDFrame) (axis : Z) (labels : Index)
    (p : Z) :
  _get_axis obj axis = Ok labels ->
  well_formed obj = true ->
  len (ilabels labels) <= p \/ p < - len (ilabels labels) ->
  exists er, _ixs obj (KScalar (SInt p)) axis = Raise er /\
             exn_cls er = IndexError.
Proof.
  intros Hax Hwf Hp.
  destruct obj as [index values|index columns values]; simpl in Hwf.
  - assert (axis = 0 /\ labels = index) as [-> ->].
    { unfold _get_axis in Hax. simpl in Hax.
      destruct (Z.to_nat axis) as [|[|n]] eqn:E; simpl in Hax;
        try discriminate.
      destruct (axis <? 0) eqn:E'; inversion Hax.
      apply Z.ltb_ge in E'. split; [lia|reflexivity]. }
    apply Nat.eqb_eq in Hwf.
    simpl. rewrite py_getitem_out_of_range.
    + eexists; split; reflexivity.
    + unfold len in *. rewrite Hwf. exact Hp.
  - apply andb_true_iff in Hwf. destruct Hwf as [Hrows Hcols].
    apply Nat.eqb_eq in Hrows.
    unfold _get_axis in Hax. simpl in Hax.
    destruct (Z.to_nat axis) as [|[|[|n]]] eqn:E; simpl in Hax;
      try discriminate;
      destruct (axis <? 0) eqn:E'; inversion Hax; subst labels;
      apply Z.ltb_ge in E'.
    + replace axis with 0 by lia. simpl.
      rewrite py_getitem_out_of_range.
      * eexists; split; reflexivity.
      * unfold len in *. rewrite Hrows. exact Hp.
    + replace axis with 1 by lia. simpl.
      destruct values as [|row values].
      * simpl. rewrite py_getitem_out_of_range by exact Hp.
        eexists; split; reflexivity.
      * simpl in Hcols. apply andb_true_iff in Hcols.
        destruct Hcols as [Hrow _]. apply Nat.eqb_eq in Hrow.
        rewrite (mapM_raise_first _ row values
                   (Exn IndexError "index out of bounds")).
        -- eexists; split; reflexivity.
        -- apply py_getitem_out_of_range. unfold len in *.
           rewrite Hrow. exact Hp.
Qed.

Lemma as_int_array_not_bool (l : list scalar) (a : list Z) :
  as_int_array l = Some a -> _is_bool_indexer (KList l) = false.
Proof.
  unfold as_int_array, _is_bool_indexer.
  destruct l as [|x l]; [reflexivity|].
  destruct (forallb (fun x => is_int x || is_bool x) (x :: l)
            && existsb is_int (x :: l)) eqn:E; [|discriminate].
  intros _. apply andb_true_iff in E. destruct E as [_ E].
  apply existsb_exists in E. destruct E as [y [Hin Hy]].
  destruct (forallb is_bool (x :: l)) eqn:F; [|reflexivity].
  rewrite forallb_forall in F. specialize (F y Hin).
  destruct y; discriminate.
Qed.

Lemma _maybe_convert_indices_out_of_bounds (a : list Z) (n p : Z) :
  0 <= n -> In p a -> n <= p \/ p < - n ->
  _maybe_convert_indices a n = Raise (Exn IndexError "indices are out-of-bounds").
Proof.
  intros Hn Hin Hp. unfold _maybe_convert_indices.
  replace (existsb _ _) with true; [reflexivity|].
  symmetry. apply existsb_exists.
  exists (if p <? 0 then p + n else p). split.
  - apply in_map_iff. exists p. split; [reflexivity|exact Hin].
  - destruct (p <? 0) eqn:E.
    + apply Z.ltb_lt in E. apply orb_true_iff. right. apply Z.ltb_lt. lia.
    + apply Z.ltb_ge in E. apply orb_true_iff. left. apply Z.leb_le. lia.
Qed.

(** ** The resolver on a scalar key *)

(** A label read turns a failed lookup into the lookup's error. *)
Lemma _get_label_raise (obj : NDFrame) (k : scalar) (axis : Z) (labels : Index)
    (e : exn) :
  _get_axis obj axis = Ok labels ->
  get_loc labels k = Raise e ->
  _get_label obj k axis = Raise e.
Proof.
  intros Hax Hloc. unfold _get_label, _xs.
  rewrite Hax. simpl. rewrite Hloc. reflexivity.
Qed.

(** A label read of a label that occurs once is the read of its position. *)
Lemma _get_label_pos (obj : NDFrame) (k : scalar) (axis : Z) (labels : Index)
    (q : Z) (v : value) :
  _get_axis obj axis = Ok labels ->
  get_loc labels k = Ok (LocPos q) ->
  _ixs obj (KScalar (SInt q)) axis = Ok v ->
  _get_label obj k axis = Ok v.
Proof.
  intros Hax Hloc Hv. unfold _get_label, _xs.
  rewrite Hax. cbn [bind]. rewrite Hloc. cbn [bind]. rewrite Hv. reflexivity.
Qed.

(** The key is looked up as a label: it is not an integer on an axis that
    is not integer-labelled. *)
Lemma resolver_absent_key (self : accessor) (obj : NDFrame) (axis : Z)
    (labels : Index) (k : scalar) (is_setter : bool) :
  self <> iloc ->
  _get_axis obj axis = Ok labels ->
  is_integer k && negb (_is_integer_index labels) = false ->
  contains labels k = false ->
  _convert_to_indexer self obj (KScalar k) axis is_setter
  = if is_setter then Ok (IDict k)
    else Raise (Exn KeyError "label not found").
Proof.
  intros Hself Hax Hlook Habs.
  assert (H : _convert_to_indexer self obj (KScalar k) axis is_setter
              = NDFrameIndexer._convert_to_indexer obj (KScalar k) axis
                  is_setter)
    by (destruct self; try reflexivity; congruence).
  rewrite H. unfold NDFrameIndexer._convert_to_indexer.
  rewrite Hax. cbn [bind get_loc_key].
  rewrite (get_loc_absent _ _ Habs). cbn.
  destruct k as [p| |]; cbn in *.
  - rewrite Hlook. destruct is_setter; reflexivity.
  - destruct is_setter; reflexivity.
  - rewrite Hlook. destruct is_setter; reflexivity.
Qed.

Lemma resolver_present_key (self : accessor) (obj : NDFrame) (axis : Z)
    (labels : Index) (k : scalar) (l : location) (is_setter : bool) :
  self <> iloc ->
  _get_axis obj axis = Ok labels ->
  is_integer k && negb (_is_integer_index labels) = false ->
  get_loc labels k = Ok l ->
  _convert_to_indexer self obj (KScalar k) axis is_setter
  = Ok (indexer_of_location l).
Proof.
  intros Hself Hax Hlook Hl.
  assert (H : _convert_to_indexer self obj (KScalar k) axis is_setter
              = NDFrameIndexer._convert_to_indexer obj (KScalar k) axis
                  is_setter)
    by (destruct self; try reflexivity; congruence).
  rewrite H. unfold NDFrameIndexer._convert_to_indexer.
  rewrite Hax. cbn [bind get_loc_key]. rewrite Hl.
  destruct k as [p| |]; cbn in *; try reflexivity;
    rewrite Hlook; reflexivity.
Qed.

(** ** C1: the integer tie-break of the legacy-mixed accessor *)

(** On a hierarchical axis 0 the label read of a scalar is the
    cross-section under the scalar, or the error of the cross-section. *)
Lemma hierarchical_get_label (hs : Hierarchical.HSeries) (k : scalar) :
  Hierarchical._get_label hs k = Hierarchical._xs hs k.
Proof.
  unfold Hierarchical._get_label.
  destruct (Hierarchical._xs hs k) as [v|e]; reflexivity.
Qed.

Lemma hierarchical_xs_raises_KeyError (hs : Hierarchical.HSeries) (k : scalar)
    (e : exn) :
  Hierarchical._xs hs k = Raise e -> e = Exn KeyError "label not found".
Proof.
  unfold Hierarchical._xs.
  destruct (filter _ _); intro H; inversion H. reflexivity.
Qed.

(** C1 (as amended).  For a scalar integer key resolved by [ix] on one
    axis whose label set has a single level: on an axis whose inferred
    kind is not integer the key is a position, both for the resolver and
    for the read; on an integer-labelled axis the key is looked up as a
    label, so an absent label is a KeyError whatever the axis holds at
    that position.  On the axis [10, 20, 30] the read of key 1 raises
    KeyError although position 1 exists.  On a hierarchical axis 0, whose
    kind is not integer, the read tries the key as a label of the outer
    level first: when the label is there the read is the read of the
    label; when it is not, the KeyError is raised if the outer level is
    integer-labelled, and the key is read as a position otherwise. *)
Theorem C1_integer_key_position_or_label
    (gv : NDFrame -> list akey -> res cell)
    (gi : accessor -> NDFrame -> list scalar -> Z -> res value)
    (mt : accessor -> NDFrame -> list akey -> res value)
    (obj : NDFrame) (axis : Z) (labels : Index) (p : Z) :
  _get_axis obj axis = Ok labels ->
  (_is_integer_index labels = false ->
     (forall is_setter,
        _convert_to_indexer ix obj (KScalar (SInt p)) axis is_setter
        = Ok (IInt p)) /\
     _getitem_axis gi ix obj (KScalar (SInt p)) axis
     = _ixs obj (KScalar (SInt p)) axis) /\
  (_is_integer_index labels = true ->
     (forall e, get_loc labels (SInt p) = Raise e ->
        exn_cls e = KeyError /\
        _convert_to_indexer ix obj (KScalar (SInt p)) axis false = Raise e /\
        _getitem_axis gi ix obj (KScalar (SInt p)) axis = Raise e) /\
     (forall l, get_loc labels (SInt p) = Ok l ->
        forall is_setter,
          _convert_to_indexer ix obj (KScalar (SInt p)) axis is_setter
          = Ok (indexer_of_location l)) /\
     (forall q, get_loc labels (SInt p) = Ok (LocPos q) ->
        _getitem_axis gi ix obj (KScalar (SInt p)) axis
        = _ixs obj (KScalar (SInt q)) axis)) /\
  (forall v0 v1 v2,
     let s := Series (Index_of [SInt 10; SInt 20; SInt 30]) [v0; v1; v2] in
     __getitem__ gv gi mt ix s (K (KScalar (SInt 1)))
     = Raise (Exn KeyError "label not found") /\
     _ixs s (KScalar (SInt 1)) 0 = Ok (VCell v1)) /\
  (forall (hs : Hierarchical.HSeries) (k : Z),
     Hierarchical._is_integer_index (Hierarchical.index_of hs) = false /\
     (forall v, Hierarchical._xs hs (SInt k) = Ok v ->
        Hierarchical._getitem_axis hs (SInt k) = Ok v) /\
     (forall e, Hierarchical._xs hs (SInt k) = Raise e ->
        exn_cls e = KeyError /\
        (Hierarchical.level0_is_integer (Hierarchical.index_of hs) = true ->
           Hierarchical._getitem_axis hs (SInt k) = Raise e) /\
        (Hierarchical.level0_is_integer (Hierarchical.index_of hs) = false ->
           Hierarchical._getitem_axis hs (SInt k)
           = Hierarchical._ixs hs (SInt k)))).
Proof.
  intros Hax. split; [|split; [|split]].
  - intros Hint. split.
    + intros is_setter. unfold _convert_to_indexer,
        NDFrameIndexer._convert_to_indexer.
      rewrite Hax. simpl. rewrite Hint. reflexivity.
    + unfold _getitem_axis. rewrite Hax. simpl. rewrite Hint. reflexivity.
  - intros Hint. split; [|split].
    + intros e He. pose proof (get_loc_raises_KeyError _ _ _ He) as ->.
      split; [reflexivity|]. split.
      * unfold _convert_to_indexer, NDFrameIndexer._convert_to_indexer.
        rewrite Hax. simpl. rewrite Hint. simpl. rewrite He. reflexivity.
      * unfold _getitem_axis. rewrite Hax. simpl. rewrite Hint. simpl.
        eapply _get_label_raise; eauto.
    + intros l Hl is_setter.
      unfold _convert_to_indexer, NDFrameIndexer._convert_to_indexer.
      rewrite Hax. simpl. rewrite Hint. simpl. rewrite Hl. reflexivity.
    + intros q Hq. unfold _getitem_axis. rewrite Hax.
      cbn [bind is_integer andb]. rewrite Hint. cbn [negb].
      unfold _get_label, _xs. rewrite Hax. cbn [bind]. rewrite Hq.
      cbn [bind]. destruct (_ixs obj (KScalar (SInt q)) axis); reflexivity.
  - intros v0 v1 v2 s. split; reflexivity.
  - intros hs k. split; [reflexivity|]. split.
    + intros v Hv. unfold Hierarchical._getitem_axis. cbn [is_integer].
      rewrite hierarchical_get_label, Hv. reflexivity.
    + intros e He.
      pose proof (hierarchical_xs_raises_KeyError _ _ _ He) as ->.
      split; [reflexivity|]. split; intro Hlevel;
        unfold Hierarchical._getitem_axis; cbn [is_integer];
        rewrite hierarchical_get_label, He;
        cbn [exn_cls either exn_class_eqb orb]; rewrite Hlevel; reflexivity.
Qed.

Lemma C1_witness :
  let s := Series (Index_of [SStr "a"; SStr "b"; SStr "c"])
                  [Num 1; Num 2; Num 3] in
  _getitem_axis no_getitem_iterable ix s (KScalar (SInt 1)) 0
  = Ok (VCell (Num 2)).
Proof.
  intros s.
  destruct (C1_integer_key_position_or_label no_get_value no_getitem_iterable
              no_multi_take s 0 (Index_of [SStr "a"; SStr "b"; SStr "c"]) 1
              eq_refl) as [H _].
  destruct (H eq_refl) as [_ H2]. rewrite H2. reflexivity.
Defined.

(** A one-axis object whose axis is hierarchical, with the outer labels 1,
    1, 2: the kind of the axis is not integer, yet the read of key 1 is
    not the entry at position 1 but the two entries under the outer label
    1, and the read of key 0, which is no outer label, raises KeyError
    although position 0 exists. *)
Lemma C1_counterexample :
  let hs := Hierarchical.mkHSeries
              (Hierarchical.mkMultiIndex [SInt 1; SInt 1; SInt 2]
                 [SStr "a"; SStr "b"; SStr "a"])
              [Num 10; Num 20; Num 30] in
  Hierarchical._is_integer_index (Hierarchical.index_of hs) = false /\
  Hierarchical._ixs hs (SInt 1) = Ok (VCell (Num 20)) /\
  Hierarchical._getitem_axis hs (SInt 1)
  = Ok (VObj (Series (Index_of [SStr "a"; SStr "b"]) [Num 10; Num 20])) /\
  Hierarchical._ixs hs (SInt 0) = Ok (VCell (Num 10)) /\
  Hierarchical._getitem_axis hs (SInt 0)
  = Raise (Exn KeyError "label not found").
Proof.
  intro hs. repeat split.
Qed.

(** ** C2: failure of an assignment *)

Lemma enlarge_tuple_no_missing
    (rec : accessor -> NDFrame -> key -> rhs -> NDFrame * res unit)
    (self_ndim : Z) (indexer : list indexer1) (value : rhs) (obj : NDFrame)
    (rest : list (Z * indexer1)) (nindexer : list indexer1) :
  existsb is_dict (map snd rest) = false ->
  enlarge_tuple rec self_ndim indexer value obj rest nindexer
  = Converted obj (nindexer ++ map snd rest).
Proof.
  revert nindexer. induction rest as [|[i idx] rest IH]; intros nindexer H.
  - simpl. rewrite app_nil_r. reflexivity.
  - simpl in H. apply orb_false_iff in H. destruct H as [Hidx Hrest].
    simpl. destruct idx; try discriminate;
      rewrite IH by exact Hrest; rewrite <- app_assoc; reflexivity.
Qed.

(** Without a missing key the assignment is the validity gate followed by
    the write to the storage. *)
Lemma _setitem_with_indexer_no_missing
    (rec : accessor -> NDFrame -> key -> rhs -> NDFrame * res unit)
    (self : accessor) (obj : NDFrame) (indexer : indexer) (value : rhs) :
  has_missing indexer = false ->
  match indexer with IMesh _ => False | _ => True end ->
  _setitem_with_indexer rec self obj indexer value
  = match _has_valid_setitem_indexer self obj indexer with
    | Raise e => (obj, Raise e)
    | Ok _ => set_values obj indexer value
    end.
Proof.
  intros H Hmesh. unfold _setitem_with_indexer.
  destruct (_has_valid_setitem_indexer self obj indexer); [|reflexivity].
  destruct indexer as [i|t|arrays].
  - destruct i; try discriminate; reflexivity.
  - simpl in H. rewrite enlarge_tuple_no_missing.
    + unfold enumerate. rewrite map_snd_enumerate_from. reflexivity.
    + unfold enumerate. rewrite map_snd_enumerate_from. exact H.
  - contradiction.
Qed.

Lemma set_values_failure (obj : NDFrame) (indexer : indexer) (value : rhs)
    (obj' : NDFrame) (e : exn) :
  set_values obj indexer value = (obj', Raise e) -> obj' = obj.
Proof.
  unfold set_values.
  destruct (bind _ _); intro H; inversion H. reflexivity.
Qed.

Lemma _setitem_with_indexer_failure
    (rec : accessor -> NDFrame -> key -> rhs -> NDFrame * res unit)
    (self : accessor) (obj : NDFrame) (indexer : indexer) (value : rhs)
    (obj' : NDFrame) (e : exn) :
  has_missing indexer = false ->
  _setitem_with_indexer rec self obj indexer value = (obj', Raise e) ->
  obj' = obj.
Proof.
  intros Hm H. destruct indexer as [i|t|arrays].
  - rewrite _setitem_with_indexer_no_missing in H by (auto; exact I).
    destruct (_has_valid_setitem_indexer self obj (I1 i)).
    + eapply set_values_failure; eauto.
    + inversion H. reflexivity.
  - rewrite _setitem_with_indexer_no_missing in H by (auto; exact I).
    destruct (_has_valid_setitem_indexer self obj (ITuple t)).
    + eapply set_values_failure; eauto.
    + inversion H. reflexivity.
  - unfold _setitem_with_indexer in H.
    destruct (_has_valid_setitem_indexer self obj (IMesh arrays));
      inversion H; reflexivity.
Qed.

(** Without a missing key the assignment to an object of either kind is
    the validity gate followed by the values being set, on the split path
    or by the one call of the storage. *)
Lemma mixed_setitem_with_indexer_no_missing
    (mixed : NDFrame -> bool)
    (gi : NDFrame -> scalar -> res value)
    (si : NDFrame -> scalar -> NDFrame -> res NDFrame)
    (rec : accessor -> NDFrame -> key -> rhs -> NDFrame * res unit)
    (self : accessor) (obj : NDFrame) (indexer : indexer) (value : rhs) :
  has_missing indexer = false ->
  match indexer with IMesh _ => False | _ => True end ->
  MixedType._setitem_with_indexer mixed gi si rec self obj indexer value
  = match _has_valid_setitem_indexer self obj indexer with
    | Raise e => (obj, Raise e)
    | Ok _ => MixedType.set_values gi si (mixed obj) obj indexer value
    end.
Proof.
  intros H Hmesh. unfold MixedType._setitem_with_indexer.
  destruct (_has_valid_setitem_indexer self obj indexer); [|reflexivity].
  destruct indexer as [i|t|arrays].
  - destruct i; try discriminate; reflexivity.
  - simpl in H. rewrite enlarge_tuple_no_missing.
    + unfold enumerate. rewrite map_snd_enumerate_from. reflexivity.
    + unfold enumerate. rewrite map_snd_enumerate_from. exact H.
  - contradiction.
Qed.

(** Where no object is of mixed type the method with both paths is the
    method of the single block. *)
Lemma mixed_type_never
    (mixed : NDFrame -> bool)
    (gi : NDFrame -> scalar -> res value)
    (si : NDFrame -> scalar -> NDFrame -> res NDFrame) :
  (forall o, mixed o = false) ->
  forall fuel self obj key value,
    MixedType.setitem_rec mixed gi si fuel self obj key value
    = setitem_rec fuel self obj key value.
Proof.
  intros Hmixed. induction fuel as [|fuel IH];
    intros self obj key value; [reflexivity|].
  cbn [MixedType.setitem_rec setitem_rec].
  unfold MixedType.setitem_body, setitem_body.
  destruct (resolve_key self obj key) as [indexer|e]; [|reflexivity].
  unfold MixedType._setitem_with_indexer, _setitem_with_indexer.
  destruct (_has_valid_setitem_indexer self obj indexer); [|reflexivity].
  rewrite Hmixed. unfold MixedType.set_values.
  destruct indexer as [i|t|arrays]; [| |reflexivity].
  - destruct (_convert_missing_indexer i) as [[[k|i'] b]|e]; try reflexivity.
    destruct obj as [index values|index columns values]; [reflexivity|].
    destruct (reindex_axis _ _ 0) as [obj'|e]; [|reflexivity].
    apply IH.
  - assert (E : forall rest o n,
               enlarge_tuple (MixedType.setitem_rec mixed gi si fuel)
                 (ndim obj) t value o rest n
               = enlarge_tuple (setitem_rec fuel) (ndim obj) t value o rest n).
    { induction rest as [|[i idx] rest IHr]; intros o n; [reflexivity|].
      cbn [enlarge_tuple].
      destruct idx as [p0|sl0|a0|m0|l0|k0]; try apply IHr.
      destruct (_convert_missing_indexer (IDict k0)) as [[[k'|i'] b]|e];
        try reflexivity.
      destruct ((1 <? ndim obj) && (i =? _info_axis_number o)).
      - destruct (setitem_nan o k') as [o'|e]; [|reflexivity].
        rewrite IH. reflexivity.
      - destruct (_get_axis o i) as [index|e]; [|reflexivity].
        destruct (reindex_axis o _ i) as [o'|e]; [|reflexivity].
        destruct (get_loc _ k') as [l|e]; [|reflexivity].
        apply IHr. }
    rewrite E. reflexivity.
Qed.

(** On a target that is not of mixed type, a key that resolves with no
    missing entry is assigned by the one call of the storage. *)
Lemma mixed_assignment_without_a_missing_key
    (mixed : NDFrame -> bool)
    (gi : NDFrame -> scalar -> res value)
    (si : NDFrame -> scalar -> NDFrame -> res NDFrame)
    (self : accessor) (obj : NDFrame) (key : key) (value : rhs) :
  (forall indexer, resolve_key self obj key = Ok indexer ->
     has_missing indexer = false /\
     match indexer with IMesh _ => False | _ => True end) ->
  mixed obj = false ->
  MixedType.__setitem__ mixed gi si self obj key value
  = __setitem__ self obj key value.
Proof.
  intros Hres Hmixed.
  unfold MixedType.__setitem__, __setitem__, setitem_depth.
  cbn [MixedType.setitem_rec setitem_rec].
  unfold MixedType.setitem_body at 1. unfold setitem_body at 1.
  destruct (resolve_key self obj key) as [indexer|e] eqn:E; [|reflexivity].
  destruct (Hres indexer eq_refl) as [Hmiss Hmesh].
  rewrite mixed_setitem_with_indexer_no_missing by assumption.
  rewrite _setitem_with_indexer_no_missing by assumption.
  rewrite Hmixed. reflexivity.
Qed.

(** C2 (as amended).  An assignment call that fails leaves the axes and
    the values of its target exactly as they were in these cases: the
    resolution of the key fails; the validity gate of the accessor refuses
    the indexer; the single key is a bool that was not found; or the key
    resolves to an indexer without a missing key and the target is not of
    mixed type, so that its values are set by the one call of the storage
    at the end of the method.  (Not covered: a call that fails after a
    missing key enlarged an axis, for nothing undoes the enlargement, and
    a call on a target of mixed type, which is written one column after
    the other.) *)
Theorem C2_failure_before_the_first_write_keeps_target
    (mixed : NDFrame -> bool)
    (gi : NDFrame -> scalar -> res value)
    (si : NDFrame -> scalar -> NDFrame -> res NDFrame)
    (self : accessor) (obj : NDFrame) (key : key) (value : rhs)
    (obj' : NDFrame) (e : exn) :
  MixedType.__setitem__ mixed gi si self obj key value = (obj', Raise e) ->
  ((forall indexer, resolve_key self obj key = Ok indexer ->
      has_missing indexer = false /\ mixed obj = false) ->
   obj' = obj) /\
  ((forall indexer, resolve_key self obj key = Ok indexer ->
      exists e', _has_valid_setitem_indexer self obj indexer = Raise e') ->
   obj' = obj) /\
  (forall b, resolve_key self obj key = Ok (I1 (IDict (SBool b))) ->
     obj' = obj).
Proof.
  unfold MixedType.__setitem__, setitem_depth. cbn [MixedType.setitem_rec].
  unfold MixedType.setitem_body at 1. intros H.
  split; [|split].
  - intros Hres.
    destruct (resolve_key self obj key) as [indexer|e'];
      [|inversion H; reflexivity].
    destruct (Hres indexer eq_refl) as [Hm Hmixed].
    destruct indexer as [i|t|arrays].
    + rewrite mixed_setitem_with_indexer_no_missing in H by (auto; exact I).
      rewrite Hmixed in H. unfold MixedType.set_values in H.
      destruct (_has_valid_setitem_indexer self obj (I1 i)).
      * eapply set_values_failure; eauto.
      * inversion H. reflexivity.
    + rewrite mixed_setitem_with_indexer_no_missing in H by (auto; exact I).
      rewrite Hmixed in H. unfold MixedType.set_values in H.
      destruct (_has_valid_setitem_indexer self obj (ITuple t)).
      * eapply set_values_failure; eauto.
      * inversion H. reflexivity.
    + unfold MixedType._setitem_with_indexer in H.
      destruct (_has_valid_setitem_indexer self obj (IMesh arrays));
        inversion H; reflexivity.
  - intros Hres.
    destruct (resolve_key self obj key) as [indexer|e'];
      [|inversion H; reflexivity].
    destruct (Hres indexer eq_refl) as [e' He'].
    unfold MixedType._setitem_with_indexer in H. rewrite He' in H.
    inversion H. reflexivity.
  - intros b Hres. rewrite Hres in H.
    unfold MixedType._setitem_with_indexer in H.
    destruct (_has_valid_setitem_indexer self obj (I1 (IDict (SBool b))));
      inversion H; reflexivity.
Qed.

(** The rows at the positions 0 and 7 of a table of two rows that is not
    of mixed type: the storage refuses position 7 and the table is as it
    was. *)
Lemma C2_witness :
  let df := DataFrame (Index_of [SStr "r0"; SStr "r1"])
              (Index_of [SStr "A"; SStr "B"])
              [[Num 1; Num 2]; [Num 3; Num 4]] in
  let key := KTuple [KList [SInt 0; SInt 7]; KSlice _NS] in
  MixedType.__setitem__ (fun _ => false) container_getitem container_setitem
    ix df key (RScalar (Num 9))
  = (df, Raise (Exn IndexError "index out of bounds")) /\
  fst (MixedType.__setitem__ (fun _ => false) container_getitem
         container_setitem ix df key (RScalar (Num 9))) = df.
Proof.
  intros df key. split; [reflexivity|].
  destruct (C2_failure_before_the_first_write_keeps_target (fun _ => false)
              container_getitem container_setitem ix df key (RScalar (Num 9))
              (fst (MixedType.__setitem__ (fun _ => false) container_getitem
                      container_setitem ix df key (RScalar (Num 9))))
              (Exn IndexError "index out of bounds") eq_refl) as [H _].
  apply H.
  intros indexer Hi. vm_compute in Hi. inversion Hi. split; reflexivity.
Defined.

(** The key [('new', True)] on a table with the columns 10 and 20: the
    row axis is enlarged for the missing label 'new', then the bool key of
    the second axis is rejected; the call fails and the new row, filled
    with the missing value, stays. *)
Lemma C2_counterexample :
  let df := DataFrame (Index_of [SStr "r0"; SStr "r1"])
              (Index_of [SInt 10; SInt 20])
              [[Num 1; Num 2]; [Num 3; Num 4]] in
  __setitem__ ix df (KTuple [KScalar (SStr "new"); KScalar (SBool true)])
    (RScalar (Num 9))
  = (DataFrame (Index_of [SStr "r0"; SStr "r1"; SStr "new"])
       (Index_of [SInt 10; SInt 20])
       [[Num 1; Num 2]; [Num 3; Num 4]; [NaN; NaN]],
     Raise (Exn KeyError "cannot use a single bool to index into setitem")) /\
  fst (__setitem__ ix df
         (KTuple [KScalar (SStr "new"); KScalar (SBool true)])
         (RScalar (Num 9))) <> df.
Proof.
  intro df. split; [reflexivity|]. vm_compute. discriminate.
Qed.

(** ** Enlargement of a one-axis object *)

Lemma setitem_with_missing_key_Series (self : accessor) (index : Index)
    (values : list cell) (k : scalar) (c : cell)
    (rec : accessor -> NDFrame -> key -> rhs -> NDFrame * res unit) :
  self <> iloc ->
  is_bool k = false ->
  exists index',
    _setitem_with_indexer rec self (Series index values) (I1 (IDict k))
      (RScalar c)
    = (Series index' (values ++ [c]), Ok tt) /\
    ilabels index' = ilabels index ++ [k].
Proof.
  intros Hself Hbool.
  unfold _setitem_with_indexer.
  replace (_has_valid_setitem_indexer self (Series index values)
             (I1 (IDict k))) with (Ok (A:=bool) true)
    by (destruct self; try reflexivity; congruence).
  cbn. rewrite Hbool. cbn.
  eexists. split; [reflexivity|].
  destruct (len (ilabels index) =? 0) eqn:E.
  - apply Z.eqb_eq in E. unfold len in E.
    destruct (ilabels index); [reflexivity|discriminate].
  - apply _safe_append_to_index_labels.
Qed.

(** ** C5: the position-only accessor never enlarges *)

Lemma axes_nonempty (obj : NDFrame) :
  exists ax rest, axes obj = ax :: rest /\ _get_axis obj 0 = Ok ax.
Proof.
  destruct obj as [index values|index columns values]; simpl;
    eexists; eexists; split; reflexivity.
Qed.

(** C5 (as amended).  A write through [iloc] whose key is an integer
    position at or beyond the end of its axis raises IndexError "iloc
    cannot enlarge its target object" and leaves the target as it was: for
    a single key on axis 0, and for a pair of integer keys on a two-axis
    object when either is beyond its axis.  A scalar key that is not an
    integer (a label) is refused as well and nothing is written, but by
    the type gate of the accessor, with a ValueError. *)
Theorem C5_iloc_cannot_enlarge (obj : NDFrame) (value : rhs) :
  (forall ax p,
     _get_axis obj 0 = Ok ax -> len (ilabels ax) <= p ->
     __setitem__ iloc obj (K (KScalar (SInt p))) value
     = (obj, Raise (Exn IndexError "iloc cannot enlarge its target object"))) /\
  (forall index columns values p q,
     obj = DataFrame index columns values ->
     len (ilabels index) <= p \/ len (ilabels columns) <= q ->
     __setitem__ iloc obj (KTuple [KScalar (SInt p); KScalar (SInt q)]) value
     = (obj, Raise (Exn IndexError "iloc cannot enlarge its target object"))) /\
  (forall k,
     is_integer k = false ->
     __setitem__ iloc obj (K (KScalar k)) value
     = (obj, Raise iLocIndexer.location_error)).
Proof.
  split; [|split].
  - intros ax p Hax Hp.
    destruct (axes_nonempty obj) as [ax' [rest [Haxes Hax']]].
    rewrite Hax in Hax'. inversion Hax'; subst ax'.
    unfold __setitem__, setitem_depth. cbn [setitem_rec].
    unfold setitem_body, resolve_key. cbn.
    unfold _setitem_with_indexer. cbn.
    unfold _tuplify. rewrite Haxes. cbn.
    replace (len (ilabels ax) <=? p) with true
      by (symmetry; apply Z.leb_le; exact Hp).
    reflexivity.
  - intros index columns values p q -> Hpq.
    unfold __setitem__, setitem_depth. cbn [setitem_rec].
    unfold setitem_body, resolve_key. cbn.
    unfold _setitem_with_indexer. cbn.
    destruct (len (ilabels index) <=? p) eqn:Ep; [reflexivity|].
    replace (len (ilabels columns) <=? q) with true; [reflexivity|].
    symmetry. apply Z.leb_le. apply Z.leb_gt in Ep. lia.
  - intros k Hk.
    unfold __setitem__, setitem_depth. cbn [setitem_rec].
    unfold setitem_body, resolve_key. cbn.
    destruct k; try discriminate; reflexivity.
Qed.

Lemma C5_witness :
  let s := Series (Index_of [SStr "a"; SStr "b"; SStr "c"])
                  [Num 1; Num 2; Num 3] in
  __setitem__ iloc s (K (KScalar (SInt 3))) (RScalar (Num 9))
  = (s, Raise (Exn IndexError "iloc cannot enlarge its target object")).
Proof.
  intro s.
  destruct (C5_iloc_cannot_enlarge s (RScalar (Num 9))) as [H _].
  apply (H (Index_of [SStr "a"; SStr "b"; SStr "c"]) 3).
  - reflexivity.
  - vm_compute. discriminate.
Defined.

(** The label 'z' is not in the axis; the write of key 'z' through [iloc]
    is refused with a ValueError, not with the IndexError of an
    enlargement. *)
Lemma C5_counterexample :
  let index := Index_of [SStr "a"; SStr "b"; SStr "c"] in
  let s := Series index [Num 1; Num 2; Num 3] in
  contains index (SStr "z") = false /\
  __setitem__ iloc s (K (KScalar (SStr "z"))) (RScalar (Num 9))
  = (s, Raise iLocIndexer.location_error) /\
  snd (__setitem__ iloc s (K (KScalar (SStr "z"))) (RScalar (Num 9)))
  <> Raise (Exn IndexError "iloc cannot enlarge its target object").
Proof.
  intros index s. repeat split. vm_compute. discriminate.
Qed.

(** ** C7: position slices of the position-only accessor *)

Lemma zrange_step_1 (s e : Z) : zrange_step s e 1 = zrange s e.
Proof.
  unfold zrange_step, zrange. cbn [Z.ltb Z.compare].
  replace ((e - s + 1 - 1) / 1) with (e - s) by (rewrite Z.div_1_r; lia).
  apply map_ext. intros k. lia.
Qed.

(** The positions of a slice whose bounds lie on the axis. *)
Lemma slice_positions_in_range (s e n : Z) (stp : option Z) :
  stp = None \/ stp = Some 1 ->
  0 <= s <= n -> 0 <= e <= n ->
  slice_positions (mkSlice (Some (SInt s)) (Some (SInt e)) stp) n
  = Ok (zrange s e).
Proof.
  intros Hstp Hs He. unfold slice_positions. cbn [start stop step slice_bound bind].
  assert (Hstep : match stp with Some k => k | None => 1 end = 1)
    by (destruct Hstp; subst; reflexivity).
  rewrite Hstep. cbn [Z.eqb Z.ltb Z.compare].
  replace (s <? 0) with false by (symmetry; apply Z.ltb_ge; lia).
  replace (e <? 0) with false by (symmetry; apply Z.ltb_ge; lia).
  rewrite !Z.min_l by lia. rewrite zrange_step_1. reflexivity.
Qed.

(** The positions of a slice of step 1, whatever its bounds. *)
Lemma slice_positions_clamped (s e n : Z) (stp : option Z) :
  stp = None \/ stp = Some 1 ->
  slice_positions (mkSlice (Some (SInt s)) (Some (SInt e)) stp) n
  = Ok (zrange (clamp_bound n s) (clamp_bound n e)).
Proof.
  intros Hstp. unfold slice_positions. cbn [start stop step slice_bound bind].
  assert (Hstep : match stp with Some k => k | None => 1 end = 1)
    by (destruct Hstp; subst; reflexivity).
  rewrite Hstep. cbn [Z.eqb Z.ltb Z.compare].
  rewrite zrange_step_1. reflexivity.
Qed.

Lemma clamp_bound_range (n v : Z) : 0 <= n -> 0 <= clamp_bound n v <= n.
Proof.
  intro Hn. unfold clamp_bound.
  destruct (v <? 0) eqn:E; [apply Z.ltb_lt in E|apply Z.ltb_ge in E]; lia.
Qed.

Lemma clamp_bound_nonneg (n v : Z) : 0 <= v -> clamp_bound n v = Z.min v n.
Proof.
  intro Hv. unfold clamp_bound.
  replace (v <? 0) with false by (symmetry; apply Z.ltb_ge; lia).
  reflexivity.
Qed.

Lemma iloc_slice_read
    (gi : accessor -> NDFrame -> list scalar -> Z -> res value)
    (obj : NDFrame) (axis : Z) (labels : Index) (s e : Z) (stp : option Z) :
  _get_axis obj axis = Ok labels ->
  _getitem_axis gi iloc obj
    (KSlice (mkSlice (Some (SInt s)) (Some (SInt e)) stp)) axis
  = (ps <- slice_positions (mkSlice (Some (SInt s)) (Some (SInt e)) stp)
             (len (ilabels labels)) ;;
     o <- take obj ps axis false ;; Ok (VObj o)).
Proof.
  intro Hax. unfold _getitem_axis, _has_valid_type. cbn [bind].
  unfold _get_slice_axis, _need_slice. cbn [start is_none negb orb].
  unfold slice_result, _slice. rewrite Hax. cbn [bind].
  destruct (slice_positions _ _); reflexivity.
Qed.

(** A sequence has an entry at every position below its length. *)
Lemma py_getitem_in_range {A} (l : list A) (i : Z) :
  0 <= i < len l -> exists a, py_getitem l i = Ok a.
Proof.
  intro Hi. unfold py_getitem.
  replace (i <? 0) with false by (symmetry; apply Z.ltb_ge; lia).
  replace (i <? 0) with false by (symmetry; apply Z.ltb_ge; lia).
  replace (len l <=? i) with false by (symmetry; apply Z.leb_gt; lia).
  cbn [orb].
  destruct (nth_error l (Z.to_nat i)) as [a|] eqn:E.
  - exists a. reflexivity.
  - apply nth_error_None in E. unfold len in Hi. lia.
Qed.

Lemma mapM_total {A B} (f : A -> res B) (l : list A) :
  (forall x, In x l -> exists y, f x = Ok y) ->
  exists l', mapM f l = Ok l'.
Proof.
  induction l as [|a l IH]; intro H.
  - exists []. reflexivity.
  - destruct (H a (or_introl eq_refl)) as [y Hy].
    destruct IH as [l' Hl']; [intros x Hx; apply H; right; exact Hx|].
    exists (y :: l'). simpl. rewrite Hy. cbn [bind]. rewrite Hl'. reflexivity.
Qed.

(** The storage takes every list of positions that lie on the axis. *)
Lemma take_in_range (obj : NDFrame) (axis : Z) (labels : Index)
    (ps : list Z) :
  _get_axis obj axis = Ok labels ->
  well_formed obj = true ->
  (forall p, In p ps -> 0 <= p < len (ilabels labels)) ->
  exists o, take obj ps axis false = Ok o.
Proof.
  intros Hax Hwf Hps. unfold take. rewrite Hax. cbn [bind].
  destruct (mapM_total (py_getitem (ilabels labels)) ps) as [l Hl].
  { intros p Hp. apply py_getitem_in_range. apply Hps. exact Hp. }
  unfold Index_take. rewrite Hl. cbn [bind].
  destruct obj as [index values|index columns values]; simpl in Hwf.
  - assert (labels = index) as ->.
    { unfold _get_axis in Hax. simpl in Hax.
      destruct (Z.to_nat axis) as [|[|n]]; simpl in Hax; try discriminate.
      destruct (axis <? 0); inversion Hax. reflexivity. }
    apply Nat.eqb_eq in Hwf.
    destruct (mapM_total (py_getitem values) ps) as [vs Hvs].
    { intros p Hp. apply py_getitem_in_range. unfold len in *.
      rewrite Hwf. apply Hps. exact Hp. }
    rewrite Hvs. eexists. reflexivity.
  - apply andb_true_iff in Hwf. destruct Hwf as [Hrows Hcols].
    apply Nat.eqb_eq in Hrows.
    unfold _get_axis in Hax. simpl in Hax.
    destruct (Z.to_nat axis) as [|[|[|n]]] eqn:E; simpl in Hax;
      try discriminate;
      destruct (axis <? 0) eqn:E'; inversion Hax; subst labels;
      apply Z.ltb_ge in E'.
    + replace axis with 0 by lia. cbn [Z.eqb].
      destruct (mapM_total (py_getitem values) ps) as [vs Hvs].
      { intros p Hp. apply py_getitem_in_range. unfold len in *.
        rewrite Hrows. apply Hps. exact Hp. }
      rewrite Hvs. eexists. reflexivity.
    + replace axis with 1 by lia. cbn [Z.eqb].
      destruct (mapM_total (fun row => mapM (py_getitem row) ps) values)
        as [vs Hvs].
      { intros row Hrow. apply mapM_total. intros p Hp.
        apply py_getitem_in_range.
        rewrite forallb_forall in Hcols. specialize (Hcols row Hrow).
        apply Nat.eqb_eq in Hcols. unfold len in *. rewrite Hcols.
        apply Hps. exact Hp. }
      rewrite Hvs. eexists. reflexivity.
Qed.

(** C7.  Under [iloc] a position slice (s, e) with step 1 selects the
    positions from s up to e - 1, the stop excluded, after each bound was
    clamped to the axis (a negative bound counts from the end first): for
    bounds on the axis these are exactly s, s+1, ..., e-1, and for a bound
    beyond the end of the axis the end of the axis stands in for it.  The
    read of a slice never raises on an object with one entry per label.
    A scalar position outside the axis and a list that holds such a
    position are errors: the read raises IndexError. *)
Theorem C7_iloc_slice_exclusive_stop_and_bounds
    (gi : accessor -> NDFrame -> list scalar -> Z -> res value)
    (obj : NDFrame) (axis : Z) (labels : Index) (s e : Z) (stp : option Z) :
  _get_axis obj axis = Ok labels ->
  stp = None \/ stp = Some 1 ->
  let n := len (ilabels labels) in
  let key := KSlice (mkSlice (Some (SInt s)) (Some (SInt e)) stp) in
  _getitem_axis gi iloc obj key axis
  = (o <- take obj (zrange (clamp_bound n s) (clamp_bound n e)) axis false ;;
     Ok (VObj o)) /\
  (0 <= s <= n -> 0 <= e <= n ->
     _getitem_axis gi iloc obj key axis
     = (o <- take obj (zrange s e) axis false ;; Ok (VObj o))) /\
  (0 <= s -> 0 <= e ->
     _getitem_axis gi iloc obj key axis
     = (o <- take obj (zrange (Z.min s n) (Z.min e n)) axis false ;;
        Ok (VObj o))) /\
  (well_formed obj = true ->
     exists o, _getitem_axis gi iloc obj key axis = Ok (VObj o)) /\
  (forall p, well_formed obj = true -> n <= p \/ p < - n ->
     exists er, _getitem_axis gi iloc obj (KScalar (SInt p)) axis = Raise er /\
                exn_cls er = IndexError) /\
  (forall l a p, as_int_array l = Some a -> In p a -> n <= p \/ p < - n ->
     _getitem_axis gi iloc obj (KList l) axis
     = Raise (Exn IndexError "indices are out-of-bounds")).
Proof.
  intros Hax Hstp n key. subst key.
  pose proof (len_nonneg (ilabels labels)) as Hn. fold n in Hn.
  assert (Hread :
    _getitem_axis gi iloc obj
      (KSlice (mkSlice (Some (SInt s)) (Some (SInt e)) stp)) axis
    = (o <- take obj (zrange (clamp_bound n s) (clamp_bound n e)) axis false ;;
       Ok (VObj o))).
  { rewrite (iloc_slice_read gi obj axis labels) by exact Hax.
    rewrite slice_positions_clamped by exact Hstp. reflexivity. }
  split; [exact Hread|].
  split; [|split; [|split; [|split]]].
  - intros Hs He. rewrite Hread.
    rewrite !clamp_bound_nonneg by lia. rewrite !Z.min_l by lia.
    reflexivity.
  - intros Hs He. rewrite Hread.
    rewrite !clamp_bound_nonneg by lia. reflexivity.
  - intros Hwf. rewrite Hread.
    destruct (take_in_range obj axis labels
                (zrange (clamp_bound n s) (clamp_bound n e)) Hax Hwf)
      as [o Ho].
    + intros p Hp. apply in_zrange in Hp.
      pose proof (clamp_bound_range n s Hn).
      pose proof (clamp_bound_range n e Hn). fold n. lia.
    + exists o. rewrite Ho. reflexivity.
  - intros p Hwf Hp. unfold _getitem_axis. cbn [is_integer orb negb].
    unfold _get_loc. apply (position_out_of_range obj axis labels p Hax Hwf).
    exact Hp.
  - intros l a p Ha Hin Hp. unfold _getitem_axis.
    replace (_is_bool_indexer (KList l)) with false
      by (symmetry; eapply as_int_array_not_bool; eauto).
    unfold _get_loc, _ixs. rewrite Ha.
    destruct l as [|x l]; [discriminate|].
    unfold take. rewrite Hax. cbn [bind]. fold n.
    rewrite (_maybe_convert_indices_out_of_bounds a n p) by assumption.
    reflexivity.
Qed.

(** On an axis of three labels the slice 1:10 reads the positions 1 and 2,
    and the scalar position 10 is an error. *)
Lemma C7_witness :
  let index := Index_of [SStr "a"; SStr "b"; SStr "c"] in
  let s := Series index [Num 1; Num 2; Num 3] in
  _getitem_axis no_getitem_iterable iloc s
    (KSlice (mkSlice (Some (SInt 1)) (Some (SInt 10)) None)) 0
  = Ok (VObj (Series (mkIndex [SStr "b"; SStr "c"] "string") [Num 2; Num 3])) /\
  exists er,
    _getitem_axis no_getitem_iterable iloc s (KScalar (SInt 10)) 0 = Raise er /\
    exn_cls er = IndexError.
Proof.
  intros index s.
  destruct (C7_iloc_slice_exclusive_stop_and_bounds no_getitem_iterable
              s 0 index 1 10 None eq_refl (or_introl eq_refl))
    as [H [_ [_ [_ [Hp _]]]]].
  split.
  - rewrite H. reflexivity.
  - apply Hp; [reflexivity|]. left. vm_compute. discriminate.
Defined.

(** ** C8: slices over an axis of mixed labels *)

Lemma mixed_is_not_integer (ltype : string) :
  has_substring "mixed" ltype = true ->
  String.eqb ltype "integer" = false /\ String.eqb ltype "floating" = false.
Proof.
  intro H. split.
  - destruct (String.eqb ltype "integer") eqn:E; [|reflexivity].
    apply String.eqb_eq in E. subst. vm_compute in H. discriminate.
  - destruct (String.eqb ltype "floating") eqn:E; [|reflexivity].
    apply String.eqb_eq in E. subst. vm_compute in H. discriminate.
Qed.

Lemma lookup_bound_found (labels : Index) (v : option scalar) :
  bound_found labels v = true ->
  match v with
  | Some s => ignore (get_loc labels s)
  | None => Ok tt
  end = Ok tt.
Proof.
  destruct v as [k|]; simpl; [|reflexivity].
  intro H. destruct (get_loc_present labels k H) as [l Hl].
  unfold ignore. rewrite Hl. reflexivity.
Qed.

Lemma lookup_bound_not_found (labels : Index) (v : option scalar) :
  bound_found labels v = false ->
  match v with
  | Some s => ignore (get_loc labels s)
  | None => Ok tt
  end = Raise (Exn KeyError "label not found").
Proof.
  destruct v as [k|]; simpl; [|discriminate].
  intro H. unfold ignore. rewrite get_loc_absent by exact H. reflexivity.
Qed.

Lemma slice_indexer_found (labels : Index) (a b : option scalar)
    (stp : option Z) :
  bound_found labels a = true -> bound_found labels b = true ->
  exists sl, slice_indexer labels a b stp = Ok sl.
Proof.
  intros Ha Hb. unfold slice_indexer.
  assert (Hs : exists s,
             match a with
             | None => Ok 0
             | Some k => match positions_of k (ilabels labels) with
                         | p :: _ => Ok p
                         | [] => Raise (Exn KeyError "label not found")
                         end
             end = Ok s).
  { destruct a as [k|]; [|eexists; reflexivity]. simpl in Ha.
    pose proof (positions_from_present k (ilabels labels) 0 Ha) as Hne.
    unfold positions_of. destruct (positions_from 0 k (ilabels labels));
      [congruence|eexists; reflexivity]. }
  destruct Hs as [s Hs]. rewrite Hs. cbn [bind].
  assert (He : exists e,
             match b with
             | None => Ok (len (ilabels labels))
             | Some k => match rev (positions_of k (ilabels labels)) with
                         | p :: _ => Ok (p + 1)
                         | [] => Raise (Exn KeyError "label not found")
                         end
             end = Ok e).
  { destruct b as [k|]; [|eexists; reflexivity]. simpl in Hb.
    pose proof (positions_from_present k (ilabels labels) 0 Hb) as Hne.
    unfold positions_of.
    destruct (rev (positions_from 0 k (ilabels labels))) eqn:E;
      [|eexists; reflexivity].
    exfalso. apply Hne. rewrite <- (rev_involutive (positions_from 0 k _)).
    rewrite E. reflexivity. }
  destruct He as [e He]. rewrite He. cbn [bind]. eexists; reflexivity.
Qed.

(** C8 (as amended).  A slice with integer bounds over an axis whose
    inferred kind is one of the mixed kinds: the resolver looks up the
    bounds that are not None as labels, the start first.  If every one of
    them is a label of the axis, the whole slice is resolved by the label
    set's own slicing (label semantics).  If one of them is not, the whole
    slice as it was given is taken by position, the bound that was found
    included; on an axis of kind 'mixed-integer-float' the failed lookup is
    raised as a KeyError instead.  The resolver and the read classify the
    slice the same way. *)
Theorem C8_mixed_axis_integer_slice
    (obj : NDFrame) (axis : Z) (labels : Index) (sl : slice) :
  _get_axis obj axis = Ok labels ->
  has_substring "mixed" (inferred_type labels) = true ->
  _is_index_slice sl = true ->
  (bound_found labels (start sl) = true ->
   bound_found labels (stop sl) = true ->
   convert_slice labels sl
   = slice_indexer labels (start sl) (stop sl) (step sl) /\
   exists sl', convert_slice labels sl = Ok sl') /\
  (bound_found labels (start sl) = false \/
   bound_found labels (stop sl) = false ->
   (String.eqb (inferred_type labels) "mixed-integer-float" = false ->
    convert_slice labels sl = Ok sl) /\
   (String.eqb (inferred_type labels) "mixed-integer-float" = true ->
    convert_slice labels sl = Raise (Exn KeyError "label not found"))) /\
  (forall is_setter,
     _convert_to_indexer ix obj (KSlice sl) axis is_setter
     = (sl' <- convert_slice labels sl ;; Ok (ISlice sl'))) /\
  _get_slice_axis ix obj sl axis
  = (sl' <- convert_slice labels sl ;; slice_result obj sl' axis false).
Proof.
  intros Hax Hmixed Hint.
  destruct (mixed_is_not_integer _ Hmixed) as [Hni Hnf].
  assert (Hnn : is_none (start sl) && is_none (stop sl) = false).
  { unfold _is_index_slice, slice_test in Hint.
    apply andb_true_iff in Hint. destruct Hint as [H _].
    apply negb_true_iff in H. exact H. }
  split; [|split; [|split]].
  - intros Hs He.
    assert (Heq : convert_slice labels sl
                  = slice_indexer labels (start sl) (stop sl) (step sl)).
    { unfold convert_slice. rewrite Hint, Hni, Hnf, Hmixed. cbn [andb negb].
      rewrite (lookup_bound_found _ _ Hs), (lookup_bound_found _ _ He).
      cbn [bind try_except]. rewrite Hnn. cbn [orb].
      destruct (slice_indexer_found labels (start sl) (stop sl) (step sl)
                  Hs He) as [sl' Hsl'].
      rewrite Hsl'. reflexivity. }
    split; [exact Heq|]. rewrite Heq.
    apply slice_indexer_found; assumption.
  - intros Hfail. unfold convert_slice.
    rewrite Hint, Hni, Hnf, Hmixed. cbn [andb negb].
    assert (Hlook :
              (_ <- match start sl with
                    | Some s => ignore (get_loc labels s)
                    | None => Ok tt
                    end ;;
               _ <- match stop sl with
                    | Some s => ignore (get_loc labels s)
                    | None => Ok tt
                    end ;;
               Ok false) = Raise (Exn KeyError "label not found")).
    { destruct (bound_found labels (start sl)) eqn:Es.
      - rewrite (lookup_bound_found _ _ Es). cbn [bind].
        destruct Hfail as [Hf|Hf]; [discriminate|].
        rewrite (lookup_bound_not_found _ _ Hf). reflexivity.
      - rewrite (lookup_bound_not_found _ _ Es). reflexivity. }
    rewrite Hlook. cbn [try_except only exn_cls exn_class_eqb].
    split; intro Hf; rewrite Hf; cbn [bind]; [|reflexivity].
    rewrite orb_true_r. reflexivity.
  - intros is_setter. unfold _convert_to_indexer,
      NDFrameIndexer._convert_to_indexer.
    rewrite Hax. reflexivity.
  - unfold _get_slice_axis.
    replace (_need_slice sl) with true.
    + rewrite Hax. reflexivity.
    + symmetry. unfold _need_slice.
      destruct (start sl), (stop sl); try reflexivity. discriminate.
Qed.

Lemma C8_witness :
  let labels := Index_of [SInt 2; SStr "a"; SInt 0; SStr "b"] in
  convert_slice labels (mkSlice (Some (SInt 0)) (Some (SInt 2)) None)
  = Ok (mkSlice (Some (SInt 2)) (Some (SInt 1)) None).
Proof.
  intro labels.
  destruct (C8_mixed_axis_integer_slice
              (Series labels [Num 1; Num 2; Num 3; Num 4]) 0 labels
              (mkSlice (Some (SInt 0)) (Some (SInt 2)) None)
              eq_refl eq_refl eq_refl) as [H _].
  destruct (H eq_refl eq_refl) as [Heq _]. rewrite Heq. reflexivity.
Defined.

(** On the axis [1, a, b, c] the start of the slice 1:3 is a label, at
    position 0, and the stop is not.  The slice is not resolved from the
    label 1: both bounds are taken as positions and the read returns the
    rows at positions 1 and 2. *)
Lemma C8_counterexample :
  let labels := Index_of [SInt 1; SStr "a"; SStr "b"; SStr "c"] in
  let s := Series labels [Num 10; Num 20; Num 30; Num 40] in
  let sl := mkSlice (Some (SInt 1)) (Some (SInt 3)) None in
  inferred_type labels = "mixed-integer" /\
  get_loc labels (SInt 1) = Ok (LocPos 0) /\
  get_loc labels (SInt 3) = Raise (Exn KeyError "label not found") /\
  _convert_to_indexer ix s (KSlice sl) 0 false = Ok (ISlice sl) /\
  __getitem__ no_get_value no_getitem_iterable no_multi_take ix s
    (K (KSlice sl))
  = Ok (VObj (Series (mkIndex [SStr "a"; SStr "b"] "mixed-integer")
                     [Num 20; Num 30])).
Proof.
  intros labels s sl. repeat split.
Qed.

(** ** C9: lowering a tuple to a cell *)

Lemma getitem_rec_S
    (gv : NDFrame -> list akey -> res cell)
    (gi : accessor -> NDFrame -> list scalar -> Z -> res value)
    (mt : accessor -> NDFrame -> list akey -> res value) (fuel : nat) :
  getitem_rec gv gi mt (S fuel)
  = getitem_body gv gi mt (getitem_rec gv gi mt fuel).
Proof. reflexivity. Qed.

(** The lowering of a pair of keys whose first entry reads a row: the
    second entry is read on that row. *)
Lemma lowerdim_row_then_entry
    (gi : accessor -> NDFrame -> list scalar -> Z -> res value)
    (rec : accessor -> NDFrame -> key -> res value)
    (obj : NDFrame) (k0 k1 : scalar) (columns : Index) (row : list cell)
    (v : value) :
  ndim obj = 2 ->
  _getitem_axis gi ix obj (KScalar k0) 0 = Ok (VObj (Series columns row)) ->
  rec ix (Series columns row) (K (KScalar k1)) = Ok v ->
  _getitem_lowerdim gi rec ix obj [KScalar k0; KScalar k1] = Ok v.
Proof.
  intros Hdim Hsec Hrec. unfold _getitem_lowerdim. rewrite Hdim.
  cbn [len List.length Z.of_nat Pos.of_succ_nat Pos.succ Z.ltb
       Z.compare Pos.compare Pos.compare_cont enumerate enumerate_from
       _getitem_lowerdim_loop _is_label_like _is_list_like negb].
  rewrite Hsec. cbn [bind ndim]. rewrite Hdim.
  cbn [Z.eqb before after firstn skipn
       Z.to_nat Z.add Pos.to_nat Pos.iter_op Nat.add app].
  exact Hrec.
Qed.

(** A read through [ix] of a pair of scalar keys that the lowering turns
    into a cell: the scalar fast path answers when it succeeds, the
    lowering otherwise. *)
Lemma pair_read_is_a_cell
    (gv : NDFrame -> list akey -> res cell)
    (gi : accessor -> NDFrame -> list scalar -> Z -> res value)
    (mt : accessor -> NDFrame -> list akey -> res value)
    (obj : NDFrame) (k0 k1 : scalar) (columns : Index) (row : list cell)
    (v : cell) :
  ndim obj = 2 ->
  _getitem_axis gi ix obj (KScalar k0) 0 = Ok (VObj (Series columns row)) ->
  _getitem_axis gi ix (Series columns row) (KScalar k1) 0 = Ok (VCell v) ->
  let tup := [KScalar k0; KScalar k1] in
  (exists x, __getitem__ gv gi mt ix obj (KTuple tup) = Ok (VCell x)) /\
  (forall e, gv obj tup = Raise e ->
     __getitem__ gv gi mt ix obj (KTuple tup) = Ok (VCell v)) /\
  _getitem_lowerdim gi (__getitem__ gv gi mt) ix obj tup = Ok (VCell v).
Proof.
  intros Hdim Hsec Hcell tup.
  assert (Hrec : forall fuel,
             getitem_rec gv gi mt (S fuel) ix (Series columns row)
               (K (KScalar k1)) = Ok (VCell v))
    by (intro fuel; exact Hcell).
  assert (Htup : forall e, gv obj tup = Raise e ->
             __getitem__ gv gi mt ix obj (KTuple tup) = Ok (VCell v)).
  { intros e He. unfold __getitem__, key_size, tup.
    cbn [List.length Nat.mul Nat.add]. rewrite getitem_rec_S.
    unfold getitem_body. fold tup. rewrite He. unfold _getitem_tuple.
    unfold tup.
    rewrite (lowerdim_row_then_entry gi _ obj k0 k1 columns row (VCell v)
               Hdim Hsec (Hrec 4%nat)).
    reflexivity. }
  split; [|split].
  - destruct (gv obj tup) as [x|e] eqn:E.
    + exists x. unfold __getitem__, key_size, tup.
      cbn [List.length Nat.mul Nat.add]. rewrite getitem_rec_S.
      unfold getitem_body. fold tup. rewrite E. reflexivity.
    + exists v. apply (Htup e). reflexivity.
  - exact Htup.
  - apply (lowerdim_row_then_entry gi _ obj k0 k1 columns row (VCell v)
             Hdim Hsec).
    exact Hcell.
Qed.

(** C9.  A tuple key of two entries over a two-axis object, read through
    [ix], of which one entry is an integer that is a position on its axis
    and the other a label that occurs once on the other axis, in either
    order: the position on axis 0 with the label on axis 1, or the label on
    axis 0 with the position on axis 1.  The read returns one cell, not a
    Series of one entry.  The cell comes from the scalar fast path when
    that succeeds, and from the lowering otherwise: the row the first
    entry selects, then the entry of that row the second entry selects. *)
Theorem C9_tuple_of_position_and_label_reads_a_cell
    (gv : NDFrame -> list akey -> res cell)
    (gi : accessor -> NDFrame -> list scalar -> Z -> res value)
    (mt : accessor -> NDFrame -> list akey -> res value)
    (index columns : Index) (values : list (list cell)) :
  let obj := DataFrame index columns values in
  (forall (i : Z) (c : scalar) (row : list cell) (j : Z) (v : cell),
     _is_integer_index index = false ->
     is_integer c && negb (_is_integer_index columns) = false ->
     py_getitem values i = Ok row ->
     get_loc columns c = Ok (LocPos j) ->
     py_getitem row j = Ok v ->
     let tup := [KScalar (SInt i); KScalar c] in
     (exists x, __getitem__ gv gi mt ix obj (KTuple tup) = Ok (VCell x)) /\
     (forall e, gv obj tup = Raise e ->
        __getitem__ gv gi mt ix obj (KTuple tup) = Ok (VCell v)) /\
     _getitem_lowerdim gi (__getitem__ gv gi mt) ix obj tup = Ok (VCell v)) /\
  (forall (r : scalar) (q : Z) (i : Z) (row : list cell) (v : cell),
     is_integer r && negb (_is_integer_index index) = false ->
     _is_integer_index columns = false ->
     get_loc index r = Ok (LocPos i) ->
     py_getitem values i = Ok row ->
     py_getitem row q = Ok v ->
     let tup := [KScalar r; KScalar (SInt q)] in
     (exists x, __getitem__ gv gi mt ix obj (KTuple tup) = Ok (VCell x)) /\
     (forall e, gv obj tup = Raise e ->
        __getitem__ gv gi mt ix obj (KTuple tup) = Ok (VCell v)) /\
     _getitem_lowerdim gi (__getitem__ gv gi mt) ix obj tup = Ok (VCell v)).
Proof.
  intro obj. split.
  - intros i c row j v Hindex Hc Hrow Hloc Hv.
    apply (pair_read_is_a_cell gv gi mt obj (SInt i) c columns row v).
    + reflexivity.
    + unfold _getitem_axis, obj. cbn [_get_axis axes nth_error Z.to_nat Z.ltb
        Z.compare bind is_integer andb]. rewrite Hindex. cbn [negb].
      unfold _get_loc, _ixs, _ixs_integer. cbn [integer_key Z.eqb].
      rewrite Hrow. reflexivity.
    + unfold _getitem_axis. cbn [_get_axis axes nth_error Z.to_nat Z.ltb
        Z.compare bind]. rewrite Hc.
      apply (_get_label_pos (Series columns row) c 0 columns j (VCell v)).
      * reflexivity.
      * exact Hloc.
      * unfold _ixs, _ixs_integer. cbn [integer_key]. rewrite Hv.
        reflexivity.
  - intros r q i row v Hr Hcolumns Hloc Hrow Hv.
    apply (pair_read_is_a_cell gv gi mt obj r (SInt q) columns row v).
    + reflexivity.
    + unfold _getitem_axis, obj. cbn [_get_axis axes nth_error Z.to_nat Z.ltb
        Z.compare bind]. rewrite Hr.
      apply (_get_label_pos (DataFrame index columns values) r 0 index i
               (VObj (Series columns row))).
      * reflexivity.
      * exact Hloc.
      * unfold _ixs, _ixs_integer. cbn [integer_key Z.eqb]. rewrite Hrow.
        reflexivity.
    + unfold _getitem_axis. cbn [_get_axis axes nth_error Z.to_nat Z.ltb
        Z.compare bind is_integer andb]. rewrite Hcolumns. cbn [negb].
      unfold _get_loc, _ixs, _ixs_integer. cbn [integer_key].
      rewrite Hv. reflexivity.
Qed.

(** The keys (5, 'B') and ('r5', 1) on a table of six rows and the columns
    A and B read the same cell. *)
Lemma C9_witness :
  let df := DataFrame
              (Index_of [SStr "r0"; SStr "r1"; SStr "r2"; SStr "r3";
                         SStr "r4"; SStr "r5"])
              (Index_of [SStr "A"; SStr "B"])
              [[Num 1; Num 2]; [Num 3; Num 4]; [Num 5; Num 6];
               [Num 7; Num 8]; [Num 9; Num 10]; [Num 11; Num 12]] in
  __getitem__ no_get_value no_getitem_iterable no_multi_take ix df
    (KTuple [KScalar (SInt 5); KScalar (SStr "B")])
  = Ok (VCell (Num 12)) /\
  __getitem__ no_get_value no_getitem_iterable no_multi_take ix df
    (KTuple [KScalar (SStr "r5"); KScalar (SInt 1)])
  = Ok (VCell (Num 12)).
Proof.
  intro df.
  destruct (C9_tuple_of_position_and_label_reads_a_cell
              no_get_value no_getitem_iterable no_multi_take
              (Index_of [SStr "r0"; SStr "r1"; SStr "r2"; SStr "r3";
                         SStr "r4"; SStr "r5"])
              (Index_of [SStr "A"; SStr "B"])
              [[Num 1; Num 2]; [Num 3; Num 4]; [Num 5; Num 6];
               [Num 7; Num 8]; [Num 9; Num 10]; [Num 11; Num 12]])
    as [H1 H2].
  split.
  - destruct (H1 5 (SStr "B") [Num 11; Num 12] 1 (Num 12)
                eq_refl eq_refl eq_refl eq_refl eq_refl) as [_ [H _]].
    apply (H (Exn KeyError "not a cell")). reflexivity.
  - destruct (H2 (SStr "r5") 1 5 [Num 11; Num 12] (Num 12)
                eq_refl eq_refl eq_refl eq_refl eq_refl) as [_ [H _]].
    apply (H (Exn KeyError "not a cell")). reflexivity.
Defined.

(** ** C10: lists on every axis of a setter *)

Lemma mapM_norm_pos (n : Z) (l : list Z) :
  Forall (fun p => 0 <= p < n) l -> mapM (norm_pos n) l = Ok l.
Proof.
  induction 1 as [|p l Hp Hl IH]; simpl.
  - reflexivity.
  - unfold norm_pos at 1.
    replace (p <? 0) with false by (symmetry; apply Z.ltb_ge; lia).
    replace (p <? 0) with false by (symmetry; apply Z.ltb_ge; lia).
    replace (n <=? p) with false by (symmetry; apply Z.leb_gt; lia).
    cbn [orb bind]. rewrite IH. reflexivity.
Qed.

(** The cells of an open mesh are every combination of a row position
    with a column position. *)
Lemma existsb_product (i j : Z) (rs cs : list Z) :
  existsb (at_cell i j) (List.concat (product rs cs))
  = existsb (fun p => p =? i) rs && existsb (fun q => q =? j) cs.
Proof.
  unfold product. induction rs as [|a rs IH]; simpl.
  - reflexivity.
  - rewrite existsb_app, IH, existsb_at_cell_row.
    destruct (a =? i); simpl; [|reflexivity].
    destruct (existsb (fun q => q =? j) cs); simpl; [reflexivity|].
    rewrite andb_false_r. reflexivity.
Qed.

(** C10.  An assignment through [ix] whose tuple key holds a list on each
    of the two axes: the two arrays of positions the lists resolve to are
    made into the open mesh of [np.ix_], and the scalar is written at every
    combination of a position of the first with a position of the second;
    every other cell keeps its value. *)
Theorem C10_lists_on_every_axis_write_the_cross_product
    (index columns : Index) (values : list (list cell))
    (lr lc : list scalar) (r c : list Z) (v : cell) :
  let obj := DataFrame index columns values in
  _convert_to_indexer ix obj (KList lr) 0 true = Ok (IArray r) ->
  _convert_to_indexer ix obj (KList lc) 1 true = Ok (IArray c) ->
  Forall (fun p => 0 <= p < len values) r ->
  Forall (fun q => 0 <= q < len (ilabels columns)) c ->
  resolve_key ix obj (KTuple [KList lr; KList lc])
  = Ok (ITuple [IArray r; IArray c]) /\
  _maybe_convert_ix [IArray r; IArray c] = Ok (IMesh [r; c]) /\
  target_cells (len values) (len (ilabels columns)) (IMesh [r; c])
  = Ok (T2 (product r c)) /\
  __setitem__ ix obj (KTuple [KList lr; KList lc]) (RScalar v)
  = (DataFrame index columns
       (map (fun ir =>
               map (fun jc =>
                      if existsb (fun p => p =? fst ir) r &&
                         existsb (fun q => q =? fst jc) c
                      then v else snd jc)
                   (enumerate (snd ir)))
            (enumerate values)),
     Ok tt).
Proof.
  intros obj Hr Hc Hrs Hcs.
  assert (Hres : resolve_key ix obj (KTuple [KList lr; KList lc])
                 = Ok (ITuple [IArray r; IArray c])).
  { unfold resolve_key, _convert_tuple. cbn [ndim obj len List.length
      Z.of_nat Pos.of_succ_nat Pos.succ Z.ltb Z.compare Pos.compare
      Pos.compare_cont enumerate enumerate_from mapM fst snd Z.add].
    fold obj. rewrite Hr. cbn [bind]. rewrite Hc. reflexivity. }
  assert (Hcells : target_cells (len values) (len (ilabels columns))
                     (IMesh [r; c]) = Ok (T2 (product r c))).
  { unfold target_cells. rewrite (mapM_norm_pos _ _ Hrs). cbn [bind].
    rewrite (mapM_norm_pos _ _ Hcs). reflexivity. }
  split; [exact Hres|]. split; [reflexivity|]. split; [exact Hcells|].
  unfold __setitem__, setitem_depth. cbn [setitem_rec].
  unfold setitem_body at 1. rewrite Hres.
  rewrite _setitem_with_indexer_no_missing by (reflexivity || exact I).
  cbn [_has_valid_setitem_indexer]. unfold set_values.
  cbn [_maybe_convert_ix forallb andb np_ix_ mapM bind].
  unfold data_setitem, obj. rewrite Hcells. cbn [bind broadcast].
  rewrite write_cells_scalar.
  f_equal. f_equal. apply map_ext. intros [i row]. apply map_ext.
  intros [j old]. cbn [fst snd]. rewrite existsb_product. reflexivity.
Qed.

Lemma C10_witness :
  let df := DataFrame (Index_of [SStr "r0"; SStr "r1"; SStr "r2"])
              (Index_of [SStr "A"; SStr "B"])
              [[Num 1; Num 2]; [Num 3; Num 4]; [Num 5; Num 6]] in
  __setitem__ ix df
    (KTuple [KList [SStr "r0"; SStr "r2"]; KList [SStr "B"; SStr "A"]])
    (RScalar (Num 9))
  = (DataFrame (Index_of [SStr "r0"; SStr "r1"; SStr "r2"])
       (Index_of [SStr "A"; SStr "B"])
       [[Num 9; Num 9]; [Num 3; Num 4]; [Num 9; Num 9]], Ok tt) /\
  data_setitem df (ITuple [IArray [0; 2]; IArray [1; 0]]) (RScalar (Num 9))
  = Ok (DataFrame (Index_of [SStr "r0"; SStr "r1"; SStr "r2"])
          (Index_of [SStr "A"; SStr "B"])
          [[Num 1; Num 9]; [Num 3; Num 4]; [Num 9; Num 6]]).
Proof.
  intro df. split; [|reflexivity].
  destruct (C10_lists_on_every_axis_write_the_cross_product
              (Index_of [SStr "r0"; SStr "r1"; SStr "r2"])
              (Index_of [SStr "A"; SStr "B"])
              [[Num 1; Num 2]; [Num 3; Num 4]; [Num 5; Num 6]]
              [SStr "r0"; SStr "r2"] [SStr "B"; SStr "A"] [0; 2] [1; 0]
              (Num 9) eq_refl eq_refl) as [_ [_ [_ H]]].
  - repeat constructor; vm_compute; discriminate.
  - repeat constructor; vm_compute; discriminate.
  - unfold df. rewrite H. reflexivity.
Defined.

(** * Further properties of the indexing module *)

(** ** Conversion and validation of positions *)

(** X1.  [_maybe_convert_indices] succeeds exactly when every index lies in
    [-n, n); it then hands back each index counted from the start of the
    axis: the index itself when it is not negative, the index plus [n]
    otherwise.  A second conversion changes nothing. *)
Theorem maybe_convert_indices_spec (indices : list Z) (n : Z) :
  0 <= n ->
  (Forall (fun i => - n <= i < n) indices ->
   _maybe_convert_indices indices n = Ok (map (fun i => i mod n) indices) /\
   Forall (fun i => 0 <= i < n) (map (fun i => i mod n) indices) /\
   _maybe_convert_indices (map (fun i => i mod n) indices) n
   = Ok (map (fun i => i mod n) indices)) /\
  (~ Forall (fun i => - n <= i < n) indices ->
   _maybe_convert_indices indices n
   = Raise (Exn IndexError "indices are out-of-bounds")).
Proof.
  intro Hn.
  assert (Hmod : forall i, - n <= i < n ->
                   (if i <? 0 then i + n else i) = i mod n).
  { intros i Hi. destruct (i <? 0) eqn:E.
    - apply Z.ltb_lt in E. apply Z.mod_unique with (q := -1); lia.
    - apply Z.ltb_ge in E. symmetry. apply Z.mod_small. lia. }
  assert (Hconv : forall l, Forall (fun i => - n <= i < n) l ->
                    _maybe_convert_indices l n
                    = Ok (map (fun i => i mod n) l) /\
                    Forall (fun i => 0 <= i < n) (map (fun i => i mod n) l)).
  { intros l Hl. unfold _maybe_convert_indices.
    assert (Hmap : map (fun i => if i <? 0 then i + n else i) l
                   = map (fun i => i mod n) l).
    { apply map_ext_in. intros i Hi. apply Hmod.
      rewrite Forall_forall in Hl. apply Hl. exact Hi. }
    rewrite Hmap.
    assert (Hin : Forall (fun i => 0 <= i < n) (map (fun i => i mod n) l)).
    { apply Forall_forall. intros x Hx. apply in_map_iff in Hx.
      destruct Hx as [i [<- Hi]]. rewrite Forall_forall in Hl.
      specialize (Hl i Hi). apply Z.mod_pos_bound. lia. }
    split; [|exact Hin].
    replace (existsb _ _) with false; [reflexivity|].
    symmetry. apply not_true_is_false. intro Hex.
    apply existsb_exists in Hex. destruct Hex as [x [Hx Hb]].
    rewrite Forall_forall in Hin. specialize (Hin x Hx).
    apply orb_true_iff in Hb. destruct Hb as [Hb|Hb].
    + apply Z.leb_le in Hb. lia.
    + apply Z.ltb_lt in Hb. lia. }
  split.
  - intro Hall. destruct (Hconv indices Hall) as [H1 H2].
    split; [exact H1|]. split; [exact H2|].
    assert (H3 : Forall (fun i => - n <= i < n)
                   (map (fun i => i mod n) indices)).
    { eapply Forall_impl; [|exact H2]. simpl. intros; lia. }
    destruct (Hconv _ H3) as [H4 _]. rewrite H4. f_equal.
    rewrite map_map. apply map_ext_in. intros i Hi.
    rewrite Forall_forall in Hall. specialize (Hall i Hi).
    apply Z.mod_mod. lia.
  - intro Hnot. apply neg_Forall_Exists_neg in Hnot.
    + apply Exists_exists in Hnot. destruct Hnot as [p [Hin Hp]].
      apply (_maybe_convert_indices_out_of_bounds indices n p Hn Hin). lia.
    + intro x. destruct (Z_le_dec (- n) x), (Z_lt_dec x n);
        [left; lia|right; lia|right; lia|right; lia].
Qed.

Lemma maybe_convert_indices_witness :
  _maybe_convert_indices [0; -1; 2; -3] 3 = Ok [0; 2; 2; 0].
Proof.
  destruct (maybe_convert_indices_spec [0; -1; 2; -3] 3) as [H _].
  - lia.
  - destruct H as [H _].
    + repeat constructor; lia.
    + rewrite H. reflexivity.
Defined.

(** X2.  [_check_slice_bounds] on a slice with integer bounds passes
    exactly when the start, if given, lies in [-l, l-1] and the stop, if
    given, in [-l-1, l]; the start is checked first.  On an empty axis
    every slice that gives a start is out of bounds. *)
Theorem check_slice_bounds_spec {A} (values : list A) (s e : option Z)
    (stp : option Z) :
  let l := len values in
  let sl := mkSlice (option_map SInt s) (option_map SInt e) stp in
  let start_ok := match s with Some s => - l <= s <= l - 1 | None => True end in
  let stop_ok := match e with Some e => - l - 1 <= e <= l | None => True end in
  (start_ok /\ stop_ok <-> _check_slice_bounds sl values = Ok tt) /\
  (~ start_ok ->
   _check_slice_bounds sl values
   = Raise (Exn IndexError "out-of-bounds on slice (start)")) /\
  (start_ok -> ~ stop_ok ->
   _check_slice_bounds sl values
   = Raise (Exn IndexError "out-of-bounds on slice (end)")) /\
  (values = [] -> s <> None ->
   _check_slice_bounds sl values
   = Raise (Exn IndexError "out-of-bounds on slice (start)")).
Proof.
  intros l sl start_ok stop_ok.
  assert (Hstart : ~ start_ok ->
            _check_slice_bounds sl values
            = Raise (Exn IndexError "out-of-bounds on slice (start)")).
  { intro H. unfold _check_slice_bounds, sl, start_ok in *. fold l.
    destruct s as [s|]; [|tauto]. cbn [start option_map py_lt py_gt].
    destruct (s <? - l) eqn:E1; [reflexivity|].
    destruct (l - 1 <? s) eqn:E2; [reflexivity|].
    apply Z.ltb_ge in E1, E2. exfalso. apply H. lia. }
  assert (Hstop : start_ok -> ~ stop_ok ->
            _check_slice_bounds sl values
            = Raise (Exn IndexError "out-of-bounds on slice (end)")).
  { intros H1 H2. unfold _check_slice_bounds, sl, start_ok, stop_ok in *.
    fold l. cbn [start stop option_map].
    assert (Hs : match option_map SInt s with
                 | Some start =>
                   if py_lt start (- l) || py_gt start (l - 1)
                   then Raise (Exn IndexError "out-of-bounds on slice (start)")
                   else Ok tt
                 | None => Ok tt
                 end = Ok tt).
    { destruct s as [s|]; [|reflexivity]. cbn [option_map py_lt py_gt].
      replace (s <? - l) with false by (symmetry; apply Z.ltb_ge; lia).
      replace (l - 1 <? s) with false by (symmetry; apply Z.ltb_ge; lia).
      reflexivity. }
    rewrite Hs. cbn [bind].
    destruct e as [e|]; [|tauto]. cbn [option_map py_lt py_gt].
    destruct (e <? - l - 1) eqn:E1; [reflexivity|].
    destruct (l <? e) eqn:E2; [reflexivity|].
    apply Z.ltb_ge in E1, E2. exfalso. apply H2. lia. }
  split; [|split; [exact Hstart|split; [exact Hstop|]]].
  - split.
    + intros [H1 H2]. unfold _check_slice_bounds, sl, start_ok, stop_ok in *.
      fold l. cbn [start stop option_map].
      destruct s as [s|]; cbn [option_map py_lt py_gt].
      * replace (s <? - l) with false by (symmetry; apply Z.ltb_ge; lia).
        replace (l - 1 <? s) with false by (symmetry; apply Z.ltb_ge; lia).
        cbn [orb bind]. destruct e as [e|]; cbn [option_map py_lt py_gt];
          [|reflexivity].
        replace (e <? - l - 1) with false by (symmetry; apply Z.ltb_ge; lia).
        replace (l <? e) with false by (symmetry; apply Z.ltb_ge; lia).
        reflexivity.
      * cbn [bind]. destruct e as [e|]; cbn [option_map py_lt py_gt];
          [|reflexivity].
        replace (e <? - l - 1) with false by (symmetry; apply Z.ltb_ge; lia).
        replace (l <? e) with false by (symmetry; apply Z.ltb_ge; lia).
        reflexivity.
    + intro Hok.
      assert (Hs : start_ok).
      { destruct s as [s|]; [|exact I]. unfold start_ok.
        destruct (Z_le_dec (- l) s); destruct (Z_le_dec s (l - 1));
          try lia;
          (rewrite Hstart in Hok; [discriminate|unfold start_ok; lia]). }
      split; [exact Hs|].
      destruct e as [e|]; [|exact I]. unfold stop_ok.
      destruct (Z_le_dec (- l - 1) e); destruct (Z_le_dec e l); try lia;
        (rewrite Hstop in Hok; [discriminate|exact Hs|unfold stop_ok; lia]).
  - intros Hnil Hsome. apply Hstart. unfold start_ok.
    destruct s as [s|]; [|congruence]. subst values l. unfold len. simpl. lia.
Qed.

(** ** The null slice *)

Lemma get_axis_0 (obj : NDFrame) : exists ax, _get_axis obj 0 = Ok ax.
Proof. destruct obj; eexists; reflexivity. Qed.

(** X3.  A slice without bounds whose step is None or 1 reads the object
    itself, through every accessor; so does a tuple of null slices with
    one entry per axis or fewer (through [ix] when the scalar fast path
    finds no cell). *)
Theorem null_slice_reads_the_object
    (gv : NDFrame -> list akey -> res cell)
    (gi : accessor -> NDFrame -> list scalar -> Z -> res value)
    (mt : accessor -> NDFrame -> list akey -> res value)
    (self : accessor) (obj : NDFrame) :
  (forall stp, stp = None \/ stp = Some 1 ->
     __getitem__ gv gi mt self obj (K (KSlice (mkSlice None None stp)))
     = Ok (VObj obj)) /\
  (forall n, (1 <= n <= Z.to_nat (ndim obj))%nat ->
     (self = ix -> exists e, gv obj (repeat (KSlice _NS) n) = Raise e) ->
     __getitem__ gv gi mt self obj (KTuple (repeat (KSlice _NS) n))
     = Ok (VObj obj)).
Proof.
  split.
  - intros stp Hstp. unfold __getitem__. cbn [key_size getitem_rec getitem_body].
    destruct (get_axis_0 obj) as [ax Hax].
    assert (Hneed : _need_slice (mkSlice None None stp) = false)
      by (destruct Hstp; subst; reflexivity).
    destruct self; unfold _getitem_axis.
    + rewrite Hax. cbn [bind]. unfold _get_slice_axis. rewrite Hneed.
      reflexivity.
    + rewrite Hax. cbn [bind]. unfold _has_valid_type,
        LocIndexer._has_valid_type. rewrite Hax. cbn [bind start stop].
      unfold _get_slice_axis. rewrite Hneed. reflexivity.
    + cbn [bind _has_valid_type]. unfold _get_slice_axis. rewrite Hneed.
      reflexivity.
  - intros n Hn Hgv.
    assert (Hcases : n = 1%nat \/ (n = 2%nat /\ ndim obj = 2)).
    { destruct obj; simpl in Hn; [left; lia|].
      destruct (Nat.eq_dec n 1); [left; assumption|right; split; [lia|reflexivity]]. }
    unfold __getitem__.
    destruct Hcases as [->|[-> Hdim]];
      cbn [key_size repeat List.length Nat.mul Nat.add];
      rewrite getitem_rec_S.
    + destruct self; cbn [repeat].
      * destruct (Hgv eq_refl) as [e He]. cbn [repeat] in He.
        unfold getitem_body. rewrite He. destruct obj; reflexivity.
      * destruct obj; reflexivity.
      * destruct obj; reflexivity.
    + destruct obj as [|index columns values]; [discriminate|].
      destruct self; cbn [repeat].
      * destruct (Hgv eq_refl) as [e He]. cbn [repeat] in He.
        unfold getitem_body. rewrite He. reflexivity.
      * reflexivity.
      * reflexivity.
Qed.

Lemma null_slice_witness :
  let df := DataFrame (Index_of [SStr "r0"; SStr "r1"])
              (Index_of [SStr "A"; SStr "B"])
              [[Num 1; Num 2]; [Num 3; Num 4]] in
  __getitem__ no_get_value no_getitem_iterable no_multi_take ix df
    (KTuple [KSlice _NS; KSlice _NS]) = Ok (VObj df).
Proof.
  intro df.
  destruct (null_slice_reads_the_object no_get_value no_getitem_iterable
              no_multi_take ix df) as [_ H].
  apply (H 2%nat).
  - simpl. lia.
  - intros _. eexists. reflexivity.
Defined.

(** ** Resolution of slices and lists *)

(** X4.  How the resolver of [ix] and [loc] reads a slice with integer
    bounds depends on the kind of the axis alone: on an axis that is
    neither integer-labelled nor of a mixed kind the slice is handed
    through as positions; on an integer-labelled axis it is sliced by
    label and an error of the label slicing is raised, with no fallback
    to positions.  [iloc] hands every slice through. *)
Theorem integer_slice_resolution_by_axis_kind (self : accessor)
    (obj : NDFrame) (axis : Z) (labels : Index) (sl : slice)
    (is_setter : bool) :
  _get_axis obj axis = Ok labels ->
  _is_index_slice sl = true ->
  (self <> iloc ->
   inferred_type labels <> "integer" ->
   has_substring "mixed" (inferred_type labels) = false ->
   _convert_to_indexer self obj (KSlice sl) axis is_setter = Ok (ISlice sl)) /\
  (self <> iloc ->
   inferred_type labels = "integer" ->
   _convert_to_indexer self obj (KSlice sl) axis is_setter
   = (sl' <- slice_indexer labels (start sl) (stop sl) (step sl) ;;
      Ok (ISlice sl'))) /\
  (self = iloc ->
   _convert_to_indexer self obj (KSlice sl) axis is_setter = Ok (ISlice sl)).
Proof.
  intros Hax Hsl.
  assert (Hfloat : _is_float_slice sl = false).
  { unfold _is_index_slice, _is_float_slice, slice_test in *.
    destruct (start sl) as [s|], (stop sl) as [e|]; simpl in *;
      try discriminate; try reflexivity. }
  assert (Hnull : is_none (start sl) && is_none (stop sl) = false).
  { unfold _is_index_slice, slice_test in Hsl.
    destruct (is_none (start sl) && is_none (stop sl)); [discriminate|reflexivity]. }
  assert (Hres : forall r,
            convert_slice labels sl = r ->
            self <> iloc ->
            _convert_to_indexer self obj (KSlice sl) axis is_setter
            = (sl' <- r ;; Ok (ISlice sl'))).
  { intros r <- Hself.
    assert (H : _convert_to_indexer self obj (KSlice sl) axis is_setter
                = NDFrameIndexer._convert_to_indexer obj (KSlice sl) axis
                    is_setter) by (destruct self; [reflexivity|reflexivity|congruence]).
    rewrite H. unfold NDFrameIndexer._convert_to_indexer. rewrite Hax.
    reflexivity. }
  split; [|split].
  - intros Hself Hkind Hmixed.
    rewrite (Hres _ eq_refl Hself). unfold convert_slice.
    rewrite Hsl, Hfloat, Hmixed, Hnull.
    apply String.eqb_neq in Hkind. rewrite Hkind.
    rewrite !andb_false_r. reflexivity.
  - intros Hself Hkind.
    rewrite (Hres _ eq_refl Hself). unfold convert_slice.
    rewrite Hsl, Hfloat, Hnull, Hkind.
    cbn [String.eqb Ascii.eqb Bool.eqb andb negb orb try_except bind].
    destruct (slice_indexer labels (start sl) (stop sl) (step sl));
      reflexivity.
  - intros ->. reflexivity.
Qed.

Lemma integer_slice_resolution_witness :
  let s := Series (Index_of [SStr "a"; SStr "b"; SStr "c"])
             [Num 1; Num 2; Num 3] in
  let sl := mkSlice (Some (SInt 0)) (Some (SInt 2)) None in
  _convert_to_indexer ix s (KSlice sl) 0 false = Ok (ISlice sl).
Proof.
  intros s sl.
  destruct (integer_slice_resolution_by_axis_kind ix s 0
              (Index_of [SStr "a"; SStr "b"; SStr "c"]) sl false) as [H _].
  - reflexivity.
  - reflexivity.
  - apply H; [discriminate|vm_compute; discriminate|reflexivity].
Defined.

Lemma positions_from_head (k : scalar) (l : list scalar) (p q : Z)
    (qs : list Z) :
  positions_from p k l = q :: qs ->
  p <= q < p + len l /\ nth_error l (Z.to_nat (q - p)) = Some k.
Proof.
  revert p. induction l as [|x l IH]; intros p H; simpl in H.
  - discriminate.
  - rewrite len_cons. pose proof (len_nonneg l).
    destruct (scalar_eqb k x) eqn:E.
    + inversion H; subst. apply scalar_eqb_eq in E. subst.
      replace (q - q) with 0 by lia. split; [lia|reflexivity].
    + destruct (IH _ H) as [Hr Hn]. split; [lia|].
      replace (Z.to_nat (q - p)) with (S (Z.to_nat (q - (p + 1)))) by lia.
      exact Hn.
Qed.

Lemma positions_from_all (k : scalar) (l : list scalar) (p : Z) :
  Forall (fun q => p <= q) (positions_from p k l).
Proof.
  revert p. induction l as [|x l IH]; intros p; simpl.
  - constructor.
  - assert (H : Forall (fun q => p <= q) (positions_from (p + 1) k l)).
    { eapply Forall_impl; [|apply IH]. simpl. intros; lia. }
    destruct (scalar_eqb k x); [constructor; [lia|exact H]|exact H].
Qed.

Lemma py_getitem_nth {A} (l : list A) (i : Z) (a : A) :
  0 <= i < len l -> nth_error l (Z.to_nat i) = Some a ->
  py_getitem l i = Ok a.
Proof.
  intros Hi Hn. unfold py_getitem.
  assert (E1 : (i <? 0) = false) by (apply Z.ltb_ge; lia).
  assert (E2 : (len l <=? i) = false) by (apply Z.leb_gt; lia).
  rewrite E1. cbv zeta. rewrite E1, E2. cbn [orb]. rewrite Hn. reflexivity.
Qed.

Lemma get_indexer_present (labels : Index) (l : list scalar) :
  forallb (contains labels) l = true ->
  existsb (Z.eqb (-1)) (get_indexer labels l) = false /\
  mapM (py_getitem (ilabels labels)) (get_indexer labels l) = Ok l.
Proof.
  induction l as [|k l IH]; intro H.
  - split; reflexivity.
  - cbn [forallb] in H. apply andb_true_iff in H. destruct H as [Hk Hl].
    destruct (IH Hl) as [IH1 IH2].
    unfold get_indexer in *. cbn [map existsb].
    pose proof (positions_from_present k (ilabels labels) 0 Hk) as Hne.
    unfold positions_of in *.
    destruct (positions_from 0 k (ilabels labels)) as [|q qs] eqn:E;
      [congruence|].
    apply positions_from_head in E. destruct E as [Hr Hn].
    replace (q - 0) with q in Hn by lia.
    split.
    + rewrite IH1. assert (Hq : (-1 =? q) = false) by (apply Z.eqb_neq; lia).
      rewrite Hq. reflexivity.
    + cbn [mapM].
      assert (Hq : 0 <= q < len (ilabels labels)) by lia.
      rewrite (py_getitem_nth _ _ _ Hq Hn).
      cbn [bind]. rewrite IH2. reflexivity.
Qed.

Lemma get_indexer_absent (labels : Index) (l : list scalar) :
  forallb (contains labels) l = false ->
  existsb (Z.eqb (-1)) (get_indexer labels l) = true /\
  existsb (Z.eqb (-1)) (fst (get_indexer_non_unique labels l)) = true.
Proof.
  induction l as [|k l IH]; intro H.
  - discriminate.
  - cbn [forallb] in H. unfold get_indexer, get_indexer_non_unique in *.
    cbn [map flat_map fst existsb] in *. rewrite existsb_app.
    destruct (contains labels k) eqn:Hk.
    + cbn [andb] in H. destruct (IH H) as [IH1 IH2].
      rewrite IH1, IH2. rewrite !orb_true_r. split; reflexivity.
    + unfold positions_of. rewrite positions_from_absent by exact Hk.
      split; reflexivity.
Qed.

(** X5.  A list of labels, resolved by label through [ix] or [loc]: when
    some label of the list is absent from the axis the resolution raises
    KeyError, in setter mode as well, so a list key never enlarges an
    axis; when all are present on a unique axis it gives an array of
    positions, and the labels at those positions are the list itself. *)
Theorem list_of_labels_resolution (self : accessor) (obj : NDFrame)
    (axis : Z) (labels : Index) (l : list scalar) (is_setter : bool) :
  self <> iloc ->
  _get_axis obj axis = Ok labels ->
  _is_bool_indexer (KList l) = false ->
  as_int_array l = None \/ _is_integer_index labels = true ->
  (forallb (contains labels) l = false ->
   _convert_to_indexer self obj (KList l) axis is_setter
   = Raise (Exn KeyError "not in index")) /\
  (forallb (contains labels) l = true -> is_unique labels = true ->
   exists a,
     _convert_to_indexer self obj (KList l) axis is_setter = Ok (IArray a) /\
     Index_take labels a = Ok (mkIndex l (inferred_type labels))).
Proof.
  intros Hself Hax Hbool Hpath.
  assert (H : _convert_to_indexer self obj (KList l) axis is_setter
              = let indexer := if is_unique labels then get_indexer labels l
                               else fst (get_indexer_non_unique labels l) in
                if existsb (Z.eqb (-1)) indexer
                then Raise (Exn KeyError "not in index")
                else Ok (IArray indexer)).
  { assert (H : _convert_to_indexer self obj (KList l) axis is_setter
                = NDFrameIndexer._convert_to_indexer obj (KList l) axis
                    is_setter) by (destruct self; [reflexivity|reflexivity|congruence]).
    rewrite H. unfold NDFrameIndexer._convert_to_indexer. rewrite Hax.
    cbn [bind get_loc_key exn_cls either negb integer_key]. 
    cbn [exn_class_eqb orb negb]. rewrite Hbool.
    destruct Hpath as [Hn|Hi].
    - rewrite Hn. reflexivity.
    - rewrite Hi. cbn [negb]. destruct (as_int_array l); reflexivity. }
  rewrite H. cbv zeta. split.
  - intro Habs. destruct (get_indexer_absent labels l Habs) as [H1 H2].
    destruct (is_unique labels); [rewrite H1|rewrite H2]; reflexivity.
  - intros Hpres Huniq. rewrite Huniq.
    destruct (get_indexer_present labels l Hpres) as [H1 H2].
    rewrite H1. eexists. split; [reflexivity|].
    unfold Index_take. rewrite H2. reflexivity.
Qed.

Lemma list_of_labels_resolution_witness :
  let s := Series (Index_of [SStr "a"; SStr "b"; SStr "c"])
             [Num 1; Num 2; Num 3] in
  _convert_to_indexer loc s (KList [SStr "c"; SStr "z"]) 0 true
  = Raise (Exn KeyError "not in index").
Proof.
  intro s.
  destruct (list_of_labels_resolution loc s 0
              (Index_of [SStr "a"; SStr "b"; SStr "c"])
              [SStr "c"; SStr "z"] true) as [H _].
  - discriminate.
  - reflexivity.
  - reflexivity.
  - left. reflexivity.
  - apply H. reflexivity.
Defined.

(** ** Assignment without a scalar key *)

Lemma mapM_Forall {A B} (f : A -> res B) (P : B -> Prop) (l : list A)
    (l' : list B) :
  (forall x y, In x l -> f x = Ok y -> P y) ->
  mapM f l = Ok l' -> Forall P l'.
Proof.
  revert l'. induction l as [|a l IH]; intros l' Hf H; simpl in H.
  - inversion H. constructor.
  - destruct (f a) as [b|e] eqn:Ea; [|discriminate]. cbn [bind] in H.
    destruct (mapM f l) as [bs|e] eqn:El; [|discriminate]. cbn [bind] in H.
    inversion H; subst. constructor.
    + apply (Hf a); [left; reflexivity|exact Ea].
    + apply IH; [|reflexivity]. intros x y Hx. apply Hf. right. exact Hx.
Qed.

Lemma slice_or_list_never_missing (self : accessor) (obj : NDFrame)
    (k : akey) (axis : Z) (is_setter : bool) (i : indexer1) :
  _is_label_like k = false ->
  _convert_to_indexer self obj k axis is_setter = Ok i ->
  is_dict i = false.
Proof.
  intros Hk H.
  assert (Hnd : NDFrameIndexer._convert_to_indexer obj k axis is_setter = Ok i
                -> is_dict i = false).
  { clear H. unfold NDFrameIndexer._convert_to_indexer.
    destruct (_get_axis obj axis) as [labels|e]; [|discriminate].
    cbn [bind]. destruct k as [s|sl|l]; [discriminate| |].
    - cbn [integer_key get_loc_key exn_cls either exn_class_eqb orb negb].
      destruct (convert_slice labels sl); cbn [bind]; intro H; inv H.
      reflexivity.
    - cbn [integer_key get_loc_key exn_cls either exn_class_eqb orb negb].
      intro H.
      repeat match type of H with
             | (if ?c then _ else _) = _ => destruct c
             | match ?c with Some _ => _ | None => _ end = _ => destruct c
             end; inv H; reflexivity. }
  destruct self; [exact (Hnd H)|exact (Hnd H)|].
  unfold _convert_to_indexer, iLocIndexer._convert_to_indexer in H.
  destruct (iLocIndexer._has_valid_type k axis); [|discriminate].
  destruct k as [s|sl|l]; [discriminate| |]; inv H; reflexivity.
Qed.

Lemma enumerate_from_snd_In {A} (l : list A) (p : Z) (x : Z * A) :
  In x (enumerate_from p l) -> In (snd x) l.
Proof.
  intro H. rewrite <- (map_snd_enumerate_from l p). apply in_map. exact H.
Qed.

Lemma resolved_slices_and_lists (self : accessor) (obj : NDFrame) (key : key)
    (indexer : indexer) :
  only_slices_and_lists key = true ->
  resolve_key self obj key = Ok indexer ->
  has_missing indexer = false /\
  match indexer with IMesh _ => False | _ => True end.
Proof.
  intros Hkey H. destruct key as [k|t]; cbn [only_slices_and_lists] in Hkey.
  - cbn [resolve_key] in H.
    destruct (_convert_to_indexer self obj k 0 true) as [i|e] eqn:E;
      [|discriminate].
    inv H. split; [|exact I]. cbn [has_missing].
    eapply slice_or_list_never_missing; [|exact E].
    apply negb_true_iff. exact Hkey.
  - cbn [resolve_key] in H. destruct (ndim obj <? len t); [discriminate|].
    unfold _convert_tuple in H.
    destruct (mapM _ (enumerate t)) as [l|e] eqn:E; [|discriminate].
    inv H. split; [|exact I]. cbn [has_missing].
    apply (mapM_Forall _ (fun i => is_dict i = false)) in E.
    + clear -E. induction E as [|i l Hi _ IH]; [reflexivity|].
      cbn [existsb]. rewrite Hi, IH. reflexivity.
    + intros x y Hx Hy. eapply slice_or_list_never_missing; [|exact Hy].
      apply enumerate_from_snd_In in Hx.
      rewrite forallb_forall in Hkey. apply negb_true_iff. apply Hkey.
      exact Hx.
Qed.

Lemma data_setitem_axes (obj : NDFrame) (indexer : indexer) (value : rhs)
    (obj' : NDFrame) :
  data_setitem obj indexer value = Ok obj' -> axes obj' = axes obj.
Proof.
  intro H. destruct obj as [index values|index columns values];
    unfold data_setitem in H.
  - match type of H with (t <- ?m ;; _) = _ => destruct m as [t|e] end;
      [|discriminate].
    cbn [bind] in H.
    match type of H with (w <- ?m ;; _) = _ => destruct m as [w|e] end;
      [|discriminate].
    inv H. reflexivity.
  - destruct (target_cells _ _ indexer) as [t|e]; [|discriminate].
    cbn [bind] in H. destruct (broadcast t value) as [w|e]; [|discriminate].
    inv H. reflexivity.
Qed.

Lemma set_values_axes (obj : NDFrame) (indexer : indexer) (value : rhs) :
  axes (fst (set_values obj indexer value)) = axes obj.
Proof.
  unfold set_values.
  match goal with |- context [match ?r with Ok _ => _ | Raise _ => _ end] =>
    destruct r as [obj'|e] eqn:E end; [|reflexivity].
  cbn [fst].
  match type of E with (i <- ?m ;; _) = _ => destruct m as [i'|e] end;
    [|discriminate].
  cbn [bind] in E.
  match type of E with (v <- ?m ;; _) = _ => destruct m as [v'|e] end;
    [|discriminate].
  cbn [bind] in E. eapply data_setitem_axes. exact E.
Qed.

(** X6.  An assignment whose key is made of slices and lists only (no
    scalar entry), to a target that is not of mixed type, never changes
    the labels of the target, whether it succeeds or fails: only a scalar
    key can enlarge an axis.  On such a target the method with the split
    path is the method of the single block. *)
Theorem assignment_through_slices_and_lists_keeps_the_axes (self : accessor)
    (obj : NDFrame) (key : key) (value : rhs) :
  only_slices_and_lists key = true ->
  axes (fst (__setitem__ self obj key value)) = axes obj /\
  (forall mixed gi si,
     mixed obj = false ->
     MixedType.__setitem__ mixed gi si self obj key value
     = __setitem__ self obj key value).
Proof.
  intro Hkey. split.
  2:{ intros mixed gi si Hmixed.
      apply mixed_assignment_without_a_missing_key; [|exact Hmixed].
      intros indexer E.
      apply (resolved_slices_and_lists self obj key indexer Hkey E). }
  assert (Heq : __setitem__ self obj key value
                = match resolve_key self obj key with
                  | Raise e => (obj, Raise e)
                  | Ok indexer =>
                    match _has_valid_setitem_indexer self obj indexer with
                    | Raise e => (obj, Raise e)
                    | Ok _ => set_values obj indexer value
                    end
                  end).
  { unfold __setitem__, setitem_depth. cbn [setitem_rec].
    unfold setitem_body at 1.
    destruct (resolve_key self obj key) as [indexer|e] eqn:E; [|reflexivity].
    destruct (resolved_slices_and_lists self obj key indexer Hkey E)
      as [Hmiss Hmesh].
    apply _setitem_with_indexer_no_missing; assumption. }
  rewrite Heq. clear Heq.
  destruct (resolve_key self obj key) as [indexer|e]; [|reflexivity].
  destruct (_has_valid_setitem_indexer self obj indexer) as [b|e'];
    [|reflexivity].
  apply set_values_axes.
Qed.

Lemma assignment_through_slices_and_lists_witness :
  let df := DataFrame (Index_of [SStr "r0"; SStr "r1"])
              (Index_of [SStr "A"; SStr "B"])
              [[Num 1; Num 2]; [Num 3; Num 4]] in
  let key := KTuple [KList [SStr "r1"]; KSlice _NS] in
  axes (fst (__setitem__ ix df key (RScalar (Num 9)))) = axes df.
Proof.
  intros df key.
  destruct (assignment_through_slices_and_lists_keeps_the_axes ix df key
              (RScalar (Num 9)) eq_refl) as [H _].
  exact H.
Defined.

Lemma iloc_never_missing (obj : NDFrame) (k : akey) (axis : Z)
    (is_setter : bool) (i : indexer1) :
  _convert_to_indexer iloc obj k axis is_setter = Ok i -> is_dict i = false.
Proof.
  unfold _convert_to_indexer, iLocIndexer._convert_to_indexer. intro H.
  destruct (iLocIndexer._has_valid_type k axis); [|discriminate].
  destruct k as [s|sl|l].
  - destruct (integer_key (KScalar s)); inv H. reflexivity.
  - inv H. reflexivity.
  - inv H. reflexivity.
Qed.

Lemma iloc_resolved (obj : NDFrame) (key : key) (indexer : indexer) :
  resolve_key iloc obj key = Ok indexer ->
  has_missing indexer = false /\
  match indexer with IMesh _ => False | _ => True end.
Proof.
  intro H. destruct key as [k|t]; cbn [resolve_key] in H.
  - destruct (_convert_to_indexer iloc obj k 0 true) as [i|e] eqn:E;
      [|discriminate].
    inv H. split; [|exact I]. eapply iloc_never_missing. exact E.
  - destruct (ndim obj <? len t); [discriminate|].
    unfold _convert_tuple in H.
    destruct (mapM _ (enumerate t)) as [l|e] eqn:E; [|discriminate].
    inv H. split; [|exact I]. cbn [has_missing].
    apply (mapM_Forall _ (fun i => is_dict i = false)) in E.
    + clear -E. induction E as [|i l Hi _ IH]; [reflexivity|].
      cbn [existsb]. rewrite Hi, IH. reflexivity.
    + intros x y _ Hy. eapply iloc_never_missing. exact Hy.
Qed.

(** X7.  No assignment through [iloc] to a target that is not of mixed
    type changes the labels of the target, whatever the key and the value
    are and whether the call succeeds or fails.  On such a target the
    method with the split path is the method of the single block. *)
Theorem iloc_assignment_never_changes_the_axes (obj : NDFrame) (key : key)
    (value : rhs) :
  axes (fst (__setitem__ iloc obj key value)) = axes obj /\
  (forall mixed gi si,
     mixed obj = false ->
     MixedType.__setitem__ mixed gi si iloc obj key value
     = __setitem__ iloc obj key value).
Proof.
  split.
  2:{ intros mixed gi si Hmixed.
      apply mixed_assignment_without_a_missing_key; [|exact Hmixed].
      intros indexer E. apply (iloc_resolved obj key indexer E). }
  assert (Heq : __setitem__ iloc obj key value
                = match resolve_key iloc obj key with
                  | Raise e => (obj, Raise e)
                  | Ok indexer =>
                    match _has_valid_setitem_indexer iloc obj indexer with
                    | Raise e => (obj, Raise e)
                    | Ok _ => set_values obj indexer value
                    end
                  end).
  { unfold __setitem__, setitem_depth. cbn [setitem_rec].
    unfold setitem_body at 1.
    destruct (resolve_key iloc obj key) as [indexer|e] eqn:E; [|reflexivity].
    destruct (iloc_resolved obj key indexer E) as [Hmiss Hmesh].
    apply _setitem_with_indexer_no_missing; assumption. }
  rewrite Heq. clear Heq.
  destruct (resolve_key iloc obj key) as [indexer|e]; [|reflexivity].
  destruct (_has_valid_setitem_indexer iloc obj indexer) as [b|e'];
    [|reflexivity].
  apply set_values_axes.
Qed.

(** X8.  A labelled vector assigned through a single key that is a slice
    or a list (not a tuple), by the assignment of [_NDFrameIndexer], to a
    target that is not of mixed type is refused: whenever the key
    resolves, the call raises ValueError [Incompatible indexer with
    Series] and the target is left as it was.  The assignment of
    [_SeriesIndexer] hands the same indexer and the value, as it was
    given, to [_set_values] of the container. *)
Theorem series_value_through_a_slice_or_list_is_refused
    (mixed : NDFrame -> bool)
    (gi : NDFrame -> scalar -> res value)
    (si : NDFrame -> scalar -> NDFrame -> res NDFrame)
    (self : accessor)
    (obj : NDFrame) (k : akey) (i : indexer1) (ser_index : Index)
    (ser_values : list cell) :
  _is_label_like k = false ->
  _convert_to_indexer self obj k 0 true = Ok i ->
  mixed obj = false ->
  MixedType.__setitem__ mixed gi si self obj (K k)
    (RSeries ser_index ser_values)
  = (obj, Raise (Exn ValueError "Incompatible indexer with Series")) /\
  (forall _set_values rec,
     SeriesIndexer._setitem_with_indexer _set_values rec self obj (I1 i)
       (RSeries ser_index ser_values)
     = _set_values obj (I1 i) (RSeries ser_index ser_values)).
Proof.
  intros Hk Hres Hmixed.
  assert (Hi : match i with
               | ISlice _ | IArray _ | IList _ => True
               | _ => False
               end).
  { destruct self; unfold _convert_to_indexer in Hres.
    1,2: unfold NDFrameIndexer._convert_to_indexer in Hres;
      destruct (_get_axis obj 0) as [labels|e]; [|discriminate];
      cbn [bind] in Hres; destruct k as [s|sl|l]; [discriminate| |];
      cbn [integer_key get_loc_key exn_cls either exn_class_eqb orb negb]
        in Hres;
      [destruct (convert_slice labels sl); cbn [bind] in Hres; inv Hres;
       exact I|
       repeat match type of Hres with
              | (if ?c then _ else _) = _ => destruct c
              | match ?c with Some _ => _ | None => _ end = _ => destruct c
              end; inv Hres; exact I].
    unfold iLocIndexer._convert_to_indexer in Hres.
    destruct (iLocIndexer._has_valid_type k 0); [|discriminate].
    destruct k as [s|sl|l]; [discriminate| |]; inv Hres; exact I. }
  split.
  - unfold MixedType.__setitem__, setitem_depth. cbn [MixedType.setitem_rec].
    unfold MixedType.setitem_body at 1. cbn [resolve_key]. rewrite Hres.
    cbn [bind].
    rewrite mixed_setitem_with_indexer_no_missing;
      [|destruct i; try contradiction; reflexivity|exact I].
    assert (Hvalid : exists b,
               _has_valid_setitem_indexer self obj (I1 i) = Ok b).
    { destruct self; try (eexists; reflexivity).
      unfold _has_valid_setitem_indexer, _has_valid_positional_setitem_indexer,
        _tuplify.
      destruct obj; destruct i; try contradiction; cbn; eexists; reflexivity. }
    destruct Hvalid as [b ->]. rewrite Hmixed.
    unfold MixedType.set_values, set_values. cbn [bind].
    destruct i; try contradiction; reflexivity.
  - intros _set_values rec. unfold SeriesIndexer._setitem_with_indexer.
    destruct i; try contradiction; reflexivity.
Qed.

Lemma series_value_through_a_slice_or_list_witness :
  let df := DataFrame (Index_of [SStr "r0"; SStr "r1"; SStr "r2"])
              (Index_of [SStr "A"; SStr "B"])
              [[Num 1; Num 2]; [Num 3; Num 4]; [Num 5; Num 6]] in
  MixedType.__setitem__ (fun _ => false) container_getitem container_setitem
    ix df (K (KList [SStr "r0"; SStr "r1"]))
    (RSeries (Index_of [SStr "r0"; SStr "r1"]) [Num 7; Num 8])
  = (df, Raise (Exn ValueError "Incompatible indexer with Series")).
Proof.
  intro df.
  apply (series_value_through_a_slice_or_list_is_refused (fun _ => false)
           container_getitem container_setitem ix df
           (KList [SStr "r0"; SStr "r1"]) (IArray [0; 1])).
  - reflexivity.
  - reflexivity.
  - reflexivity.
Defined.

(** ** The nesting of assignment calls *)

Lemma present_key_never_missing (self : accessor) (obj : NDFrame)
    (axis : Z) (labels : Index) (k : scalar) (is_setter : bool)
    (i : indexer1) :
  _get_axis obj axis = Ok labels ->
  contains labels k = true ->
  _convert_to_indexer self obj (KScalar k) axis is_setter = Ok i ->
  is_dict i = false.
Proof.
  intros Hax Hk H.
  destruct (get_loc_present labels k Hk) as [l Hl].
  assert (Hnd : NDFrameIndexer._convert_to_indexer obj (KScalar k) axis
                  is_setter = Ok i -> is_dict i = false).
  { clear H. unfold NDFrameIndexer._convert_to_indexer. rewrite Hax.
    cbn [bind get_loc_key]. rewrite Hl. intro H.
    destruct (integer_key (KScalar k));
      [destruct (negb (_is_integer_index labels))|]; inv H;
      try reflexivity; destruct l; reflexivity. }
  destruct self; [exact (Hnd H)|exact (Hnd H)|].
  eapply iloc_never_missing. exact H.
Qed.

Lemma setitem_nan_contains (obj obj' : NDFrame) (key : scalar) :
  setitem_nan obj key = Ok obj' ->
  exists index columns values,
    obj' = DataFrame index columns values /\ contains columns key = true.
Proof.
  destruct obj as [|index columns values]; [discriminate|].
  unfold setitem_nan. destruct (contains columns key) eqn:E; intro H; inv H.
  - do 3 eexists. split; [reflexivity|exact E].
  - do 3 eexists. split; [reflexivity|].
    unfold contains. rewrite _safe_append_to_index_labels.
    rewrite existsb_app. cbn [existsb]. rewrite scalar_eqb_refl.
    rewrite orb_true_r. reflexivity.
Qed.

Section Nesting.

Variables rec1 rec2 : accessor -> NDFrame -> key -> rhs -> NDFrame * res unit.
Variable self_ndim : Z.
Variable indexer : list indexer1.
Variable value : rhs.

Hypothesis nested_agree :
  forall index columns values key,
    In (1, IDict key) (enumerate indexer) ->
    contains columns key = true ->
    rec1 loc (DataFrame index columns values)
      (KTuple (_convert_from_missing_indexer_tuple indexer)) value
    = rec2 loc (DataFrame index columns values)
        (KTuple (_convert_from_missing_indexer_tuple indexer)) value.

Lemma enlarge_tuple_agree (rest : list (Z * indexer1)) :
  (forall x, In x rest -> In x (enumerate indexer)) ->
  forall obj nindexer,
    enlarge_tuple rec1 self_ndim indexer value obj rest nindexer
    = enlarge_tuple rec2 self_ndim indexer value obj rest nindexer.
Proof.
  induction rest as [|[i idx] rest IH]; intros Hin obj nindexer.
  - reflexivity.
  - assert (Hrest : forall x, In x rest -> In x (enumerate indexer))
      by (intros x Hx; apply Hin; right; exact Hx).
    specialize (IH Hrest).
    cbn [enlarge_tuple].
    destruct idx as [p|sl|a|m|l|k]; try apply IH.
    destruct (_convert_missing_indexer (IDict k)) as [[[key|i'] b]|e] eqn:Ecm;
      try reflexivity.
    assert (Hkey : key = k).
    { unfold _convert_missing_indexer in Ecm.
      destruct (is_bool k); inv Ecm. reflexivity. }
    subst key. clear Ecm.
    destruct ((1 <? self_ndim) && (i =? _info_axis_number obj)) eqn:Einfo.
    + destruct (setitem_nan obj k) as [obj'|e] eqn:Enan; [|reflexivity].
      destruct (setitem_nan_contains _ _ _ Enan)
        as (index & columns & values & -> & Hc).
      assert (Hi : i = 1).
      { apply andb_true_iff in Einfo. destruct Einfo as [_ Hi].
        apply Z.eqb_eq in Hi. destruct obj; [discriminate|exact Hi]. }
      subst i.
      rewrite (nested_agree index columns values k); [reflexivity| |].
      * apply Hin. left. reflexivity.
      * exact Hc.
    + destruct (_get_axis obj i) as [index|e]; [|reflexivity].
      destruct (reindex_axis obj _ i) as [obj'|e]; [|reflexivity].
      destruct (get_loc _ k) as [l|e]; [|reflexivity].
      apply IH.
Qed.

End Nesting.

Lemma nested_scalar_call_agree
    (rec1 rec2 : accessor -> NDFrame -> key -> rhs -> NDFrame * res unit)
    (self : accessor) (obj : NDFrame) (labels : Index) (k : scalar)
    (value : rhs) :
  _get_axis obj 0 = Ok labels ->
  contains labels k = true ->
  setitem_body rec1 self obj (K (KScalar k)) value
  = setitem_body rec2 self obj (K (KScalar k)) value.
Proof.
  intros Hax Hk. unfold setitem_body. cbn [resolve_key].
  destruct (_convert_to_indexer self obj (KScalar k) 0 true) as [i|e] eqn:E;
    [|reflexivity].
  cbn [bind].
  pose proof (present_key_never_missing _ _ _ _ _ _ _ Hax Hk E) as Hd.
  rewrite !_setitem_with_indexer_no_missing by (exact Hd || exact I).
  reflexivity.
Qed.

Lemma nested_tuple_call_agree
    (rec1 rec2 : accessor -> NDFrame -> key -> rhs -> NDFrame * res unit)
    (index columns : Index) (values : list (list cell)) (a : akey)
    (c : scalar) (value : rhs) :
  contains columns c = true ->
  setitem_body rec1 loc (DataFrame index columns values)
    (KTuple [a; KScalar c]) value
  = setitem_body rec2 loc (DataFrame index columns values)
      (KTuple [a; KScalar c]) value.
Proof.
  intro Hc. unfold setitem_body. cbn [resolve_key].
  destruct (ndim (DataFrame index columns values) <? len [a; KScalar c]);
    [reflexivity|].
  unfold _convert_tuple, enumerate. cbn [enumerate_from mapM fst snd].
  destruct (_convert_to_indexer loc _ a 0 true) as [j0|e]; [|reflexivity].
  cbn [bind].
  destruct (_convert_to_indexer loc _ (KScalar c) (0 + 1) true) as [j1|e]
    eqn:E1; [|reflexivity].
  cbn [bind].
  assert (Hd : is_dict j1 = false).
  { eapply present_key_never_missing; [|exact Hc|exact E1]. reflexivity. }
  unfold _setitem_with_indexer.
  destruct (_has_valid_setitem_indexer loc _ (ITuple [j0; j1])); [|reflexivity].
  rewrite (enlarge_tuple_agree rec1 rec2); [reflexivity| |].
  - intros idx cols vals key Hin _. exfalso.
    unfold enumerate in Hin. cbn [enumerate_from In] in Hin.
    destruct Hin as [H|[H|[]]]; inv H. discriminate.
  - intros x Hx. exact Hx.
Qed.

Lemma second_entry_of_a_pair {A} (t : list A) (x : A) :
  len t <= 2 -> In (1, x) (enumerate t) -> exists a, t = [a; x].
Proof.
  intros Hlen Hin. destruct t as [|a [|b [|c t]]].
  - destruct Hin.
  - destruct Hin as [H|[]]. inv H.
  - destruct Hin as [H|[H|[]]]; inv H. eexists. reflexivity.
  - exfalso. rewrite !len_cons in Hlen. pose proof (len_nonneg t). lia.
Qed.

Lemma first_entry_only {A} (t : list A) (x : A) :
  len t <= 1 -> In (1, x) (enumerate t) -> False.
Proof.
  intros Hlen Hin. destruct t as [|a [|b t]].
  - destruct Hin.
  - destruct Hin as [H|[]]. inv H.
  - rewrite !len_cons in Hlen. pose proof (len_nonneg t). lia.
Qed.

Lemma setitem_body_twice
    (rec1 rec2 : accessor -> NDFrame -> key -> rhs -> NDFrame * res unit)
    (self : accessor) (obj : NDFrame) (key : key) (value : rhs) :
  setitem_body (setitem_body rec1) self obj key value
  = setitem_body (setitem_body rec2) self obj key value.
Proof.
  unfold setitem_body at 1 3.
  destruct (resolve_key self obj key) as [indexer|e] eqn:E; [|reflexivity].
  unfold _setitem_with_indexer.
  destruct (_has_valid_setitem_indexer self obj indexer); [|reflexivity].
  destruct indexer as [i|t|arrays]; [| |reflexivity].
  - destruct (_convert_missing_indexer i) as [[[k|i'] b]|e]; try reflexivity.
    destruct obj as [index values|index columns values]; [reflexivity|].
    destruct (reindex_axis _ _ 0) as [obj'|e] eqn:Er; [|reflexivity].
    cbn [reindex_axis Z.eqb] in Er. inv Er.
    eapply nested_scalar_call_agree; [reflexivity|].
    unfold contains. rewrite _safe_append_to_index_labels.
    rewrite existsb_app. cbn [existsb]. rewrite scalar_eqb_refl.
    rewrite orb_true_r. reflexivity.
  - assert (Hlen : len t <= ndim obj).
    { destruct key as [k|tk]; cbn [resolve_key] in E.
      - destruct (_convert_to_indexer self obj k 0 true); discriminate.
      - destruct (ndim obj <? len tk) eqn:El; [discriminate|].
        apply Z.ltb_ge in El.
        destruct (_convert_tuple self obj tk true) as [t'|e] eqn:Ec;
          [|discriminate].
        inv E. unfold _convert_tuple in Ec.
        assert (Hl : List.length t = List.length (enumerate tk)).
        { clear -Ec. revert t Ec. generalize (enumerate tk).
          induction l as [|x l IH]; intros t Ec; simpl in Ec.
          - inv Ec. reflexivity.
          - destruct (_convert_to_indexer self obj (snd x) (fst x) true);
              [|discriminate].
            cbn [bind] in Ec. destruct (mapM _ l) as [t'|e]; [|discriminate].
            inv Ec. simpl. f_equal. apply IH. reflexivity. }
        assert (Hl' : List.length (enumerate tk) = List.length tk).
        { rewrite <- (map_snd_enumerate_from tk 0) at 2.
          rewrite length_map. reflexivity. }
        unfold len in *. lia. }
    rewrite (enlarge_tuple_agree (setitem_body rec1) (setitem_body rec2));
      [reflexivity| |intros x Hx; exact Hx].
    intros index columns values k Hin Hc.
    destruct obj as [oi ov|oi oc ov]; cbn [ndim] in Hlen.
    + exfalso. eapply first_entry_only; eassumption.
    + destruct (second_entry_of_a_pair t (IDict k) Hlen Hin) as [j0 ->].
      unfold _convert_from_missing_indexer_tuple.
      cbn [map key_of_indexer].
      apply nested_tuple_call_agree. exact Hc.
Qed.

(** X9.  The calls of [__setitem__] nest at most twice: a call enters
    [__setitem__] again only after it has added the label its key names,
    and the nested call, finding that label, does not enter it a third
    time.  So for every target, key and value the outcome is the same
    for every depth of nesting allowed from two on, and the bound on the
    depth is never what an assignment fails with. *)
Theorem setitem_nests_at_most_twice (fuel : nat) (self : accessor)
    (obj : NDFrame) (key : key) (value : rhs) :
  (2 <= fuel)%nat ->
  setitem_rec fuel self obj key value = __setitem__ self obj key value.
Proof.
  intro Hfuel. destruct fuel as [|[|fuel]]; [lia|lia|].
  unfold __setitem__, setitem_depth. cbn [setitem_rec].
  apply setitem_body_twice.
Qed.

Lemma setitem_nests_at_most_twice_witness :
  let df := DataFrame (Index_of [SStr "r0"; SStr "r1"])
              (Index_of [SStr "A"; SStr "B"])
              [[Num 1; Num 2]; [Num 3; Num 4]] in
  let key := KTuple [KScalar (SStr "r2"); KScalar (SStr "C")] in
  setitem_rec 2 ix df key (RScalar (Num 9))
  = __setitem__ ix df key (RScalar (Num 9)).
Proof.
  intros df key.
  apply (setitem_nests_at_most_twice 2 ix df key (RScalar (Num 9))).
  lia.
Defined.

(** ** Enlargement through a tuple key *)

Lemma norm_pos_in_range (n p : Z) : 0 <= p < n -> norm_pos n p = Ok p.
Proof.
  intro H. unfold norm_pos.
  assert (E1 : (p <? 0) = false) by (apply Z.ltb_ge; lia).
  assert (E2 : (n <=? p) = false) by (apply Z.leb_gt; lia).
  rewrite E1. cbv zeta. rewrite E1, E2. reflexivity.
Qed.

Lemma map_snd_fun_enumerate_from {A B} (f : A -> B) (l : list A) (p : Z) :
  map (fun ia => f (snd ia)) (enumerate_from p l) = map f l.
Proof.
  revert p. induction l as [|a l IH]; intros p; simpl.
  - reflexivity.
  - rewrite IH. reflexivity.
Qed.

Lemma write_appended_column (rows : list (list cell)) (p q : Z) (v : cell) :
  Forall (fun row => len row = q) rows ->
  write_cells [((p, q), v)] (map (fun row => row ++ [NaN]) rows)
  = map (fun ir => snd ir ++ [if p =? fst ir then v else NaN])
        (enumerate rows).
Proof.
  intro Hrows.
  change [((p, q), v)] with (map (fun x : Z * Z => (x, v)) [(p, q)]).
  rewrite write_cells_scalar.
  assert (H : forall s,
            map (fun ir : Z * list cell =>
                   map (fun jc : Z * cell =>
                          if existsb (at_cell (fst ir) (fst jc)) [(p, q)]
                          then v else snd jc)
                       (enumerate_from 0 (snd ir)))
                (enumerate_from s (map (fun row => row ++ [NaN]) rows))
            = map (fun ir => snd ir ++ [if p =? fst ir then v else NaN])
                  (enumerate_from s rows)).
  { induction Hrows as [|row rows Hrow _ IH]; intros s.
    - reflexivity.
    - cbn [map enumerate_from fst snd]. rewrite IH. f_equal.
      rewrite enumerate_from_app, map_app. f_equal.
      + rewrite (map_enumerate_from_ext _ (fun jc => snd jc)).
        * apply map_snd_enumerate_from.
        * intros j c Hj. cbn [existsb fst snd]. unfold at_cell.
          cbn [fst snd].
          assert (E : (q =? j) = false) by (apply Z.eqb_neq; lia).
          rewrite E, andb_false_r. reflexivity.
      + cbn [enumerate_from map existsb fst snd]. unfold at_cell.
        cbn [fst snd].
        replace (q =? 0 + len row) with true
          by (symmetry; apply Z.eqb_eq; lia).
        rewrite andb_true_r, orb_false_r. reflexivity. }
  apply H.
Qed.

Lemma append_keeps_lookup (ax : Index) (k : scalar) :
  is_bool k = false ->
  is_integer k && negb (_is_integer_index ax) = false ->
  is_integer k && negb (_is_integer_index (_safe_append_to_index ax k)) = false.
Proof.
  intros Hb H. destruct k as [z|s|b]; [|reflexivity|discriminate].
  cbn [is_integer] in *.
  destruct (_is_integer_index ax) eqn:E; [|discriminate].
  rewrite _safe_append_to_index_integer by exact E. reflexivity.
Qed.

Lemma get_loc_appended (ax : Index) (k : scalar) :
  contains ax k = false ->
  get_loc (_safe_append_to_index ax k) k = Ok (LocPos (len (ilabels ax))).
Proof.
  intro H. unfold get_loc. rewrite _safe_append_to_index_labels.
  rewrite positions_of_appended by exact H. reflexivity.
Qed.

Lemma setitem_cell
    (rec : accessor -> NDFrame -> key -> rhs -> NDFrame * res unit)
    (self : accessor) (index columns : Index) (values : list (list cell))
    (a b : akey) (p q : Z) (v : cell) :
  self <> iloc ->
  _convert_to_indexer self (DataFrame index columns values) a 0 true
  = Ok (IInt p) ->
  _convert_to_indexer self (DataFrame index columns values) b 1 true
  = Ok (IInt q) ->
  0 <= p < len values -> 0 <= q < len (ilabels columns) ->
  setitem_body rec self (DataFrame index columns values) (KTuple [a; b])
    (RScalar v)
  = (DataFrame index columns (write_cells [((p, q), v)] values), Ok tt).
Proof.
  intros Hself Ha Hb Hp Hq. unfold setitem_body. cbn [resolve_key].
  change (ndim (DataFrame index columns values) <? len [a; b]) with false.
  cbv iota. unfold _convert_tuple, enumerate.
  cbn [enumerate_from mapM fst snd]. change (0 + 1) with 1.
  rewrite Ha, Hb. cbn [bind].
  rewrite _setitem_with_indexer_no_missing by (reflexivity || exact I).
  replace (_has_valid_setitem_indexer self (DataFrame index columns values)
             (ITuple [IInt p; IInt q]))
    with (Ok (A:=bool) true)
    by (destruct self; try reflexivity; congruence).
  unfold set_values. cbn [_maybe_convert_ix forallb andb bind].
  unfold data_setitem. cbn [target_cells select1].
  rewrite (norm_pos_in_range _ _ Hp), (norm_pos_in_range _ _ Hq).
  reflexivity.
Qed.

(** X10.  A scalar written through [ix] or [loc] at an existing row and a
    column label that is new (the row axis not integer-labelled, so that
    a position on it is not read as a label): the column is appended at
    the end under the new label, filled with the missing value, and the
    cell of the row receives the scalar; the row labels and all other
    cells are unchanged. *)
Theorem write_to_new_column_of_an_existing_row (self : accessor)
    (index columns : Index) (values : list (list cell)) (r c : scalar)
    (p : Z) (v : cell) :
  self <> iloc ->
  well_formed (DataFrame index columns values) = true ->
  _is_integer_index index = false ->
  is_integer r = false ->
  positions_of r (ilabels index) = [p] ->
  contains columns c = false ->
  is_bool c = false ->
  is_integer c && negb (_is_integer_index columns) = false ->
  exists columns',
    __setitem__ self (DataFrame index columns values)
      (KTuple [KScalar r; KScalar c]) (RScalar v)
    = (DataFrame index columns'
         (map (fun ir => snd ir ++ [if p =? fst ir then v else NaN])
              (enumerate values)), Ok tt) /\
    ilabels columns' = ilabels columns ++ [c].
Proof.
  intros Hself Hwf Hidx Hr Hpos Habs Hbool Hlook.
  cbn [well_formed] in Hwf. apply andb_true_iff in Hwf.
  destruct Hwf as [Hlen Hrows]. apply Nat.eqb_eq in Hlen.
  assert (Hp : 0 <= p < len values).
  { destruct (positions_from_head r (ilabels index) 0 p [] Hpos) as [H _].
    unfold len in *. lia. }
  assert (Hrows' : Forall (fun row => len row = len (ilabels columns)) values).
  { apply Forall_forall. intros row Hin. rewrite forallb_forall in Hrows.
    specialize (Hrows row Hin). apply Nat.eqb_eq in Hrows. unfold len.
    congruence. }
  set (columns' := _safe_append_to_index columns c).
  exists columns'. split; [|apply _safe_append_to_index_labels].
  set (df := DataFrame index columns values).
  assert (Hres0 : _convert_to_indexer self df (KScalar r) 0 true
                  = Ok (IInt p)).
  { rewrite (resolver_present_key self df 0 index r (LocPos p) true);
      [reflexivity|exact Hself|reflexivity|rewrite Hr; reflexivity|].
    unfold get_loc. rewrite Hpos. reflexivity. }
  assert (Hres1 : _convert_to_indexer self df (KScalar c) 1 true
                  = Ok (IDict c)).
  { rewrite (resolver_absent_key self df 1 columns c true);
      [reflexivity|exact Hself|reflexivity|exact Hlook|exact Habs]. }
  unfold __setitem__, setitem_depth. cbn [setitem_rec].
  unfold setitem_body at 1. cbn [resolve_key].
  change (ndim df <? len [KScalar r; KScalar c]) with false. cbv iota.
  unfold _convert_tuple, enumerate. cbn [enumerate_from mapM fst snd].
  change (0 + 1) with 1. rewrite Hres0, Hres1. cbn [bind].
  unfold _setitem_with_indexer.
  replace (_has_valid_setitem_indexer self df (ITuple [IInt p; IDict c]))
    with (Ok (A:=bool) true)
    by (destruct self; try reflexivity; congruence).
  unfold enumerate. cbn [enumerate_from enlarge_tuple app].
  unfold _convert_missing_indexer. rewrite Hbool.
  change (0 + 1) with 1. cbn [ndim df _info_axis_number Z.ltb Z.eqb
    Z.compare Pos.compare Pos.compare_cont andb Pos.eqb].
  unfold setitem_nan, df. rewrite Habs. fold columns'.
  unfold _convert_from_missing_indexer_tuple. cbn [map key_of_indexer].
  rewrite (setitem_cell _ loc index columns'
             (map (fun row => row ++ [NaN]) values)
             (KScalar (SInt p)) (KScalar c) p (len (ilabels columns))).
  - rewrite write_appended_column by exact Hrows'. reflexivity.
  - discriminate.
  - unfold _convert_to_indexer, NDFrameIndexer._convert_to_indexer.
    cbn [_get_axis axes nth_error Z.to_nat Z.ltb Z.compare bind integer_key].
    rewrite Hidx. reflexivity.
  - rewrite (resolver_present_key loc _ 1 columns' c
               (LocPos (len (ilabels columns))) true);
      [reflexivity|discriminate|reflexivity| |].
    + apply append_keeps_lookup; assumption.
    + apply get_loc_appended. exact Habs.
  - unfold len in *. rewrite length_map. exact Hp.
  - unfold columns'. rewrite _safe_append_to_index_labels, len_app.
    pose proof (len_nonneg (ilabels columns)). change (len [c]) with 1. lia.
Qed.

Lemma write_to_new_column_witness :
  let df := DataFrame (Index_of [SStr "r0"; SStr "r1"])
              (Index_of [SStr "A"; SStr "B"])
              [[Num 1; Num 2]; [Num 3; Num 4]] in
  exists columns',
    __setitem__ ix df (KTuple [KScalar (SStr "r1"); KScalar (SStr "C")])
      (RScalar (Num 9))
    = (DataFrame (Index_of [SStr "r0"; SStr "r1"]) columns'
         [[Num 1; Num 2; NaN]; [Num 3; Num 4; Num 9]], Ok tt) /\
    ilabels columns' = [SStr "A"; SStr "B"; SStr "C"].
Proof.
  intro df.
  apply (write_to_new_column_of_an_existing_row ix
           (Index_of [SStr "r0"; SStr "r1"]) (Index_of [SStr "A"; SStr "B"])
           [[Num 1; Num 2]; [Num 3; Num 4]] (SStr "r1") (SStr "C") 1 (Num 9));
    try reflexivity; discriminate.
Defined.

(** X11.  A scalar written through [ix] or [loc] at a row label and a
    column label that are both new: both axes grow by one label, at the
    end; the new cell holds the scalar, the rest of the new row and of
    the new column hold the missing value, and every cell that was there
    is unchanged. *)
Theorem write_to_new_row_and_new_column (self : accessor)
    (index columns : Index) (values : list (list cell)) (r c : scalar)
    (v : cell) :
  self <> iloc ->
  well_formed (DataFrame index columns values) = true ->
  is_unique index = true ->
  contains index r = false ->
  is_bool r = false ->
  is_integer r && negb (_is_integer_index index) = false ->
  contains columns c = false ->
  is_bool c = false ->
  is_integer c && negb (_is_integer_index columns) = false ->
  exists index' columns',
    __setitem__ self (DataFrame index columns values)
      (KTuple [KScalar r; KScalar c]) (RScalar v)
    = (DataFrame index' columns'
         (map (fun row => row ++ [NaN]) values ++
          [map (fun _ => NaN) (ilabels columns) ++ [v]]), Ok tt) /\
    ilabels index' = ilabels index ++ [r] /\
    ilabels columns' = ilabels columns ++ [c].
Proof.
  intros Hself Hwf Huniq Hrabs Hrbool Hrlook Hcabs Hcbool Hclook.
  cbn [well_formed] in Hwf. apply andb_true_iff in Hwf.
  destruct Hwf as [Hlen Hrows]. apply Nat.eqb_eq in Hlen.
  set (nanrow := map (fun _ : scalar => NaN) (ilabels columns)).
  assert (Hrows' : Forall (fun row => len row = len (ilabels columns))
                     (values ++ [nanrow])).
  { apply Forall_app. split.
    - apply Forall_forall. intros row Hin. rewrite forallb_forall in Hrows.
      specialize (Hrows row Hin). apply Nat.eqb_eq in Hrows. unfold len.
      congruence.
    - constructor; [|constructor]. unfold nanrow, len.
      rewrite length_map. reflexivity. }
  set (index' := _safe_append_to_index index r).
  set (columns' := _safe_append_to_index columns c).
  exists index', columns'.
  split; [|split; apply _safe_append_to_index_labels].
  set (df := DataFrame index columns values).
  assert (Hres0 : _convert_to_indexer self df (KScalar r) 0 true
                  = Ok (IDict r)).
  { rewrite (resolver_absent_key self df 0 index r true);
      [reflexivity|exact Hself|reflexivity|exact Hrlook|exact Hrabs]. }
  assert (Hres1 : _convert_to_indexer self df (KScalar c) 1 true
                  = Ok (IDict c)).
  { rewrite (resolver_absent_key self df 1 columns c true);
      [reflexivity|exact Hself|reflexivity|exact Hclook|exact Hcabs]. }
  unfold __setitem__, setitem_depth. cbn [setitem_rec].
  unfold setitem_body at 1. cbn [resolve_key].
  change (ndim df <? len [KScalar r; KScalar c]) with false. cbv iota.
  unfold _convert_tuple, enumerate. cbn [enumerate_from mapM fst snd].
  change (0 + 1) with 1. rewrite Hres0, Hres1. cbn [bind].
  unfold _setitem_with_indexer.
  replace (_has_valid_setitem_indexer self df (ITuple [IDict r; IDict c]))
    with (Ok (A:=bool) true)
    by (destruct self; try reflexivity; congruence).
  unfold enumerate. cbn [enumerate_from enlarge_tuple app].
  unfold _convert_missing_indexer. rewrite Hrbool, Hcbool.
  change (0 + 1) with 1. cbn [ndim df _info_axis_number Z.ltb Z.eqb
    Z.compare Pos.compare Pos.compare_cont andb Pos.eqb].
  unfold df at 1. cbn [_get_axis axes nth_error Z.to_nat].
  change (0 <? 0) with false. cbv beta iota.
  fold index'. unfold df. cbn [reindex_axis Z.eqb].
  replace (reindex_values (map (fun _ : scalar => NaN) (ilabels columns))
             (ilabels index) values (ilabels index'))
    with (values ++ [nanrow]).
  2:{ unfold index'. rewrite _safe_append_to_index_labels.
      symmetry. apply reindex_values_enlarged.
      - unfold is_unique in Huniq. apply negb_true_iff in Huniq. exact Huniq.
      - exact Hrabs.
      - exact Hlen. }
  unfold index' at 1. rewrite (get_loc_appended index r Hrabs).
  fold index'. cbn [_info_axis_number Z.eqb Pos.eqb andb].
  unfold setitem_nan. rewrite Hcabs. fold columns'.
  unfold _convert_from_missing_indexer_tuple. cbn [map key_of_indexer].
  rewrite (setitem_cell _ loc index' columns'
             (map (fun row => row ++ [NaN]) (values ++ [nanrow]))
             (KScalar r) (KScalar c) (len (ilabels index))
             (len (ilabels columns))).
  - rewrite write_appended_column by exact Hrows'.
    unfold enumerate. rewrite enumerate_from_app, map_app.
    cbn [enumerate_from map fst snd].
    replace (len (ilabels index) =? 0 + len values) with true
      by (symmetry; apply Z.eqb_eq; unfold len; lia).
    rewrite (map_enumerate_from_ext _ (fun ir => snd ir ++ [NaN])).
    + rewrite (map_snd_fun_enumerate_from (fun row => row ++ [NaN])).
      reflexivity.
    + intros i row Hi. cbn [fst snd].
      replace (len (ilabels index) =? i) with false
        by (symmetry; apply Z.eqb_neq; unfold len in *; lia).
      reflexivity.
  - discriminate.
  - rewrite (resolver_present_key loc _ 0 index' r
               (LocPos (len (ilabels index))) true);
      [reflexivity|discriminate|reflexivity| |].
    + apply append_keeps_lookup; assumption.
    + apply get_loc_appended. exact Hrabs.
  - rewrite (resolver_present_key loc _ 1 columns' c
               (LocPos (len (ilabels columns))) true);
      [reflexivity|discriminate|reflexivity| |].
    + apply append_keeps_lookup; assumption.
    + apply get_loc_appended. exact Hcabs.
  - unfold len. rewrite length_map, length_app. simpl. lia.
  - unfold columns'. rewrite _safe_append_to_index_labels, len_app.
    pose proof (len_nonneg (ilabels columns)). change (len [c]) with 1. lia.
Qed.

Lemma write_to_new_row_and_new_column_witness :
  let df := DataFrame (Index_of [SStr "r0"; SStr "r1"])
              (Index_of [SStr "A"; SStr "B"])
              [[Num 1; Num 2]; [Num 3; Num 4]] in
  exists index' columns',
    __setitem__ loc df (KTuple [KScalar (SStr "r2"); KScalar (SStr "C")])
      (RScalar (Num 9))
    = (DataFrame index' columns'
         [[Num 1; Num 2; NaN]; [Num 3; Num 4; NaN]; [NaN; NaN; Num 9]],
       Ok tt) /\
    ilabels index' = [SStr "r0"; SStr "r1"; SStr "r2"] /\
    ilabels columns' = [SStr "A"; SStr "B"; SStr "C"].
Proof.
  intro df.
  apply (write_to_new_row_and_new_column loc
           (Index_of [SStr "r0"; SStr "r1"]) (Index_of [SStr "A"; SStr "B"])
           [[Num 1; Num 2]; [Num 3; Num 4]] (SStr "r2") (SStr "C") (Num 9));
    try reflexivity; discriminate.
Defined.

Lemma write_last_row_cell (values : list (list cell)) (row : list cell)
    (q : Z) (v : cell) :
  write_cells [((len values, q), v)] (values ++ [row])
  = values ++ [map (fun jc => if q =? fst jc then v else snd jc)
                   (enumerate row)].
Proof.
  change [((len values, q), v)]
    with (map (fun x : Z * Z => (x, v)) [(len values, q)]).
  rewrite write_cells_scalar. unfold enumerate at 2.
  rewrite enumerate_from_app, map_app. f_equal.
  - rewrite (map_enumerate_from_ext _ (fun ir => snd ir)).
    + apply map_snd_enumerate_from.
    + intros i row' Hi. cbn [fst snd]. unfold enumerate.
      rewrite (map_enumerate_from_ext _ (fun jc => snd jc)).
      * apply map_snd_enumerate_from.
      * intros j c _. cbn [existsb fst snd]. unfold at_cell. cbn [fst snd].
        replace (len values =? i) with false
          by (symmetry; apply Z.eqb_neq; lia).
        reflexivity.
  - cbn [enumerate_from map fst snd]. f_equal.
    apply map_enumerate_from_ext. intros j c _.
    cbn [existsb fst snd]. unfold at_cell. cbn [fst snd].
    replace (len values =? 0 + len values) with true
      by (symmetry; apply Z.eqb_eq; lia).
    rewrite orb_false_r. reflexivity.
Qed.

Lemma enumerate_from_const_row {A} (l : list A) (s q : Z) (v : cell) :
  map (fun jc => if q =? fst jc then v else snd jc)
      (enumerate_from s (map (fun _ => NaN) l))
  = map (fun jc => if q =? fst jc then v else NaN) (enumerate_from s l).
Proof.
  revert s. induction l as [|a l IH]; intros s; simpl.
  - reflexivity.
  - rewrite IH. reflexivity.
Qed.

Lemma setitem_new_row_cell
    (rec : accessor -> NDFrame -> key -> rhs -> NDFrame * res unit)
    (self : accessor) (index columns : Index) (values : list (list cell))
    (r : scalar) (b : akey) (q : Z) (v : cell) :
  self <> iloc ->
  List.length values = List.length (ilabels index) ->
  is_unique index = true ->
  contains index r = false ->
  is_bool r = false ->
  is_integer r && negb (_is_integer_index index) = false ->
  _convert_to_indexer self (DataFrame index columns values) b 1 true
  = Ok (IInt q) ->
  0 <= q < len (ilabels columns) ->
  setitem_body rec self (DataFrame index columns values)
    (KTuple [KScalar r; b]) (RScalar v)
  = (DataFrame (_safe_append_to_index index r) columns
       (values ++ [map (fun jc => if q =? fst jc then v else NaN)
                       (enumerate (ilabels columns))]), Ok tt).
Proof.
  intros Hself Hlen Huniq Hrabs Hrbool Hrlook Hb Hq.
  set (df := DataFrame index columns values).
  set (index' := _safe_append_to_index index r).
  set (nanrow := map (fun _ : scalar => NaN) (ilabels columns)).
  assert (Hres0 : _convert_to_indexer self df (KScalar r) 0 true
                  = Ok (IDict r)).
  { rewrite (resolver_absent_key self df 0 index r true);
      [reflexivity|exact Hself|reflexivity|exact Hrlook|exact Hrabs]. }
  unfold setitem_body. cbn [resolve_key].
  change (ndim df <? len [KScalar r; b]) with false. cbv iota.
  unfold _convert_tuple, enumerate. cbn [enumerate_from mapM fst snd].
  change (0 + 1) with 1. rewrite Hres0. fold df in Hb. rewrite Hb.
  cbn [bind]. unfold _setitem_with_indexer.
  replace (_has_valid_setitem_indexer self df (ITuple [IDict r; IInt q]))
    with (Ok (A:=bool) true)
    by (destruct self; try reflexivity; congruence).
  unfold enumerate. cbn [enumerate_from enlarge_tuple app].
  unfold _convert_missing_indexer. rewrite Hrbool.
  cbn [ndim df _info_axis_number Z.ltb Z.eqb
    Z.compare Pos.compare Pos.compare_cont andb Pos.eqb].
  unfold df at 1. cbn [_get_axis axes nth_error Z.to_nat].
  change (0 <? 0) with false. cbv beta iota.
  fold index'. unfold df. cbn [reindex_axis Z.eqb].
  replace (reindex_values (map (fun _ : scalar => NaN) (ilabels columns))
             (ilabels index) values (ilabels index'))
    with (values ++ [nanrow]).
  2:{ unfold index'. rewrite _safe_append_to_index_labels.
      symmetry. apply reindex_values_enlarged.
      - unfold is_unique in Huniq. apply negb_true_iff in Huniq. exact Huniq.
      - exact Hrabs.
      - exact Hlen. }
  unfold index' at 1. rewrite (get_loc_appended index r Hrabs).
  fold index'. cbn [indexer_of_location app].
  unfold set_values. cbn [_maybe_convert_ix forallb andb bind].
  unfold data_setitem. cbn [target_cells select1].
  rewrite (norm_pos_in_range (len (values ++ [nanrow])) (len (ilabels index))).
  2:{ rewrite len_app. change (len [nanrow]) with 1. unfold len.
      rewrite Hlen. lia. }
  rewrite (norm_pos_in_range _ _ Hq). cbn [bind broadcast map].
  replace (len (ilabels index)) with (len values) by (unfold len; congruence).
  rewrite write_last_row_cell. unfold nanrow, enumerate.
  rewrite enumerate_from_const_row. reflexivity.
Qed.

(** X12.  A scalar written through [ix] or [loc] at a new row label and
    an existing column: the row axis grows by the new label, at the end;
    the new row holds the scalar in that column and the missing value in
    every other column, and the rows that were there are unchanged. *)
Theorem write_to_new_row_at_an_existing_column (self : accessor)
    (index columns : Index) (values : list (list cell)) (r c : scalar)
    (q : Z) (v : cell) :
  self <> iloc ->
  well_formed (DataFrame index columns values) = true ->
  is_unique index = true ->
  contains index r = false ->
  is_bool r = false ->
  is_integer r && negb (_is_integer_index index) = false ->
  positions_of c (ilabels columns) = [q] ->
  is_integer c && negb (_is_integer_index columns) = false ->
  exists index',
    __setitem__ self (DataFrame index columns values)
      (KTuple [KScalar r; KScalar c]) (RScalar v)
    = (DataFrame index' columns
         (values ++ [map (fun jc => if q =? fst jc then v else NaN)
                         (enumerate (ilabels columns))]), Ok tt) /\
    ilabels index' = ilabels index ++ [r].
Proof.
  intros Hself Hwf Huniq Hrabs Hrbool Hrlook Hpos Hclook.
  cbn [well_formed] in Hwf. apply andb_true_iff in Hwf.
  destruct Hwf as [Hlen _]. apply Nat.eqb_eq in Hlen.
  exists (_safe_append_to_index index r).
  split; [|apply _safe_append_to_index_labels].
  unfold __setitem__, setitem_depth. cbn [setitem_rec].
  apply setitem_new_row_cell; try assumption.
  - rewrite (resolver_present_key self _ 1 columns c (LocPos q) true);
      [reflexivity|exact Hself|reflexivity|exact Hclook|].
    unfold get_loc. rewrite Hpos. reflexivity.
  - destruct (positions_from_head c (ilabels columns) 0 q [] Hpos) as [H _].
    lia.
Qed.

Lemma write_to_new_row_witness :
  let df := DataFrame (Index_of [SStr "r0"; SStr "r1"])
              (Index_of [SStr "A"; SStr "B"])
              [[Num 1; Num 2]; [Num 3; Num 4]] in
  exists index',
    __setitem__ ix df (KTuple [KScalar (SStr "r2"); KScalar (SStr "B")])
      (RScalar (Num 9))
    = (DataFrame index' (Index_of [SStr "A"; SStr "B"])
         [[Num 1; Num 2]; [Num 3; Num 4]; [NaN; Num 9]], Ok tt) /\
    ilabels index' = [SStr "r0"; SStr "r1"; SStr "r2"].
Proof.
  intro df.
  apply (write_to_new_row_at_an_existing_column ix
           (Index_of [SStr "r0"; SStr "r1"]) (Index_of [SStr "A"; SStr "B"])
           [[Num 1; Num 2]; [Num 3; Num 4]] (SStr "r2") (SStr "B") 1 (Num 9));
    try reflexivity; discriminate.
Defined.

(** X13.  On an integer-labelled row axis a write at an existing row
    label and a new column label does not reach that row.  The column is
    appended, and the position [p] found for the row is handed to the
    nested [loc] assignment, which looks it up again as a label: when
    [p] is not a row label, a new row labelled [p] is appended and
    receives the scalar, and the addressed row holds the missing value
    in the new column. *)
Theorem new_column_on_integer_rows_rereads_the_position_as_a_label
    (self : accessor) (index columns : Index) (values : list (list cell))
    (r c : scalar) (p : Z) (v : cell) :
  self <> iloc ->
  well_formed (DataFrame index columns values) = true ->
  is_unique index = true ->
  _is_integer_index index = true ->
  positions_of r (ilabels index) = [p] ->
  contains index (SInt p) = false ->
  contains columns c = false ->
  is_bool c = false ->
  is_integer c && negb (_is_integer_index columns) = false ->
  exists index' columns',
    __setitem__ self (DataFrame index columns values)
      (KTuple [KScalar r; KScalar c]) (RScalar v)
    = (DataFrame index' columns'
         (map (fun row => row ++ [NaN]) values ++
          [map (fun _ => NaN) (ilabels columns) ++ [v]]), Ok tt) /\
    ilabels index' = ilabels index ++ [SInt p] /\
    ilabels columns' = ilabels columns ++ [c].
Proof.
  intros Hself Hwf Huniq Hint Hpos Hpabs Hcabs Hcbool Hclook.
  cbn [well_formed] in Hwf. apply andb_true_iff in Hwf.
  destruct Hwf as [Hlen _]. apply Nat.eqb_eq in Hlen.
  set (index' := _safe_append_to_index index (SInt p)).
  set (columns' := _safe_append_to_index columns c).
  exists index', columns'.
  split; [|split; apply _safe_append_to_index_labels].
  set (df := DataFrame index columns values).
  assert (Hres0 : _convert_to_indexer self df (KScalar r) 0 true
                  = Ok (IInt p)).
  { rewrite (resolver_present_key self df 0 index r (LocPos p) true);
      [reflexivity|exact Hself|reflexivity| |].
    - rewrite Hint. apply andb_false_r.
    - unfold get_loc. rewrite Hpos. reflexivity. }
  assert (Hres1 : _convert_to_indexer self df (KScalar c) 1 true
                  = Ok (IDict c)).
  { rewrite (resolver_absent_key self df 1 columns c true);
      [reflexivity|exact Hself|reflexivity|exact Hclook|exact Hcabs]. }
  unfold __setitem__, setitem_depth. cbn [setitem_rec].
  unfold setitem_body at 1. cbn [resolve_key].
  change (ndim df <? len [KScalar r; KScalar c]) with false. cbv iota.
  unfold _convert_tuple, enumerate. cbn [enumerate_from mapM fst snd].
  change (0 + 1) with 1. rewrite Hres0, Hres1. cbn [bind].
  unfold _setitem_with_indexer.
  replace (_has_valid_setitem_indexer self df (ITuple [IInt p; IDict c]))
    with (Ok (A:=bool) true)
    by (destruct self; try reflexivity; congruence).
  unfold enumerate. cbn [enumerate_from enlarge_tuple app].
  unfold _convert_missing_indexer. rewrite Hcbool.
  change (0 + 1) with 1. cbn [ndim df _info_axis_number Z.ltb Z.eqb
    Z.compare Pos.compare Pos.compare_cont andb Pos.eqb].
  unfold setitem_nan, df. rewrite Hcabs. fold columns'.
  unfold _convert_from_missing_indexer_tuple. cbn [map key_of_indexer].
  rewrite (setitem_new_row_cell _ loc index columns'
             (map (fun row => row ++ [NaN]) values) (SInt p) (KScalar c)
             (len (ilabels columns)) v).
  - fold index'.
    assert (Hrow : map (fun jc : Z * scalar =>
                          if len (ilabels columns) =? fst jc then v else NaN)
                       (enumerate (ilabels columns'))
                   = map (fun _ => NaN) (ilabels columns) ++ [v]).
    { unfold columns', enumerate. rewrite _safe_append_to_index_labels.
      rewrite enumerate_from_app, map_app. f_equal.
      - rewrite (map_enumerate_from_ext _ (fun _ => NaN)).
        + apply map_const_enumerate_from.
        + intros j k Hj. cbn [fst].
          replace (len (ilabels columns) =? j) with false
            by (symmetry; apply Z.eqb_neq; lia).
          reflexivity.
      - cbn [enumerate_from map fst].
        replace (len (ilabels columns) =? 0 + len (ilabels columns)) with true
          by (symmetry; apply Z.eqb_eq; lia).
        reflexivity. }
    rewrite Hrow. reflexivity.
  - discriminate.
  - rewrite length_map. exact Hlen.
  - exact Huniq.
  - exact Hpabs.
  - reflexivity.
  - rewrite Hint. reflexivity.
  - rewrite (resolver_present_key loc _ 1 columns' c
               (LocPos (len (ilabels columns))) true);
      [reflexivity|discriminate|reflexivity| |].
    + apply append_keeps_lookup; assumption.
    + apply get_loc_appended. exact Hcabs.
  - unfold columns'. rewrite _safe_append_to_index_labels, len_app.
    pose proof (len_nonneg (ilabels columns)). change (len [c]) with 1. lia.
Qed.

Lemma new_column_on_integer_rows_witness :
  let df := DataFrame (Index_of [SInt 10; SInt 20; SInt 30])
              (Index_of [SStr "A"])
              [[Num 1]; [Num 2]; [Num 3]] in
  exists index' columns',
    __setitem__ ix df (KTuple [KScalar (SInt 20); KScalar (SStr "C")])
      (RScalar (Num 9))
    = (DataFrame index' columns'
         [[Num 1; NaN]; [Num 2; NaN]; [Num 3; NaN]; [NaN; Num 9]], Ok tt) /\
    ilabels index' = [SInt 10; SInt 20; SInt 30; SInt 1] /\
    ilabels columns' = [SStr "A"; SStr "C"].
Proof.
  intro df.
  apply (new_column_on_integer_rows_rereads_the_position_as_a_label ix
           (Index_of [SInt 10; SInt 20; SInt 30]) (Index_of [SStr "A"])
           [[Num 1]; [Num 2]; [Num 3]] (SInt 20) (SStr "C") 1 (Num 9));
    try reflexivity; discriminate.
Defined.

(** ** Tuples with more entries than the object has axes *)

Lemma too_many_indexers_iloc (obj : NDFrame) (rest : list akey) (s : Z) :
  0 <= s <= ndim obj -> ndim obj < s + len rest ->
  exists e, _has_valid_tuple_loop iloc obj (enumerate_from s rest) = Raise e /\
            exn_cls e = ValueError.
Proof.
  revert s. induction rest as [|k rest IH]; intros s Hs Hlen.
  - unfold len in Hlen. simpl in Hlen. lia.
  - cbn [enumerate_from _has_valid_tuple_loop].
    destruct (ndim obj <=? s) eqn:E; [eexists; split; reflexivity|].
    apply Z.leb_gt in E. cbn [_has_valid_type bind].
    destruct (iLocIndexer._has_valid_type k s); cbn [negb];
      [|eexists; split; reflexivity].
    apply IH; [lia|]. rewrite len_cons in Hlen. lia.
Qed.

Lemma too_many_indexers_loc (obj : NDFrame) (rest : list akey) (s : Z) :
  0 <= s <= ndim obj -> ndim obj < s + len rest ->
  exists e, _has_valid_tuple_loop loc obj (enumerate_from s rest) = Raise e /\
            (exn_cls e = ValueError \/ exn_cls e = KeyError).
Proof.
  revert s. induction rest as [|k rest IH]; intros s Hs Hlen.
  - unfold len in Hlen. simpl in Hlen. lia.
  - cbn [enumerate_from _has_valid_tuple_loop].
    destruct (ndim obj <=? s) eqn:E; [eexists; split; [reflexivity|left; reflexivity]|].
    apply Z.leb_gt in E. cbn [_has_valid_type].
    assert (Hax : exists ax, _get_axis obj s = Ok ax).
    { destruct obj; cbn [ndim] in *.
      - assert (s = 0) by lia. subst. eexists. reflexivity.
      - assert (s = 0 \/ s = 1) as [->| ->] by lia; eexists; reflexivity. }
    destruct Hax as [ax Hax].
    assert (Hk : LocIndexer._has_valid_type obj k s = Ok true \/
                 exists e, LocIndexer._has_valid_type obj k s = Raise e /\
                           exn_cls e = KeyError).
    { unfold LocIndexer._has_valid_type. rewrite Hax. cbn [bind].
      destruct k as [x|sl|l].
      - destruct (len (ilabels ax) =? 0);
          [right; eexists; split; reflexivity|].
        destruct (negb (contains ax x));
          [right; eexists; split; reflexivity|left; reflexivity].
      - destruct (start sl) as [x|];
          [destruct (negb (contains ax x));
           [right; eexists; split; reflexivity|]|];
          cbn [bind];
          (destruct (stop sl) as [y|];
           [destruct (negb (contains ax y));
            [right; eexists; split; reflexivity|left; reflexivity]
           |left; reflexivity]).
      - destruct (_is_bool_indexer (KList l)); [left; reflexivity|].
        destruct (negb (forallb (contains ax) l));
          [right; eexists; split; reflexivity|left; reflexivity]. }
    destruct Hk as [Hk|[e [Hk He]]]; rewrite Hk; cbn [bind negb].
    + apply IH; [lia|]. rewrite len_cons in Hlen. lia.
    + eexists. split; [reflexivity|right; exact He].
Qed.

(** X14.  A read through [loc] or [iloc] with a tuple that has more
    entries than the object has axes never returns a value: [iloc]
    raises ValueError, [loc] raises ValueError or, when an earlier entry
    names an absent label, KeyError. *)
Theorem too_many_indexers_are_refused
    (gv : NDFrame -> list akey -> res cell)
    (gi : accessor -> NDFrame -> list scalar -> Z -> res value)
    (mt : accessor -> NDFrame -> list akey -> res value)
    (obj : NDFrame) (tup : list akey) :
  ndim obj < len tup ->
  (exists e, __getitem__ gv gi mt iloc obj (KTuple tup) = Raise e /\
             exn_cls e = ValueError) /\
  (exists e, __getitem__ gv gi mt loc obj (KTuple tup) = Raise e /\
             (exn_cls e = ValueError \/ exn_cls e = KeyError)).
Proof.
  intro Hlen.
  assert (Hdim : 0 <= 0 <= ndim obj) by (destruct obj; simpl; lia).
  split.
  - destruct (too_many_indexers_iloc obj tup 0 Hdim ltac:(lia)) as [e [He Hc]].
    exists e. split; [|exact Hc].
    unfold __getitem__. cbn [key_size]. 
    replace (2 * List.length tup + 2)%nat
      with (S (2 * List.length tup + 1)) by lia.
    rewrite getitem_rec_S. cbn [getitem_body]. unfold _getitem_tuple.
    unfold _has_valid_tuple. cbn [is_location_indexer]. unfold enumerate.
    rewrite He. reflexivity.
  - destruct (too_many_indexers_loc obj tup 0 Hdim ltac:(lia)) as [e [He Hc]].
    exists e. split; [|exact Hc].
    unfold __getitem__. cbn [key_size].
    replace (2 * List.length tup + 2)%nat
      with (S (2 * List.length tup + 1)) by lia.
    rewrite getitem_rec_S. cbn [getitem_body]. unfold _getitem_tuple.
    unfold _getitem_lowerdim.
    replace (ndim obj <? len tup) with true
      by (symmetry; apply Z.ltb_lt; exact Hlen).
    cbn [try_except exn_cls only exn_class_eqb].
    unfold _has_valid_tuple. cbn [is_location_indexer]. unfold enumerate.
    rewrite He. reflexivity.
Qed.

Lemma too_many_indexers_witness :
  let s := Series (Index_of [SStr "a"; SStr "b"]) [Num 1; Num 2] in
  exists e,
    __getitem__ no_get_value no_getitem_iterable no_multi_take iloc s
      (KTuple [KScalar (SInt 0); KScalar (SInt 0)]) = Raise e /\
    exn_cls e = ValueError.
Proof.
  intro s.
  destruct (too_many_indexers_are_refused no_get_value no_getitem_iterable
              no_multi_take s [KScalar (SInt 0); KScalar (SInt 0)]) as [H _].
  - reflexivity.
  - exact H.
Defined.

Lemma lowerdim_loop_of_lists
    (gi : accessor -> NDFrame -> list scalar -> Z -> res value)
    (rec : accessor -> NDFrame -> key -> res value)
    (self : accessor) (obj : NDFrame) (tup : list akey)
    (rest : list (list scalar)) (s : Z) :
  _getitem_lowerdim_loop gi rec self obj tup
    (enumerate_from s (map KList rest))
  = Raise (Exn IndexingError "not applicable").
Proof.
  revert s. induction rest as [|l rest IH]; intros s.
  - reflexivity.
  - cbn [map enumerate_from _getitem_lowerdim_loop _is_label_like
         _is_list_like negb]. apply IH.
Qed.

Lemma lists_of_lists (tup : list (list scalar)) :
  lists_of (map KList tup) = tup.
Proof.
  induction tup as [|l tup IH]; [reflexivity|].
  unfold lists_of in *. cbn [map flat_map app]. rewrite IH. reflexivity.
Qed.

Lemma zip_surplus {A B} (l : list A) (l1 l2 : list B) :
  List.length l1 = List.length l -> zip l (l1 ++ l2) = zip l l1.
Proof.
  revert l1. induction l as [|a l IH]; intros l1 H.
  - destruct l1; [destruct l2; reflexivity|discriminate].
  - destruct l1 as [|b l1]; [discriminate|].
    cbn [app zip]. rewrite IH; [reflexivity|]. simpl in H. lia.
Qed.

(** X15.  A read through [ix] with a tuple of lists is the reindexing
    read [_multi_take] of these lists, which pairs them with the axes of
    the object: the lists beyond the number of axes are ignored, and no
    error reports them. *)
Theorem ix_ignores_surplus_lists
    (gv : NDFrame -> list akey -> res cell)
    (gi : accessor -> NDFrame -> list scalar -> Z -> res value)
    (obj : NDFrame) (ls extra : list (list scalar)) :
  len ls = ndim obj ->
  (exists e, gv obj (map KList (ls ++ extra)) = Raise e) ->
  __getitem__ gv gi multi_take ix obj (KTuple (map KList (ls ++ extra)))
  = _multi_take ix obj ls.
Proof.
  intros Hlen [e Hgv].
  unfold __getitem__. cbn [key_size].
  replace (2 * List.length (map KList (ls ++ extra)) + 2)%nat
    with (S (2 * List.length (map KList (ls ++ extra)) + 1)) by lia.
  rewrite getitem_rec_S. cbn [getitem_body]. rewrite Hgv.
  unfold _getitem_tuple.
  assert (Hlow : forall rec,
            exists e', _getitem_lowerdim gi rec ix obj
                         (map KList (ls ++ extra)) = Raise e' /\
                       exn_cls e' = IndexingError).
  { intro rec. unfold _getitem_lowerdim.
    destruct (ndim obj <? len (map KList (ls ++ extra)));
      [eexists; split; reflexivity|].
    unfold enumerate. rewrite lowerdim_loop_of_lists.
    eexists; split; reflexivity. }
  destruct (Hlow (getitem_rec gv gi multi_take
                    (2 * List.length (map KList (ls ++ extra)) + 1)))
    as [e' [He' Hc]].
  rewrite He'. unfold try_except, only. rewrite Hc.
  cbn [exn_class_eqb _has_valid_tuple is_location_indexer bind].
  unfold _multi_take_opportunity.
  replace (forallb _is_list_like (map KList (ls ++ extra))) with true.
  2:{ symmetry. apply forallb_forall. intros x Hx.
      apply in_map_iff in Hx. destruct Hx as [l [<- _]]. reflexivity. }
  unfold multi_take. rewrite lists_of_lists. unfold _multi_take.
  rewrite zip_surplus; [reflexivity|].
  unfold len in Hlen. unfold zrange. rewrite length_map, length_seq.
  destruct obj; cbn [ndim] in *; simpl; lia.
Qed.

Lemma ix_ignores_surplus_lists_witness :
  let s := Series (Index_of [SStr "a"; SStr "b"]) [Num 1; Num 2] in
  __getitem__ no_get_value no_getitem_iterable multi_take ix s
    (KTuple [KList [SStr "b"]; KList [SStr "junk"]])
  = Ok (VObj (Series (Index_of [SStr "b"]) [Num 2])).
Proof.
  intro s.
  change (KTuple [KList [SStr "b"]; KList [SStr "junk"]])
    with (KTuple (map KList ([[SStr "b"]] ++ [[SStr "junk"]]))).
  rewrite (ix_ignores_surplus_lists no_get_value no_getitem_iterable s
             [[SStr "b"]] [[SStr "junk"]]).
  - reflexivity.
  - reflexivity.
  - eexists. reflexivity.
Defined.

(** ** Reads of a list of labels *)

(** X16.  A list of labels read through [loc] is validated only inside
    a tuple.  Given alone, a list that names an absent label is not
    refused: the read reindexes, and the result carries exactly the
    labels of the list (the axis and the list being free of
    repetitions).  The same list as the only entry of a tuple raises
    KeyError. *)
Theorem loc_list_alone_is_not_validated
    (gv : NDFrame -> list akey -> res cell)
    (mt : accessor -> NDFrame -> list akey -> res value)
    (mm : NDFrame -> Z -> list scalar -> list Z -> list Z -> res value)
    (obj : NDFrame) (index : Index) (l : list scalar) :
  _get_axis obj 0 = Ok index ->
  is_unique index = true ->
  has_dups l = false ->
  _is_bool_indexer (KList l) = false ->
  as_int_array l = None ->
  forallb (contains index) l = false ->
  (exists o,
     __getitem__ gv (_getitem_iterable mm) mt loc obj (K (KList l))
     = Ok (VObj o) /\
     _get_axis o 0 = Ok (Index_of l)) /\
  __getitem__ gv (_getitem_iterable mm) mt loc obj (KTuple [KList l])
  = Raise (Exn KeyError "are not in ALL in the axis").
Proof.
  intros Hax Huniq Hdups Hbool Hint Habs. split.
  - assert (Hre : exists o, reindex_axis obj (Index_of l) 0 = Ok o /\
                            _get_axis o 0 = Ok (Index_of l))
      by (destruct obj; eexists; split; reflexivity).
    destruct Hre as [o [Hre Ho]]. exists o. split; [|exact Ho].
    unfold __getitem__. cbn [key_size getitem_rec getitem_body].
    unfold _getitem_axis. rewrite Hax. cbn [bind]. rewrite Hbool.
    unfold _getitem_iterable. rewrite Hax. cbn [bind]. rewrite Hbool, Hint.
    rewrite Huniq, Hdups. cbn [negb andb]. rewrite Hre. reflexivity.
  - unfold __getitem__. cbn [key_size List.length Nat.mul Nat.add].
    rewrite getitem_rec_S. cbn [getitem_body]. unfold _getitem_tuple.
    unfold _getitem_lowerdim.
    replace (ndim obj <? len [KList l]) with false
      by (destruct obj; reflexivity).
    unfold enumerate.
    cbn [enumerate_from _getitem_lowerdim_loop _is_label_like _is_list_like
         negb try_except exn_cls only exn_class_eqb].
    unfold _has_valid_tuple. cbn [is_location_indexer]. unfold enumerate.
    cbn [enumerate_from _has_valid_tuple_loop].
    replace (ndim obj <=? 0) with false by (destruct obj; reflexivity).
    cbn [_has_valid_type]. unfold LocIndexer._has_valid_type.
    rewrite Hax. cbn [bind]. rewrite Hbool, Habs. reflexivity.
Qed.

Lemma loc_list_alone_witness :
  let s := Series (Index_of [SStr "a"; SStr "b"]) [Num 1; Num 2] in
  let mm := fun (_ : NDFrame) (_ : Z) (_ : list scalar) (_ _ : list Z) =>
              Raise (A:=value) (Exn NotImplementedError "") in
  (exists o,
     __getitem__ no_get_value (_getitem_iterable mm) no_multi_take loc s
       (K (KList [SStr "b"; SStr "z"])) = Ok (VObj o) /\
     _get_axis o 0 = Ok (Index_of [SStr "b"; SStr "z"])) /\
  __getitem__ no_get_value (_getitem_iterable mm) no_multi_take loc s
    (KTuple [KList [SStr "b"; SStr "z"]])
  = Raise (Exn KeyError "are not in ALL in the axis").
Proof.
  intros s mm.
  apply (loc_list_alone_is_not_validated no_get_value no_multi_take mm s
           (Index_of [SStr "a"; SStr "b"]) [SStr "b"; SStr "z"]);
    reflexivity.
Defined.

(** ** The length of a slice indexer *)

Lemma len_zrange (a b : Z) : len (zrange a b) = Z.max 0 (b - a).
Proof.
  unfold len, zrange. rewrite length_map, length_seq. lia.
Qed.

(** X17.  For a slice with integer bounds and unit step on a target of
    length [l], with the start in [-l, l] and the stop at least [-l]:
    [_length_of_indexer] is the difference of the bounds once a negative
    bound is counted from the end and a stop beyond the end is cut to
    [l].  The slice selects the positions between these bounds, so the
    length is the number of selected positions exactly when the start
    does not exceed the stop, and is negative otherwise. *)
Theorem length_of_slice_indexer (target : Index) (s e : Z) (stp : option Z) :
  let l := len (ilabels target) in
  let norm v := if v <? 0 then v + l else Z.min v l in
  let sl := mkSlice (Some (SInt s)) (Some (SInt e)) stp in
  stp = None \/ stp = Some 1 ->
  - l <= s <= l -> - l <= e ->
  _length_of_indexer (ISlice sl) (Some target) = Length (norm e - norm s) /\
  slice_positions sl l = Ok (zrange (norm s) (norm e)) /\
  len (zrange (norm s) (norm e)) = Z.max 0 (norm e - norm s).
Proof.
  intros l norm sl Hstp Hs He. split; [|split].
  - unfold _length_of_indexer, sl. cbn [start stop step py_lt py_gt number].
    fold l.
    assert (Hstep : match stp with
                    | Some k => if k <? 0 then Z.abs k else k
                    | None => 1
                    end = 1) by (destruct Hstp; subst; reflexivity).
    rewrite Hstep. unfold norm.
    destruct (s <? 0) eqn:Es; destruct (l <? e) eqn:El;
      destruct (e <? 0) eqn:Ee; cbn [option_map Z.eqb];
      rewrite Z.div_1_r;
      try apply Z.ltb_lt in Es; try apply Z.ltb_ge in Es;
      try apply Z.ltb_lt in El; try apply Z.ltb_ge in El;
      try apply Z.ltb_lt in Ee; try apply Z.ltb_ge in Ee;
      f_equal; lia.
  - unfold slice_positions, sl. cbn [start stop step slice_bound bind].
    assert (Hstep : match stp with Some k => k | None => 1 end = 1)
      by (destruct Hstp; subst; reflexivity).
    rewrite Hstep. cbn [Z.eqb Z.ltb Z.compare]. rewrite zrange_step_1.
    unfold norm. f_equal.
    destruct (s <? 0) eqn:Es; destruct (e <? 0) eqn:Ee;
      try apply Z.ltb_lt in Es; try apply Z.ltb_ge in Es;
      try apply Z.ltb_lt in Ee; try apply Z.ltb_ge in Ee;
      f_equal; lia.
  - apply len_zrange.
Qed.

Lemma length_of_slice_indexer_witness :
  let target := Index_of [SStr "a"; SStr "b"; SStr "c"; SStr "d"] in
  _length_of_indexer
    (ISlice (mkSlice (Some (SInt 3)) (Some (SInt 1)) None)) (Some target)
  = Length (-2) /\
  slice_positions (mkSlice (Some (SInt 3)) (Some (SInt 1)) None) 4 = Ok [].
Proof.
  intro target.
  destruct (length_of_slice_indexer target 3 1 None) as [H1 [H2 _]].
  - left. reflexivity.
  - vm_compute. split; discriminate.
  - vm_compute. discriminate.
  - split; [exact H1|exact H2].
Defined.

(** ** Scalar access by position *)

Lemma nth_error_existsb (l : list scalar) (n : nat) (k : scalar) :
  nth_error l n = Some k -> existsb (scalar_eqb k) l = true.
Proof.
  revert n. induction l as [|x l IH]; intros n H.
  - destruct n; discriminate.
  - destruct n as [|n]; simpl in H.
    + inv H. cbn [existsb]. rewrite scalar_eqb_refl. reflexivity.
    + cbn [existsb]. rewrite (IH n H). apply orb_true_r.
Qed.

Lemma unique_position (l : list scalar) (n : nat) (k : scalar) (s : Z) :
  has_dups l = false -> nth_error l n = Some k ->
  positions_from s k l = [s + Z.of_nat n].
Proof.
  revert n s. induction l as [|x l IH]; intros n s Hd Hn.
  - destruct n; discriminate.
  - cbn [has_dups] in Hd. apply orb_false_iff in Hd. destruct Hd as [Hx Hd].
    destruct n as [|n]; simpl in Hn.
    + inv Hn. cbn [positions_from]. rewrite scalar_eqb_refl.
      rewrite positions_from_absent by exact Hx. f_equal. simpl. lia.
    + cbn [positions_from].
      destruct (scalar_eqb k x) eqn:E.
      * apply scalar_eqb_eq in E. subst x.
        rewrite (nth_error_existsb l n k Hn) in Hx. discriminate.
      * rewrite (IH n (s + 1) Hd Hn). f_equal. lia.
Qed.

Lemma label_at_position (ax : Index) (p : Z) :
  0 <= p < len (ilabels ax) ->
  exists k, py_getitem (ilabels ax) p = Ok k /\
            (is_unique ax = true -> get_loc ax k = Ok (LocPos p)).
Proof.
  intro Hp.
  destruct (nth_error (ilabels ax) (Z.to_nat p)) as [k|] eqn:E.
  - exists k. split; [apply py_getitem_nth; assumption|].
    intro Hu. unfold is_unique in Hu. apply negb_true_iff in Hu.
    unfold get_loc, positions_of.
    rewrite (unique_position _ _ _ 0 Hu E).
    replace (0 + Z.of_nat (Z.to_nat p)) with p by lia. reflexivity.
  - apply nth_error_None in E. unfold len in Hp. lia.
Qed.

(** X18.  [iat] reads by the labels found at the given positions: with
    one position in range per axis, the key handed to [get_value] holds
    the label at each position, and on an axis free of repetitions that
    label is found again at the same position.  Entries of the key
    beyond the number of axes are ignored. *)
Theorem iat_reads_through_labels
    (get_value : NDFrame -> list akey -> res cell)
    (obj : NDFrame) (ps : list Z) (extra : list akey) :
  Forall2 (fun ax p => 0 <= p < len (ilabels ax)) (axes obj) ps ->
  exists ks,
    scalar_getitem get_value iAt obj
      (KTuple (map (fun p => KScalar (SInt p)) ps ++ extra))
    = get_value obj (map KScalar ks) /\
    Forall2 (fun ax kp =>
               py_getitem (ilabels ax) (snd kp) = Ok (fst kp) /\
               (is_unique ax = true ->
                get_loc ax (fst kp) = Ok (LocPos (snd kp))))
            (axes obj) (combine ks ps).
Proof.
  intro H. destruct obj as [index values|index columns values];
    cbn [axes] in *.
  - inv H. match goal with Hn : Forall2 _ [] _ |- _ => inv Hn end.
    match goal with Hp : 0 <= _ < _ |- _ =>
      destruct (label_at_position _ _ Hp) as [k [Hk Hu]] end.
    exists [k]. split.
    + unfold scalar_getitem. cbn [bind map app _convert_key axes zip mapM
        fst snd integer_key]. rewrite Hk. reflexivity.
    + repeat constructor; assumption.
  - inv H. match goal with Hn : Forall2 _ [_] _ |- _ => inv Hn end.
    match goal with Hn : Forall2 _ [] _ |- _ => inv Hn end.
    repeat match goal with Hp : 0 <= ?p < len (ilabels ?ax) |- _ =>
      let k := fresh "k" in let Hk := fresh "Hk" in let Hu := fresh "Hu" in
      destruct (label_at_position ax p Hp) as [k [Hk Hu]]; clear Hp end.
    match goal with
    | H1 : py_getitem (ilabels index) _ = Ok ?a,
      H2 : py_getitem (ilabels columns) _ = Ok ?b |- _ =>
      exists [a; b]; split;
      [unfold scalar_getitem;
       cbn [bind map app _convert_key axes zip mapM fst snd integer_key];
       rewrite H1, H2; reflexivity
      |repeat constructor; assumption]
    end.
Qed.

Lemma iat_reads_through_labels_witness :
  let df := DataFrame (Index_of [SStr "r0"; SStr "r1"])
              (Index_of [SStr "A"; SStr "B"])
              [[Num 1; Num 2]; [Num 3; Num 4]] in
  exists ks,
    scalar_getitem no_get_value iAt df
      (KTuple (map (fun p => KScalar (SInt p)) [1; 0] ++ [KScalar (SInt 7)]))
    = no_get_value df (map KScalar ks) /\
    Forall2 (fun ax kp =>
               py_getitem (ilabels ax) (snd kp) = Ok (fst kp) /\
               (is_unique ax = true ->
                get_loc ax (fst kp) = Ok (LocPos (snd kp))))
            (axes df) (combine ks [1; 0]).
Proof.
  intro df.
  apply (iat_reads_through_labels no_get_value df [1; 0] [KScalar (SInt 7)]).
  repeat constructor; vm_compute; discriminate.
Defined.

(** ** Boolean keys that carry labels *)

Lemma find_label_none (k : scalar) (l : list scalar) :
  find_label k l = None -> existsb (scalar_eqb k) l = false.
Proof.
  unfold find_label, positions_of. intro H.
  destruct (existsb (scalar_eqb k) l) eqn:E; [|reflexivity].
  pose proof (positions_from_present k l 0 E) as Hne.
  destruct (positions_from 0 k l); [congruence|discriminate].
Qed.

Lemma find_label_some (k : scalar) (l : list scalar) (p : nat) :
  find_label k l = Some p -> (p < List.length l)%nat.
Proof.
  unfold find_label, positions_of. intro H.
  destruct (positions_from 0 k l) as [|q qs] eqn:E; [discriminate|].
  inv H. destruct (positions_from_head k l 0 q qs E) as [Hr _].
  unfold len in Hr. lia.
Qed.

(** X19.  A boolean key that carries labels other than those of the
    axis is aligned by label.  When some label of the axis is missing
    from the key the call raises IndexingError; otherwise the mask has
    one entry per label of the axis, the value the key holds for that
    label, and the entries of the key under other labels are dropped. *)
Theorem labelled_boolean_key_is_aligned (ax key_index : Index)
    (key_values : list bool) :
  List.length key_values = List.length (ilabels key_index) ->
  Index_equals key_index ax = false ->
  (forallb (contains key_index) (ilabels ax) = false ->
   _check_bool_indexer_series ax key_index key_values
   = Raise (Exn IndexingError "Unalignable boolean Series key provided")) /\
  (forallb (contains key_index) (ilabels ax) = true ->
   _check_bool_indexer_series ax key_index key_values
   = Ok (reindex_values false (ilabels key_index) key_values (ilabels ax))).
Proof.
  intros Hlen Hne. unfold _check_bool_indexer_series. rewrite Hne.
  cbn [negb]. unfold reindex_bools, reindex_values. rewrite !map_map.
  generalize (ilabels ax) as l. intro l. split.
  - intro Habs.
    replace (existsb (fun b : bool => b) _) with true; [reflexivity|].
    symmetry. induction l as [|k l IH]; [discriminate|].
    cbn [forallb map existsb] in *.
    destruct (contains key_index k) eqn:Ek.
    + cbn [andb] in Habs. rewrite (IH Habs). apply orb_true_r.
    + unfold contains in Ek. rewrite (find_label_absent _ _ Ek). reflexivity.
  - intro Hpres.
    assert (H : forall k, In k l ->
              exists p, find_label k (ilabels key_index) = Some p /\
                        nth p (map Some key_values) None
                        = Some (nth p key_values false)).
    { intros k Hk. rewrite forallb_forall in Hpres. specialize (Hpres k Hk).
      destruct (find_label k (ilabels key_index)) as [p|] eqn:E.
      - exists p. split; [reflexivity|].
        apply find_label_some in E.
        rewrite (nth_indep _ None (Some false))
          by (rewrite length_map; lia).
        apply (map_nth Some).
      - apply find_label_none in E. unfold contains in Hpres. congruence. }
    clear Hpres.
    replace (existsb (fun b : bool => b) _) with false.
    + f_equal. apply map_ext_in. intros k Hk.
      destruct (H k Hk) as [p [-> ->]]. reflexivity.
    + symmetry. induction l as [|k l IH]; [reflexivity|].
      cbn [map existsb].
      destruct (H k (or_introl eq_refl)) as [p [-> ->]]. cbn [orb].
      apply IH. intros k' Hk'. apply H. right. exact Hk'.
Qed.

Lemma labelled_boolean_key_witness :
  let ax := Index_of [SStr "a"; SStr "b"] in
  let key_index := Index_of [SStr "b"; SStr "c"; SStr "a"] in
  _check_bool_indexer_series ax key_index [true; true; false]
  = Ok [false; true].
Proof.
  intros ax key_index.
  destruct (labelled_boolean_key_is_aligned ax key_index [true; true; false])
    as [_ H].
  - reflexivity.
  - reflexivity.
  - rewrite H; reflexivity.
Defined.

(** ** Assignment through a boolean mask *)

Lemma nonzero_from_range (p : Z) (m : list bool) :
  Forall (fun q => p <= q < p + len m) (nonzero_from p m).
Proof.
  revert p. induction m as [|b m IH]; intros p.
  - constructor.
  - rewrite len_cons. pose proof (len_nonneg m).
    assert (H' : Forall (fun q => p <= q < p + (len m + 1))
                   (nonzero_from (p + 1) m)).
    { eapply Forall_impl; [|apply IH]. simpl. intros; lia. }
    cbn [nonzero_from]. destruct b; [constructor; [lia|exact H']|exact H'].
Qed.

Lemma nonzero_from_below (p i : Z) (m : list bool) :
  i < p -> existsb (fun q => q =? i) (nonzero_from p m) = false.
Proof.
  intro Hi. pose proof (nonzero_from_range p m) as H.
  induction H as [|q l Hq _ IH]; [reflexivity|].
  cbn [existsb]. rewrite IH.
  replace (q =? i) with false by (symmetry; apply Z.eqb_neq; lia).
  reflexivity.
Qed.

Lemma mask_write (c : cell) (mask : list bool) (values : list cell) (s : Z)
    (P : list Z) :
  List.length mask = List.length values ->
  (forall i, s <= i ->
     existsb (fun q => q =? i) P
     = existsb (fun q => q =? i) (nonzero_from s mask)) ->
  map (fun ic => if existsb (fun q => q =? fst ic) P then c else snd ic)
      (enumerate_from s values)
  = map (fun bv => if fst bv : bool then c else snd bv) (combine mask values).
Proof.
  revert values s. induction mask as [|b mask IH]; intros values s Hlen HP.
  - destruct values; [reflexivity|discriminate].
  - destruct values as [|v values]; [discriminate|].
    cbn [enumerate_from combine map fst snd]. f_equal.
    + rewrite (HP s) by lia. cbn [nonzero_from]. destruct b.
      * cbn [existsb]. rewrite Z.eqb_refl. reflexivity.
      * rewrite nonzero_from_below by lia. reflexivity.
    + apply IH; [simpl in Hlen; lia|].
      intros i Hi. rewrite (HP i) by lia. cbn [nonzero_from].
      destruct b; [|reflexivity]. cbn [existsb].
      replace (s =? i) with false by (symmetry; apply Z.eqb_neq; lia).
      reflexivity.
Qed.

Lemma map_truth_bools (mask : list bool) : map truth (map SBool mask) = mask.
Proof.
  induction mask as [|b m IH]; [reflexivity|].
  cbn [map truth]. rewrite IH. reflexivity.
Qed.

Lemma forallb_is_bool_bools (mask : list bool) :
  forallb is_bool (map SBool mask) = true.
Proof. induction mask as [|b m IH]; [reflexivity|exact IH]. Qed.

Lemma data_setitem_mask (index : Index) (values : list cell)
    (mask : list bool) (i : indexer1) (c : cell) :
  mask <> [] ->
  List.length mask = List.length values ->
  i = IArray (nonzero mask) \/ i = IList (map SBool mask) ->
  data_setitem (Series index values) (I1 i) (RScalar c)
  = Ok (Series index
          (map (fun bv => if fst bv : bool then c else snd bv)
               (combine mask values))).
Proof.
  intros Hne Hlen Hi.
  assert (Hsel : select1 (len values) i = Ok (Many true (nonzero mask))).
  { destruct Hi as [-> | ->].
    - cbn [select1]. rewrite mapM_norm_pos; [reflexivity|].
      unfold nonzero. eapply Forall_impl; [|apply nonzero_from_range].
      simpl. unfold len. intros q Hq. lia.
    - destruct mask as [|b mask]; [congruence|].
      cbn [map select1].
      change (SBool b :: map SBool mask) with (map SBool (b :: mask)).
      rewrite forallb_is_bool_bools, map_truth_bools.
      replace (len (map SBool (b :: mask)) =? len values) with true;
        [reflexivity|].
      symmetry. apply Z.eqb_eq. unfold len. rewrite length_map. lia. }
  unfold data_setitem.
  assert (Ht : match I1 i with
               | ITuple (_ :: _ :: _) | IMesh (_ :: _ :: _) =>
                 Raise (Exn IndexError "too many indices")
               | _ => target_cells (len values) 1 (I1 i)
               end = Ok (T2 (product (nonzero mask) (zrange 0 1)))).
  { cbn [target_cells]. rewrite Hsel. reflexivity. }
  rewrite Ht. cbn [bind broadcast]. do 2 f_equal.
  unfold enumerate.
  rewrite (map_enumerate_from_ext _
             (fun ic => if existsb (fun q => q =? fst ic) (nonzero mask)
                        then c else snd ic)).
  - apply mask_write; [exact Hlen|]. intros; reflexivity.
  - intros j old _. cbn [fst snd]. rewrite assigned_scalar, existsb_product.
    change (existsb (fun q => q =? 0) (zrange 0 1)) with true.
    rewrite andb_true_r. reflexivity.
Qed.

(** X20.  A scalar assigned to a one-axis object through a list of
    booleans as long as the object (through any of the three accessors)
    is written at exactly the positions where the list holds True; the
    other positions and the labels are unchanged. *)
Theorem boolean_mask_assignment (self : accessor) (index : Index)
    (values : list cell) (mask : list bool) (c : cell) :
  mask <> [] ->
  List.length mask = List.length values ->
  __setitem__ self (Series index values) (K (KList (map SBool mask)))
    (RScalar c)
  = (Series index
       (map (fun bv => if fst bv : bool then c else snd bv)
            (combine mask values)), Ok tt).
Proof.
  intros Hne Hlen.
  assert (Hbool : _is_bool_indexer (KList (map SBool mask)) = true).
  { destruct mask as [|b mask]; [congruence|].
    exact (forallb_is_bool_bools (b :: mask)). }
  assert (Hres : exists i,
            _convert_to_indexer self (Series index values)
              (KList (map SBool mask)) 0 true = Ok i /\
            (i = IArray (nonzero mask) \/ i = IList (map SBool mask))).
  { destruct self.
    1,2: exists (IArray (nonzero mask)); split; [|left; reflexivity];
      unfold _convert_to_indexer, NDFrameIndexer._convert_to_indexer;
      cbn [_get_axis axes nth_error Z.to_nat Z.ltb Z.compare bind
           get_loc_key exn_cls either exn_class_eqb orb negb integer_key];
      rewrite Hbool; unfold _check_bool_indexer; rewrite map_truth_bools;
      reflexivity.
    exists (IList (map SBool mask)). split; [|right; reflexivity].
    unfold _convert_to_indexer, iLocIndexer._convert_to_indexer,
      iLocIndexer._has_valid_type. rewrite Hbool. reflexivity. }
  destruct Hres as [i [Hres Hi]].
  unfold __setitem__, setitem_depth. cbn [setitem_rec].
  unfold setitem_body at 1. cbn [resolve_key]. rewrite Hres. cbn [bind].
  rewrite _setitem_with_indexer_no_missing;
    [|destruct Hi; subst; reflexivity|exact I].
  replace (_has_valid_setitem_indexer self (Series index values) (I1 i))
    with (Ok (A:=bool) true)
    by (destruct self; try reflexivity; destruct Hi; subst; reflexivity).
  unfold set_values. cbn [bind].
  rewrite (data_setitem_mask index values mask i c Hne Hlen Hi).
  reflexivity.
Qed.

Lemma boolean_mask_assignment_witness :
  let s := Series (Index_of [SStr "a"; SStr "b"; SStr "c"])
             [Num 1; Num 2; Num 3] in
  __setitem__ loc s (K (KList [SBool true; SBool false; SBool true]))
    (RScalar (Num 0))
  = (Series (Index_of [SStr "a"; SStr "b"; SStr "c"])
       [Num 0; Num 2; Num 0], Ok tt).
Proof.
  intro s.
  apply (boolean_mask_assignment loc (Index_of [SStr "a"; SStr "b"; SStr "c"])
           [Num 1; Num 2; Num 3] [true; false; true] (Num 0)).
  - discriminate.
  - reflexivity.
Defined.

(** ** Assignment of a labelled vector to a row *)

Lemma zrange_cons (a b : Z) : a < b -> zrange a b = a :: zrange (a + 1) b.
Proof.
  intro H. unfold zrange.
  replace (Z.to_nat (b - a)) with (S (Z.to_nat (b - (a + 1)))) by lia.
  cbn [seq map]. f_equal; [simpl; lia|].
  rewrite <- seq_shift, map_map. apply map_ext. intros k. lia.
Qed.

Lemma zrange_nil (a b : Z) : b <= a -> zrange a b = [].
Proof.
  intro H. unfold zrange. replace (Z.to_nat (b - a)) with O by lia.
  reflexivity.
Qed.

Lemma assigned_other_row (p i j a : Z) (v : list cell) (old : cell) :
  i <> p ->
  assigned (combine (map (fun c => (p, c)) (zrange a (a + len v))) v)
    (i, j) old = old.
Proof.
  intro Hi. revert a old. induction v as [|x v IH]; intros a old.
  - rewrite zrange_nil by (unfold len; simpl; lia). reflexivity.
  - rewrite len_cons. pose proof (len_nonneg v).
    rewrite zrange_cons by lia. cbn [map combine].
    unfold assigned in *. cbn [fold_left fst snd].
    replace (p =? i) with false by (symmetry; apply Z.eqb_neq; lia).
    cbn [andb]. replace (a + (len v + 1)) with (a + 1 + len v) by lia.
    apply IH.
Qed.

Lemma assigned_before (p j a : Z) (v : list cell) (old : cell) :
  j < a ->
  assigned (combine (map (fun c => (p, c)) (zrange a (a + len v))) v)
    (p, j) old = old.
Proof.
  revert a old. induction v as [|x v IH]; intros a old Hj.
  - rewrite zrange_nil by (unfold len; simpl; lia). reflexivity.
  - rewrite len_cons. pose proof (len_nonneg v).
    rewrite zrange_cons by lia. cbn [map combine].
    unfold assigned in *. cbn [fold_left fst snd].
    replace (a =? j) with false by (symmetry; apply Z.eqb_neq; lia).
    rewrite andb_false_r. replace (a + (len v + 1)) with (a + 1 + len v) by lia.
    apply IH. lia.
Qed.

Lemma assigned_row (p a : Z) (v row : list cell) :
  List.length row = List.length v ->
  map (fun jc =>
         assigned (combine (map (fun c => (p, c)) (zrange a (a + len v))) v)
           (p, fst jc) (snd jc))
      (enumerate_from a row) = v.
Proof.
  revert a row. induction v as [|x v IH]; intros a row Hlen.
  - destruct row; [reflexivity|discriminate].
  - destruct row as [|r row]; [discriminate|].
    rewrite len_cons. pose proof (len_nonneg v).
    rewrite zrange_cons by lia. cbn [map combine enumerate_from fst snd].
    replace (a + (len v + 1)) with (a + 1 + len v) by lia. f_equal.
    + unfold assigned. cbn [fold_left fst snd]. rewrite !Z.eqb_refl.
      cbn [andb]. apply (assigned_before p a (a + 1) v x). lia.
    + transitivity
        (map (fun jc =>
                assigned (combine (map (fun c => (p, c))
                                     (zrange (a + 1) (a + 1 + len v))) v)
                  (p, fst jc) (snd jc))
             (enumerate_from (a + 1) row)).
      * apply map_enumerate_from_ext. intros j c Hj.
        unfold assigned. cbn [fold_left fst snd].
        replace (a =? j) with false by (symmetry; apply Z.eqb_neq; lia).
        rewrite andb_false_r. reflexivity.
      * apply IH. simpl in Hlen. lia.
Qed.

Lemma write_row (values : list (list cell)) (v : list cell) (p : Z) :
  Forall (fun row => List.length row = List.length v) values ->
  write_cells (combine (map (fun c => (p, c)) (zrange 0 (len v))) v) values
  = map (fun ir => if fst ir =? p then v else snd ir) (enumerate values).
Proof.
  intro Hrows. unfold write_cells.
  assert (H : forall s,
            map (fun ir : Z * list cell =>
                   map (fun jc : Z * cell =>
                          assigned
                            (combine (map (fun c => (p, c))
                                        (zrange 0 (len v))) v)
                            (fst ir, fst jc) (snd jc))
                       (enumerate (snd ir)))
                (enumerate_from s values)
            = map (fun ir => if fst ir =? p then v else snd ir)
                  (enumerate_from s values)).
  { induction Hrows as [|row rows Hrow _ IH]; intros s.
    - reflexivity.
    - cbn [enumerate_from map fst snd]. rewrite IH. f_equal.
      destruct (s =? p) eqn:E.
      + apply Z.eqb_eq in E. subst s. unfold enumerate.
        apply (assigned_row p 0 v row Hrow).
      + apply Z.eqb_neq in E. unfold enumerate.
        rewrite (map_enumerate_from_ext _ (fun jc => snd jc)).
        * apply map_snd_enumerate_from.
        * intros j c _. cbn [fst snd].
          apply (assigned_other_row p s j 0 v c E). }
  apply H.
Qed.

Lemma length_align_to (ax ser_index : Index) (ser_values : list cell) :
  List.length ser_values = List.length (ilabels ser_index) ->
  List.length (align_to ax ser_index ser_values) = List.length (ilabels ax).
Proof.
  intro Hlen. unfold align_to.
  destruct (Index_equals ser_index ax) eqn:E.
  - unfold Index_equals in E. apply labels_eqb_eq in E. congruence.
  - unfold Series_reindex, reindex_values. apply length_map.
Qed.

(** X21.  A labelled vector assigned through [ix] or [loc] to one row
    of a two-axis object, with the null slice for the columns, is
    aligned on the column labels: the row receives, under each column
    label, the value the vector holds for that label, or the missing
    value where the vector has no such label; every other row is
    unchanged. *)
Theorem series_assigned_to_a_row_is_aligned_on_the_columns (self : accessor)
    (index columns : Index) (values : list (list cell)) (r : akey) (p : Z)
    (ser_index : Index) (ser_values : list cell) :
  self <> iloc ->
  well_formed (DataFrame index columns values) = true ->
  List.length ser_values = List.length (ilabels ser_index) ->
  _convert_to_indexer self (DataFrame index columns values) r 0 true
  = Ok (IInt p) ->
  0 <= p < len values ->
  __setitem__ self (DataFrame index columns values)
    (KTuple [r; KSlice _NS]) (RSeries ser_index ser_values)
  = (DataFrame index columns
       (map (fun ir => if fst ir =? p
                       then align_to columns ser_index ser_values
                       else snd ir)
            (enumerate values)), Ok tt).
Proof.
  intros Hself Hwf Hser Hres Hp.
  cbn [well_formed] in Hwf. apply andb_true_iff in Hwf.
  destruct Hwf as [_ Hrows].
  set (v := align_to columns ser_index ser_values).
  assert (Hv : List.length v = List.length (ilabels columns))
    by (apply length_align_to; exact Hser).
  assert (Hrows' : Forall (fun row => List.length row = List.length v) values).
  { apply Forall_forall. intros row Hin. rewrite forallb_forall in Hrows.
    specialize (Hrows row Hin). apply Nat.eqb_eq in Hrows. congruence. }
  set (df := DataFrame index columns values).
  assert (Hns : _convert_to_indexer self df (KSlice _NS) 1 true
                = Ok (ISlice _NS)).
  { destruct self; [reflexivity|reflexivity|congruence]. }
  unfold __setitem__, setitem_depth. cbn [setitem_rec].
  unfold setitem_body at 1. cbn [resolve_key].
  change (ndim df <? len [r; KSlice _NS]) with false. cbv iota.
  unfold _convert_tuple, enumerate. cbn [enumerate_from mapM fst snd].
  change (0 + 1) with 1. fold df in Hres. rewrite Hres, Hns. cbn [bind].
  rewrite _setitem_with_indexer_no_missing by (reflexivity || exact I).
  replace (_has_valid_setitem_indexer self df (ITuple [IInt p; ISlice _NS]))
    with (Ok (A:=bool) true)
    by (destruct self; try reflexivity; congruence).
  unfold set_values. cbn [_maybe_convert_ix forallb andb bind].
  assert (Hal : _align_series df (ITuple [IInt p; ISlice _NS]) ser_index
                  ser_values = Ok v) by reflexivity.
  rewrite Hal. cbn [bind]. unfold data_setitem, df.
  cbn [target_cells select1]. rewrite (norm_pos_in_range _ _ Hp).
  cbn [bind]. unfold slice_positions.
  cbn [_NS start stop step slice_bound bind Z.eqb Z.ltb Z.compare].
  rewrite zrange_step_1. cbn [bind broadcast].
  replace (len v =? len (map (fun c => (p, c))
                           (zrange 0 (len (ilabels columns))))) with true.
  2:{ symmetry. apply Z.eqb_eq. unfold len at 2. rewrite length_map.
      fold (len (zrange 0 (len (ilabels columns)))). rewrite len_zrange.
      unfold len. lia. }
  cbn [bind]. replace (len (ilabels columns)) with (len v)
    by (unfold len; congruence).
  rewrite write_row by exact Hrows'. reflexivity.
Qed.

Lemma series_assigned_to_a_row_witness :
  let df := DataFrame (Index_of [SStr "r0"; SStr "r1"])
              (Index_of [SStr "A"; SStr "B"])
              [[Num 1; Num 2]; [Num 3; Num 4]] in
  __setitem__ ix df (KTuple [KScalar (SStr "r1"); KSlice _NS])
    (RSeries (Index_of [SStr "B"; SStr "Z"]) [Num 8; Num 9])
  = (DataFrame (Index_of [SStr "r0"; SStr "r1"])
       (Index_of [SStr "A"; SStr "B"])
       [[Num 1; Num 2]; [NaN; Num 8]], Ok tt).
Proof.
  intro df.
  apply (series_assigned_to_a_row_is_aligned_on_the_columns ix
           (Index_of [SStr "r0"; SStr "r1"]) (Index_of [SStr "A"; SStr "B"])
           [[Num 1; Num 2]; [Num 3; Num 4]] (KScalar (SStr "r1")) 1
           (Index_of [SStr "B"; SStr "Z"]) [Num 8; Num 9]);
    try reflexivity; try discriminate.
  vm_compute. split; [discriminate|reflexivity].
Defined.

(** ** The reindexing read of a tuple of lists *)

(** X22.  [_multi_take] with one list per axis returns the object laid
    out on the converted keys: on every axis the labels of the result
    are what [_convert_for_reindex] makes of the list for that axis.  A
    list of labels is its own conversion, so a label that is absent from
    the axis is not refused but becomes a label of the result. *)
Theorem multi_take_reindexes_every_axis (self : accessor) (obj : NDFrame)
    (tup : list (list scalar)) (new_labels : list (list scalar)) :
  len tup = ndim obj ->
  Forall2 (fun at_ ls => _convert_for_reindex obj (snd at_) (fst at_) = Ok ls)
          (enumerate tup) new_labels ->
  (exists o, _multi_take self obj tup = Ok (VObj o) /\
             map ilabels (axes o) = new_labels) /\
  (forall axis labels key,
     _get_axis obj axis = Ok labels ->
     _is_bool_indexer (KList key) = false ->
     as_int_array key = None ->
     _convert_for_reindex obj key axis = Ok key).
Proof.
  intros Hlen H. split.
  - destruct obj as [index values|index columns values]; cbn [ndim] in Hlen.
    + destruct tup as [|t0 [|t1 tup]]; try discriminate.
      2:{ exfalso. rewrite !len_cons in Hlen. pose proof (len_nonneg tup). lia. }
      unfold enumerate in H. cbn [enumerate_from] in H.
      inv H. match goal with Hn : Forall2 _ [] _ |- _ => inv Hn end.
      cbn [fst snd] in *.
      eexists. split.
      * unfold _multi_take. cbn [ndim]. change (zrange 0 1) with [0].
        cbn [zip mapM fst snd].
        match goal with Hc : _convert_for_reindex _ _ _ = _ |- _ =>
          rewrite Hc end.
        cbn [bind reindex_axes reindex_axis Z.eqb try_except]. reflexivity.
      * reflexivity.
    + destruct tup as [|t0 [|t1 [|t2 tup]]]; try discriminate.
      2:{ exfalso. rewrite !len_cons in Hlen. pose proof (len_nonneg tup). lia. }
      unfold enumerate in H. cbn [enumerate_from] in H.
      inv H. match goal with Hn : Forall2 _ [_] _ |- _ => inv Hn end.
      match goal with Hn : Forall2 _ [] _ |- _ => inv Hn end.
      cbn [fst snd] in *. change (0 + 1) with 1 in *.
      eexists. split.
      * unfold _multi_take. cbn [ndim]. change (zrange 0 2) with [0; 1].
        cbn [zip mapM fst snd].
        repeat match goal with Hc : _convert_for_reindex _ _ _ = _ |- _ =>
          rewrite Hc; clear Hc end.
        cbn [bind reindex_axes reindex_axis Z.eqb Pos.eqb try_except].
        reflexivity.
      * reflexivity.
  - intros axis labels key Hax Hbool Hint. unfold _convert_for_reindex.
    rewrite Hax. cbn [bind]. rewrite Hbool, Hint. reflexivity.
Qed.

Lemma multi_take_witness :
  let df := DataFrame (Index_of [SStr "r0"; SStr "r1"])
              (Index_of [SStr "A"; SStr "B"])
              [[Num 1; Num 2]; [Num 3; Num 4]] in
  exists o,
    _multi_take ix df [[SStr "r1"; SStr "zz"]; [SStr "B"]] = Ok (VObj o) /\
    map ilabels (axes o) = [[SStr "r1"; SStr "zz"]; [SStr "B"]].
Proof.
  intro df.
  destruct (multi_take_reindexes_every_axis ix df
              [[SStr "r1"; SStr "zz"]; [SStr "B"]]
              [[SStr "r1"; SStr "zz"]; [SStr "B"]]) as [H _].
  - reflexivity.
  - repeat constructor.
  - exact H.
Defined.

(** ** The nesting of reads *)

Lemma enumerate_from_split {A} (l : list A) (s i : Z) (a : A) :
  In (i, a) (enumerate_from s l) ->
  exists pre post,
    l = pre ++ a :: post /\
    firstn (Z.to_nat (i - s)) l = pre /\
    skipn (Z.to_nat (i - s + 1)) l = post /\ s <= i.
Proof.
  revert s. induction l as [|x l IH]; intros s Hin.
  - destruct Hin.
  - cbn [enumerate_from In] in Hin. destruct Hin as [Heq|Hin].
    + inv Heq. exists [], l. replace (i - i) with 0 by lia.
      repeat split; try reflexivity; lia.
    + destruct (IH (s + 1) Hin) as (pre & post & Hl & Hf & Hs & Hle).
      exists (x :: pre), post.
      replace (Z.to_nat (i - s)) with (S (Z.to_nat (i - (s + 1)))) by lia.
      replace (Z.to_nat (i - s + 1)) with (S (Z.to_nat (i - (s + 1) + 1)))
        by lia.
      cbn [firstn skipn]. rewrite Hf, Hs.
      repeat split; [rewrite Hl; reflexivity|lia].
Qed.

Lemma key_measure_app (pre post : list akey) :
  key_measure (KTuple (pre ++ post))
  = (key_measure (KTuple pre) + key_measure (KTuple post))%nat.
Proof.
  cbn [key_measure]. rewrite filter_app, !length_app. lia.
Qed.

Lemma key_measure_single_or_tuple (l : list akey) :
  (key_measure (match l with [k] => K k | _ => KTuple l end)
   <= key_measure (KTuple l))%nat.
Proof.
  destruct l as [|k [|k' l]]; cbn [key_measure]; lia.
Qed.

Lemma key_measure_swap (sec : NDFrame) (i : Z) (l : list akey) :
  key_measure (KTuple match sec, l with
                      | DataFrame _ _ _, [a; b] => if 0 <? i then [b; a] else l
                      | _, _ => l
                      end)
  = key_measure (KTuple l).
Proof.
  destruct sec; [reflexivity|].
  destruct l as [|a [|b [|c l]]]; try reflexivity.
  destruct (0 <? i); [|reflexivity].
  cbn [key_measure filter List.length].
  destruct (_is_label_like a), (_is_label_like b); simpl; lia.
Qed.

Section ReadNesting.

Variable gv : NDFrame -> list akey -> res cell.
Variable gi : accessor -> NDFrame -> list scalar -> Z -> res value.
Variable mt : accessor -> NDFrame -> list akey -> res value.
Variables rec1 rec2 : accessor -> NDFrame -> key -> res value.
Variable tup : list akey.

Hypothesis nested_reads_agree :
  forall self obj key,
    (key_measure key < key_measure (KTuple tup))%nat ->
    rec1 self obj key = rec2 self obj key.

Lemma lowerdim_loop_agree (self : accessor) (obj : NDFrame)
    (rest : list (Z * akey)) :
  (forall x, In x rest -> In x (enumerate tup)) ->
  _getitem_lowerdim_loop gi rec1 self obj tup rest
  = _getitem_lowerdim_loop gi rec2 self obj tup rest.
Proof.
  induction rest as [|[i key] rest IH]; intro Hin.
  - reflexivity.
  - cbn [_getitem_lowerdim_loop].
    destruct (_is_label_like key) eqn:Hlab.
    2:{ apply IH. intros x Hx. apply Hin. right. exact Hx. }
    destruct (_getitem_axis gi self obj key i) as [[c|sec]|e];
      cbn [bind]; try reflexivity.
    apply nested_reads_agree.
    destruct (enumerate_from_split tup 0 i key (Hin _ (or_introl eq_refl)))
      as (pre & post & Htup & Hf & Hs & _).
    replace (i - 0) with i in * by lia.
    unfold before, after. rewrite Hf, Hs.
    assert (Hm : key_measure (KTuple tup)
                 = (key_measure (KTuple pre) + 2
                    + key_measure (KTuple post))%nat).
    { rewrite Htup, key_measure_app.
      change (key :: post) with ([key] ++ post). rewrite key_measure_app.
      cbn [key_measure filter]. rewrite Hlab. simpl. lia. }
    destruct (ndim sec =? ndim obj).
    + change (KSlice _NS :: post) with ([KSlice _NS] ++ post).
      rewrite !key_measure_app, Hm. cbn [key_measure filter]. simpl. lia.
    + eapply Nat.le_lt_trans; [apply key_measure_single_or_tuple|].
      rewrite key_measure_swap, key_measure_app, Hm. lia.
Qed.

Lemma getitem_body_agree (self : accessor) (obj : NDFrame) :
  getitem_body gv gi mt rec1 self obj (KTuple tup)
  = getitem_body gv gi mt rec2 self obj (KTuple tup).
Proof.
  assert (Hlow : _getitem_lowerdim gi rec1 self obj tup
                 = _getitem_lowerdim gi rec2 self obj tup).
  { unfold _getitem_lowerdim. destruct (ndim obj <? len tup); [reflexivity|].
    apply lowerdim_loop_agree. intros x Hx. exact Hx. }
  unfold getitem_body, _getitem_tuple. rewrite Hlow. reflexivity.
Qed.

End ReadNesting.

Lemma getitem_rec_enough
    (gv : NDFrame -> list akey -> res cell)
    (gi : accessor -> NDFrame -> list scalar -> Z -> res value)
    (mt : accessor -> NDFrame -> list akey -> res value) (n : nat) :
  forall key f1 f2 self obj,
    (key_measure key <= n)%nat -> (n < f1)%nat -> (n < f2)%nat ->
    getitem_rec gv gi mt f1 self obj key
    = getitem_rec gv gi mt f2 self obj key.
Proof.
  induction n as [|n IH]; intros key f1 f2 self obj Hm H1 H2;
    destruct f1 as [|f1]; try lia; destruct f2 as [|f2]; try lia;
    rewrite !getitem_rec_S; destruct key as [k|tup]; try reflexivity.
  - apply getitem_body_agree. intros self' obj' key' Hlt. lia.
  - apply getitem_body_agree. intros self' obj' key' Hlt.
    apply IH; lia.
Qed.

(** X23.  The calls of [__getitem__] through [_getitem_lowerdim] nest
    no deeper than the size of the key allows: every nested call is made
    with a key that has an entry less or a label turned into the null
    slice.  So for every object and key the outcome is the same for
    every depth of nesting allowed from the size of the key on, and the
    bound on the depth is never what a read fails with. *)
Theorem getitem_nesting_is_bounded_by_the_key
    (gv : NDFrame -> list akey -> res cell)
    (gi : accessor -> NDFrame -> list scalar -> Z -> res value)
    (mt : accessor -> NDFrame -> list akey -> res value)
    (fuel : nat) (self : accessor) (obj : NDFrame) (key : key) :
  (key_size key <= fuel)%nat ->
  getitem_rec gv gi mt fuel self obj key = __getitem__ gv gi mt self obj key.
Proof.
  intro Hfuel. unfold __getitem__.
  apply (getitem_rec_enough gv gi mt (key_measure key)).
  - lia.
  - destruct key as [k|tup]; cbn [key_size key_measure] in *; [lia|].
    pose proof (filter_length_le _is_label_like tup). lia.
  - destruct key as [k|tup]; cbn [key_size key_measure] in *; [lia|].
    pose proof (filter_length_le _is_label_like tup). lia.
Qed.

Lemma getitem_nesting_witness :
  let df := DataFrame (Index_of [SStr "r0"; SStr "r1"])
              (Index_of [SStr "A"; SStr "B"])
              [[Num 1; Num 2]; [Num 3; Num 4]] in
  let key := KTuple [KScalar (SStr "r1"); KScalar (SStr "B")] in
  getitem_rec no_get_value no_getitem_iterable no_multi_take 9 ix df key
  = __getitem__ no_get_value no_getitem_iterable no_multi_take ix df key.
Proof.
  intros df key.
  apply (getitem_nesting_is_bounded_by_the_key no_get_value
           no_getitem_iterable no_multi_take 9 ix df key).
  simpl. lia.
Defined.

(** ** The split path *)

(** X29.  On the split path the items of the target are set one after
    the other, and each is written back to the target before the next is
    set: when the setter of an item raises, the call ends with that error
    and with the items set before it written. *)
Theorem split_path_keeps_the_items_set_before_a_failure
    (gi : NDFrame -> scalar -> res value)
    (si : NDFrame -> scalar -> NDFrame -> res NDFrame)
    (plane_indexer : list indexer1) (lplane_indexer : Z)
    (written : list (scalar * rhs)) (obj obj1 : NDFrame) (item : scalar)
    (v : rhs) (rest : list (scalar * rhs)) (e : exn) :
  MixedType.set_items gi si plane_indexer lplane_indexer obj written
  = (obj1, Ok tt) ->
  MixedType.setter gi si plane_indexer lplane_indexer obj1 item v = Raise e ->
  MixedType.set_items gi si plane_indexer lplane_indexer obj
    (written ++ (item, v) :: rest)
  = (obj1, Raise e).
Proof.
  revert obj obj1. induction written as [|[item0 v0] written IH];
    intros obj obj1 Hw Hf.
  - cbn [MixedType.set_items] in Hw. inversion Hw; subst obj1.
    cbn [app MixedType.set_items]. rewrite Hf. reflexivity.
  - cbn [app MixedType.set_items] in *.
    destruct (MixedType.setter gi si plane_indexer lplane_indexer obj item0 v0)
      as [obj0|e0]; [|discriminate].
    eapply IH; eassumption.
Qed.

(** The value [5, [1, 2, 3]] assigned to the columns A and B of a table of
    two rows that is of mixed type: the column A receives 5, the list of
    three does not fit the column B, and the call raises with A written. *)
Lemma split_path_witness :
  let df := DataFrame (Index_of [SStr "r0"; SStr "r1"])
              (Index_of [SStr "A"; SStr "B"])
              [[Num 1; Num 2]; [Num 3; Num 4]] in
  let key := KTuple [KSlice _NS; KList [SStr "A"; SStr "B"]] in
  let value := RNested [RScalar (Num 5); RList [Num 1; Num 2; Num 3]] in
  MixedType.__setitem__ (fun _ => true) container_getitem container_setitem
    ix df key value
  = (DataFrame (Index_of [SStr "r0"; SStr "r1"])
       (Index_of [SStr "A"; SStr "B"])
       [[Num 5; Num 2]; [Num 5; Num 4]],
     Raise (Exn ValueError
              "shape mismatch: value array could not be broadcast to indexing result")).
Proof.
  intros df key value.
  change (MixedType.__setitem__ (fun _ => true) container_getitem
            container_setitem ix df key value)
    with (MixedType.set_items container_getitem container_setitem
            [ISlice _NS] 2 df
            ([(SStr "A", RScalar (Num 5))]
             ++ (SStr "B", RList [Num 1; Num 2; Num 3]) :: [])).
  apply (split_path_keeps_the_items_set_before_a_failure container_getitem
           container_setitem [ISlice _NS] 2 [(SStr "A", RScalar (Num 5))]);
    reflexivity.
Defined.

(** ** Where an assignment writes *)

Lemma assigned_no_match (writes : list ((Z * Z) * cell)) (p : Z * Z)
    (old : cell) :
  (forall w, In w writes -> fst w <> p) ->
  assigned writes p old = old.
Proof.
  unfold assigned. revert old.
  induction writes as [|w writes IH]; intros old H; [reflexivity|].
  cbn [fold_left].
  destruct ((fst (fst w) =? fst p) && (snd (fst w) =? snd p)) eqn:E.
  - exfalso. apply andb_true_iff in E. destruct E as [E1 E2].
    apply Z.eqb_eq in E1, E2. apply (H w (or_introl eq_refl)).
    destruct (fst w), p; cbn in *; congruence.
  - apply IH. intros w' Hw'. apply H. right. exact Hw'.
Qed.

Lemma mapM_concat_positions {A} (f : A -> res (list ((Z * Z) * cell)))
    (g : A -> list (Z * Z)) (l : list A) (pps : list (list ((Z * Z) * cell))) :
  (forall a ws, In a l -> f a = Ok ws ->
                forall w, In w ws -> In (fst w) (g a)) ->
  mapM f l = Ok pps ->
  forall w, In w (List.concat pps) -> In (fst w) (List.concat (map g l)).
Proof.
  revert pps. induction l as [|a l IH]; intros pps Hf H w Hw.
  - inversion H; subst. destruct Hw.
  - cbn [mapM] in H. destruct (f a) as [ws|e] eqn:Ea; [|discriminate].
    cbn [bind] in H. destruct (mapM f l) as [pps'|e] eqn:El; [|discriminate].
    cbn [bind] in H. inversion H; subst. cbn [List.concat map] in *.
    apply in_app_or in Hw. apply in_or_app. destruct Hw as [Hw|Hw].
    + left. apply (Hf a ws); [left; reflexivity|exact Ea|exact Hw].
    + right. apply (IH pps'); [|reflexivity|exact Hw].
      intros a' ws' Ha'. apply Hf. right. exact Ha'.
Qed.

Lemma in_combine_fst {A B} (l : list A) (l' : list B) (x : A * B) :
  In x (combine l l') -> In (fst x) l.
Proof. destruct x as [a b]. apply in_combine_l. Qed.

Lemma concat_map_fst_combine {A B} (l : list (list A)) (l' : list B)
    (x : A) :
  In x (List.concat (map fst (combine l l'))) -> In x (List.concat l).
Proof.
  revert l'. induction l as [|a l IH]; intros l' H.
  - destruct H.
  - destruct l' as [|b l']; [destruct H|].
    cbn [combine map List.concat fst] in *.
    apply in_app_or in H. apply in_or_app. destruct H as [H|H].
    + left. exact H.
    + right. eapply IH. exact H.
Qed.

(** Every cell that is written is a cell of the target. *)
Lemma broadcast_positions (t : target) (value : rhs)
    (writes : list ((Z * Z) * cell)) :
  broadcast t value = Ok writes ->
  forall w, In w writes -> In (fst w) (cells_of t).
Proof.
  assert (Halong : forall (l : list cell) (ps : list (Z * Z))
                           (ws : list ((Z * Z) * cell)),
             (if len l =? len ps then Ok (combine ps l)
              else if len l =? 1 then Ok (map (fun p => (p, nth 0 l NaN)) ps)
              else Raise (Exn ValueError "shape mismatch: value array could not be broadcast to indexing result"))
             = Ok ws ->
             forall w, In w ws -> In (fst w) ps).
  { intros l ps ws H w Hw. destruct (len l =? len ps).
    - inversion H; subst. eapply in_combine_fst. exact Hw.
    - destruct (len l =? 1); [|discriminate]. inversion H; subst.
      apply in_map_iff in Hw. destruct Hw as [p [<- Hp]]. exact Hp. }
  assert (Hlist : forall (l : list cell) (ws : list ((Z * Z) * cell)),
             match t with
             | T0 _ => Raise (Exn ValueError "setting an array element with a sequence")
             | T1 ps =>
               if len l =? len ps then Ok (combine ps l)
               else if len l =? 1 then Ok (map (fun p => (p, nth 0 l NaN)) ps)
               else Raise (Exn ValueError "shape mismatch: value array could not be broadcast to indexing result")
             | T2 pss =>
               pps <- mapM (fun ps =>
                 if len l =? len ps then Ok (combine ps l)
                 else if len l =? 1 then Ok (map (fun p => (p, nth 0 l NaN)) ps)
                 else Raise (Exn ValueError "shape mismatch: value array could not be broadcast to indexing result")) pss ;;
               Ok (List.concat pps)
             end = Ok ws ->
             forall w, In w ws -> In (fst w) (cells_of t)).
  { intros l ws H w Hw. destruct t as [p|ps|pss]; [discriminate| |].
    - eapply Halong; eassumption.
    - destruct (mapM _ pss) as [pps|e] eqn:E; [|discriminate].
      cbn [bind] in H. inversion H; subst. cbn [cells_of].
      rewrite <- (map_id pss).
      eapply (mapM_concat_positions _ (fun ps => ps)); [|exact E|exact Hw].
      intros ps ws' _ Hws'. eapply Halong. exact Hws'. }
  intros H w Hw. destruct value as [c|l|si l|rows]; cbn [broadcast] in H.
  - inversion H; subst. apply in_map_iff in Hw.
    destruct Hw as [p [<- Hp]]. destruct t; exact Hp.
  - eapply Hlist; eassumption.
  - eapply Hlist; eassumption.
  - destruct t as [p|ps|pss]; [discriminate|discriminate|].
    destruct (len rows =? len pss); [|discriminate].
    destruct (mapM _ (combine pss rows)) as [pps|e] eqn:E; [|discriminate].
    cbn [bind] in H. inversion H; subst. cbn [cells_of].
    apply (concat_map_fst_combine pss rows).
    eapply (mapM_concat_positions _ fst); [|exact E|exact Hw].
    intros pr ws' _ Hws' w' Hw'. cbv beta in Hws'.
    destruct (snd pr) as [c|l|si l|rows']; try discriminate.
    destruct (len l =? len (fst pr)); [|discriminate].
    inversion Hws'; subst. eapply in_combine_fst. exact Hw'.
Qed.

Lemma write_cells_new_row (writes : list ((Z * Z) * cell))
    (values : list (list cell)) (row : list cell) :
  (forall w, In w writes -> fst (fst w) = len values) ->
  write_cells writes (values ++ [row])
  = values ++ [map (fun jc => assigned writes (len values, fst jc) (snd jc))
                   (enumerate row)].
Proof.
  intro H. unfold write_cells, enumerate.
  rewrite enumerate_from_app, map_app. f_equal.
  rewrite (map_enumerate_from_ext _ (fun ir => snd ir)).
  - apply map_snd_enumerate_from.
  - intros i r Hi. cbn [fst snd].
    rewrite (map_enumerate_from_ext _ (fun jc => snd jc)).
    + apply map_snd_enumerate_from.
    + intros j c _. cbn [fst snd]. apply assigned_no_match.
      intros w Hw Heq. specialize (H w Hw). rewrite Heq in H.
      cbn [fst] in H. lia.
Qed.

Lemma nth_error_enumerate_from {A} (l : list A) (p : Z) (i : nat) :
  nth_error (enumerate_from p l) i
  = option_map (fun a => (p + Z.of_nat i, a)) (nth_error l i).
Proof.
  revert p i. induction l as [|a l IH]; intros p i.
  - destruct i; reflexivity.
  - destruct i as [|i]; cbn [enumerate_from nth_error option_map].
    + f_equal. f_equal. lia.
    + rewrite IH. destruct (nth_error l i); [|reflexivity].
      cbn [option_map]. f_equal. f_equal. lia.
Qed.

Lemma cell_at_write_cells (writes : list ((Z * Z) * cell))
    (values : list (list cell)) (i j : nat) :
  cell_at (write_cells writes values) i j
  = option_map (assigned writes (Z.of_nat i, Z.of_nat j))
      (cell_at values i j).
Proof.
  unfold cell_at, write_cells, enumerate.
  rewrite nth_error_map, nth_error_enumerate_from.
  destruct (nth_error values i) as [row|]; [|reflexivity].
  cbn [option_map fst snd].
  rewrite nth_error_map, nth_error_enumerate_from.
  destruct (nth_error row j) as [c|]; reflexivity.
Qed.

(** Writes in one column leave every other column as it was. *)
Lemma write_cells_other_columns (writes : list ((Z * Z) * cell))
    (values : list (list cell)) (m : Z) :
  (forall w, In w writes -> snd (fst w) = m) ->
  forall i j, Z.of_nat j <> m ->
    cell_at (write_cells writes values) i j = cell_at values i j.
Proof.
  intros H i j Hj. rewrite cell_at_write_cells.
  destruct (cell_at values i j) as [c|]; [|reflexivity].
  cbn [option_map]. f_equal. apply assigned_no_match.
  intros w Hw Heq. specialize (H w Hw). rewrite Heq in H. cbn [snd] in H.
  lia.
Qed.

(** The shape of the data is the same after the writes. *)
Lemma write_cells_shape (writes : list ((Z * Z) * cell))
    (values : list (list cell)) (i : nat) :
  option_map (@List.length cell) (nth_error (write_cells writes values) i)
  = option_map (@List.length cell) (nth_error values i).
Proof.
  unfold write_cells, enumerate.
  rewrite nth_error_map, nth_error_enumerate_from.
  destruct (nth_error values i) as [row|]; [|reflexivity].
  cbn [option_map fst snd]. rewrite length_map. f_equal.
  rewrite <- (map_snd_enumerate_from row 0) at 2. rewrite length_map.
  reflexivity.
Qed.

Lemma target_cells_row (n m p : Z) (indexer : indexer) (t : target) :
  indexer = I1 (IInt p) \/ (exists i1, indexer = ITuple [IInt p; i1]) ->
  0 <= p < n ->
  target_cells n m indexer = Ok t ->
  forall c, In c (cells_of t) -> fst c = p.
Proof.
  intros Hidx Hp H c Hc. destruct Hidx as [->|[i1 ->]];
    cbn [target_cells select1] in H;
    rewrite (norm_pos_in_range _ _ Hp) in H; cbn [bind] in H.
  - inv H. unfold cells_of in Hc. apply in_map_iff in Hc.
    destruct Hc as [j [<- _]]. reflexivity.
  - destruct (select1 m i1) as [[q|fancy qs]|e]; [| |discriminate];
      cbn [bind] in H; inv H; unfold cells_of in Hc.
    + destruct Hc as [<-|[]]. reflexivity.
    + apply in_map_iff in Hc. destruct Hc as [j [<- _]]. reflexivity.
Qed.

Lemma target_cells_column (n m q : Z) (i0 : indexer1) (t : target) :
  0 <= q < m ->
  target_cells n m (ITuple [i0; IInt q]) = Ok t ->
  forall c, In c (cells_of t) -> snd c = q.
Proof.
  intros Hq H c Hc. cbn [target_cells select1] in H.
  rewrite (norm_pos_in_range _ _ Hq) in H.
  destruct (select1 n i0) as [[p|[|] ps]|e]; [| | |discriminate];
    cbn [bind] in H; inv H; unfold cells_of in Hc.
  - destruct Hc as [<-|[]]. reflexivity.
  - apply in_map_iff in Hc. destruct Hc as [j [<- _]]. reflexivity.
  - apply in_map_iff in Hc. destruct Hc as [j [<- _]]. reflexivity.
Qed.

(** A write at the last row, alone or with a key for the columns, changes
    that row only. *)
Lemma set_values_new_row (index columns : Index) (values : list (list cell))
    (row : list cell) (indexer : indexer) (value : rhs) :
  indexer = I1 (IInt (len values)) \/
  (exists i1, indexer = ITuple [IInt (len values); i1]) ->
  exists row' r,
    set_values (DataFrame index columns (values ++ [row])) indexer value
    = (DataFrame index columns (values ++ [row']), r) /\
    List.length row' = List.length row.
Proof.
  intros Hidx. unfold set_values.
  assert (Hconv : match indexer with
                  | ITuple t => _maybe_convert_ix t
                  | _ => Ok indexer
                  end = Ok indexer)
    by (destruct Hidx as [->|[i1 ->]]; reflexivity).
  rewrite Hconv. cbn [bind].
  match goal with |- context [bind ?m _] =>
    destruct m as [value'|e] end;
    [|exists row, (Raise e); split; reflexivity].
  cbn [bind]. unfold data_setitem.
  destruct (target_cells _ _ indexer) as [t|e] eqn:Et;
    [|exists row, (Raise e); split; reflexivity].
  cbn [bind].
  destruct (broadcast t value') as [writes|e] eqn:Eb;
    [|exists row, (Raise e); split; reflexivity].
  cbn [bind]. rewrite write_cells_new_row.
  - eexists. eexists. split; [reflexivity|].
    rewrite length_map. unfold enumerate.
    rewrite <- (map_snd_enumerate_from row 0) at 2. rewrite length_map.
    reflexivity.
  - intros w Hw.
    apply (target_cells_row (len (values ++ [row])) (len (ilabels columns))
             (len values) indexer t Hidx); [|exact Et|].
    + rewrite len_app. pose proof (len_nonneg values).
      change (len [row]) with 1. lia.
    + eapply broadcast_positions; eassumption.
Qed.

(** A write at one column, with any key for the rows, changes that column
    only. *)
Lemma set_values_column (index columns : Index) (values : list (list cell))
    (i0 : indexer1) (q : Z) (value : rhs) :
  0 <= q < len (ilabels columns) ->
  exists values' r,
    set_values (DataFrame index columns values) (ITuple [i0; IInt q]) value
    = (DataFrame index columns values', r) /\
    (forall i j, Z.of_nat j <> q ->
       cell_at values' i j = cell_at values i j) /\
    (forall i, option_map (@List.length cell) (nth_error values' i)
               = option_map (@List.length cell) (nth_error values i)).
Proof.
  intros Hq. unfold set_values.
  assert (Hconv : _maybe_convert_ix [i0; IInt q] = Ok (ITuple [i0; IInt q])).
  { unfold _maybe_convert_ix. cbn [forallb]. rewrite andb_false_r.
    destruct i0; reflexivity. }
  rewrite Hconv. cbn [bind].
  match goal with |- context [bind ?m _] =>
    destruct m as [value'|e] end;
    [|exists values, (Raise e); repeat split; reflexivity].
  cbn [bind]. unfold data_setitem.
  destruct (target_cells _ _ (ITuple [i0; IInt q])) as [t|e] eqn:Et;
    [|exists values, (Raise e); repeat split; reflexivity].
  cbn [bind].
  destruct (broadcast t value') as [writes|e] eqn:Eb;
    [|exists values, (Raise e); repeat split; reflexivity].
  cbn [bind]. eexists. eexists. split; [reflexivity|]. split.
  - apply write_cells_other_columns. intros w Hw.
    apply (target_cells_column (len values) (len (ilabels columns)) q i0 t
             Hq Et).
    eapply broadcast_positions; eassumption.
  - apply write_cells_shape.
Qed.

(** ** Enlargement, for every value *)

Lemma label_accessors_have_no_gate (self : accessor) (obj : NDFrame)
    (indexer : indexer) :
  self <> iloc -> _has_valid_setitem_indexer self obj indexer = Ok true.
Proof. intro H. destruct self; try reflexivity; congruence. Qed.

Lemma reindex_new_row (index columns : Index) (values : list (list cell))
    (k : scalar) :
  is_unique index = true ->
  contains index k = false ->
  List.length values = List.length (ilabels index) ->
  reindex_axis (DataFrame index columns values)
    (_safe_append_to_index index k) 0
  = Ok (DataFrame (_safe_append_to_index index k) columns
          (values ++ [map (fun _ => NaN) (ilabels columns)])).
Proof.
  intros Huniq Habs Hlen. unfold reindex_axis. cbn [Z.eqb].
  rewrite _safe_append_to_index_labels.
  rewrite reindex_values_enlarged;
    [reflexivity
    |unfold is_unique in Huniq; apply negb_true_iff in Huniq; exact Huniq
    |exact Habs|exact Hlen].
Qed.

(** The resolver hands back the dict of a missing key only for a scalar
    that is no label of the axis. *)
Lemma resolver_missing_absent (self : accessor) (obj : NDFrame) (a : akey)
    (axis : Z) (labels : Index) (k0 : scalar) (is_setter : bool) :
  _get_axis obj axis = Ok labels ->
  _convert_to_indexer self obj a axis is_setter = Ok (IDict k0) ->
  a = KScalar k0 /\ contains labels k0 = false.
Proof.
  intros Hax H.
  assert (Hnd : NDFrameIndexer._convert_to_indexer obj a axis is_setter
                = Ok (IDict k0) ->
                a = KScalar k0 /\ contains labels k0 = false).
  { clear H. unfold NDFrameIndexer._convert_to_indexer. rewrite Hax.
    cbn [bind]. destruct a as [s|sl|l].
    - cbn [get_loc_key _is_list_like negb andb].
      destruct (get_loc labels s) as [l|e] eqn:El.
      + intro H. destruct (integer_key (KScalar s));
          [destruct (negb (_is_integer_index labels))|];
          destruct l; discriminate.
      + pose proof (get_loc_raises_KeyError _ _ _ El) as ->.
        cbn [exn_cls either exn_class_eqb orb negb try_except bind only].
        intro H. destruct (integer_key (KScalar s));
          [destruct (negb (_is_integer_index labels)); [discriminate|]|];
          destruct is_setter; inv H;
          (split; [reflexivity|eapply get_loc_raise_absent; exact El]).
    - cbn [integer_key get_loc_key exn_cls either exn_class_eqb orb negb].
      destruct (convert_slice labels sl); cbn [bind]; intro H; inv H.
    - cbn [integer_key get_loc_key exn_cls either exn_class_eqb orb negb].
      intro H.
      repeat match type of H with
             | (if ?c then _ else _) = _ => destruct c
             | match ?c with Some _ => _ | None => _ end = _ => destruct c
             end; inv H. }
  destruct self; [exact (Hnd H)|exact (Hnd H)|].
  apply iloc_never_missing in H. discriminate.
Qed.

(** A write on a two-axis object under a single key that is a new row
    label: the row axis receives the label at its end and the rows that
    were there are kept, whatever the value is and whether the write of
    the value succeeds. *)
Lemma new_row_by_a_single_key
    (rec : accessor -> NDFrame -> key -> rhs -> NDFrame * res unit)
    (self : accessor) (index columns : Index) (values : list (list cell))
    (k : scalar) (value : rhs) :
  self <> iloc ->
  is_bool k = false ->
  contains index k = false ->
  is_integer k && negb (_is_integer_index index) = false ->
  is_unique index = true ->
  List.length values = List.length (ilabels index) ->
  exists row r,
    setitem_body (setitem_body rec) self (DataFrame index columns values)
      (K (KScalar k)) value
    = (DataFrame (_safe_append_to_index index k) columns (values ++ [row]),
       r) /\
    List.length row = List.length (ilabels columns).
Proof.
  intros Hself Hbool Habs Hlook Huniq Hlen.
  set (labels := _safe_append_to_index index k).
  unfold setitem_body at 1. unfold resolve_key.
  rewrite (resolver_absent_key self (DataFrame index columns values) 0
             index k true) by (auto; reflexivity).
  cbn [bind]. unfold _setitem_with_indexer at 1.
  rewrite label_accessors_have_no_gate by exact Hself.
  unfold _convert_missing_indexer. rewrite Hbool.
  fold labels. unfold labels at 1.
  rewrite reindex_new_row by assumption. fold labels.
  set (obj' := DataFrame labels columns
                 (values ++ [map (fun _ => NaN) (ilabels columns)])).
  unfold setitem_body, resolve_key.
  rewrite (resolver_present_key self obj' 0 labels k
             (LocPos (len (ilabels index))) true);
    [|exact Hself|reflexivity
     |apply append_keeps_lookup; assumption
     |apply get_loc_appended; exact Habs].
  cbn [bind indexer_of_location].
  rewrite _setitem_with_indexer_no_missing by (reflexivity || exact I).
  rewrite label_accessors_have_no_gate by exact Hself.
  replace (len (ilabels index)) with (len values)
    by (unfold len; rewrite Hlen; reflexivity).
  destruct (set_values_new_row labels columns values
              (map (fun _ => NaN) (ilabels columns))
              (I1 (IInt (len values))) value (or_introl eq_refl))
    as [row [r [Hset Hrow]]].
  exists row, r. split; [exact Hset|].
  rewrite Hrow. apply length_map.
Qed.

Lemma enlarge_tuple_pass
    (rec : accessor -> NDFrame -> key -> rhs -> NDFrame * res unit)
    (self_ndim : Z) (indexer : list indexer1) (value : rhs) (obj : NDFrame)
    (i : Z) (idx : indexer1) (rest : list (Z * indexer1))
    (nindexer : list indexer1) :
  is_dict idx = false ->
  enlarge_tuple rec self_ndim indexer value obj ((i, idx) :: rest) nindexer
  = enlarge_tuple rec self_ndim indexer value obj rest (nindexer ++ [idx]).
Proof. intro H. destruct idx; try discriminate; reflexivity. Qed.

(** The same under a tuple key whose first entry is the new row label. *)
Lemma new_row_by_a_tuple_key
    (rec : accessor -> NDFrame -> key -> rhs -> NDFrame * res unit)
    (self : accessor) (index columns : Index) (values : list (list cell))
    (k : scalar) (b : akey) (i1 : indexer1) (value : rhs) :
  self <> iloc ->
  is_bool k = false ->
  contains index k = false ->
  is_integer k && negb (_is_integer_index index) = false ->
  is_unique index = true ->
  List.length values = List.length (ilabels index) ->
  _convert_to_indexer self (DataFrame index columns values) b 1 true
  = Ok i1 ->
  is_dict i1 = false ->
  exists row r,
    setitem_body rec self (DataFrame index columns values)
      (KTuple [KScalar k; b]) value
    = (DataFrame (_safe_append_to_index index k) columns (values ++ [row]),
       r) /\
    List.length row = List.length (ilabels columns).
Proof.
  intros Hself Hbool Habs Hlook Huniq Hlen Hb Hi1.
  set (labels := _safe_append_to_index index k).
  set (df := DataFrame index columns values).
  unfold setitem_body. cbn [resolve_key].
  change (ndim df <? len [KScalar k; b]) with false. cbv iota.
  unfold _convert_tuple, enumerate. cbn [enumerate_from mapM fst snd].
  change (0 + 1) with 1.
  rewrite (resolver_absent_key self df 0 index k true)
    by (auto; reflexivity).
  fold df in Hb. rewrite Hb. cbn [bind].
  unfold _setitem_with_indexer.
  rewrite label_accessors_have_no_gate by exact Hself.
  unfold enumerate. cbn [enumerate_from]. change (0 + 1) with 1.
  cbn [enlarge_tuple]. unfold _convert_missing_indexer. rewrite Hbool.
  cbn [ndim df _info_axis_number Z.ltb Z.eqb Z.compare Pos.compare
       Pos.compare_cont andb _get_axis axes nth_error Z.to_nat].
  fold labels. unfold labels at 1. unfold df.
  rewrite reindex_new_row by assumption. fold labels.
  unfold labels at 1. rewrite get_loc_appended by exact Habs. fold labels.
  replace (len (ilabels index)) with (len values)
    by (unfold len; rewrite Hlen; reflexivity).
  destruct (set_values_new_row labels columns values
              (map (fun _ => NaN) (ilabels columns))
              (ITuple [IInt (len values); i1]) value
              (or_intror (ex_intro _ i1 eq_refl)))
    as [row [r [Hset Hrow]]].
  exists row, r. split; [|rewrite Hrow; apply length_map].
  destruct i1; try discriminate Hi1; exact Hset.
Qed.

Lemma cell_at_app (values : list (list cell)) (row : list cell) (i j : nat) :
  (i < List.length values)%nat ->
  cell_at (values ++ [row]) i j = cell_at values i j.
Proof. intro H. unfold cell_at. rewrite nth_error_app1 by exact H. reflexivity. Qed.

Lemma cell_at_appended_column (values : list (list cell)) (i j : nat)
    (c : cell) :
  cell_at values i j = Some c ->
  cell_at (map (fun row => row ++ [NaN]) values) i j = Some c.
Proof.
  unfold cell_at. rewrite nth_error_map.
  destruct (nth_error values i) as [row|]; [|discriminate].
  cbn [option_map]. intro H. rewrite nth_error_app1; [exact H|].
  apply nth_error_Some. congruence.
Qed.

Lemma cell_at_row (values : list (list cell)) (i j : nat) (c : cell) :
  cell_at values i j = Some c -> (i < List.length values)%nat.
Proof.
  unfold cell_at. destruct (nth_error values i) eqn:E; [|discriminate].
  intros _. apply nth_error_Some. congruence.
Qed.

Lemma cell_at_column (columns : Index) (values : list (list cell))
    (i j : nat) (c : cell) :
  forallb (fun row => Nat.eqb (List.length row)
                        (List.length (ilabels columns))) values = true ->
  cell_at values i j = Some c -> (j < List.length (ilabels columns))%nat.
Proof.
  intros Hwf. unfold cell_at.
  destruct (nth_error values i) as [row|] eqn:E; [|discriminate].
  intro H. rewrite forallb_forall in Hwf.
  specialize (Hwf row (nth_error_In _ _ E)). apply Nat.eqb_eq in Hwf.
  rewrite <- Hwf. apply nth_error_Some. congruence.
Qed.

(** A write through [loc] under a pair of keys whose second entry is a
    label that occurs once on the columns: whatever the first entry and
    the value are, the call changes nothing outside the column of the
    label and the rows it may append. *)
Lemma write_at_a_present_column
    (rec : accessor -> NDFrame -> key -> rhs -> NDFrame * res unit)
    (index columns : Index) (values : list (list cell)) (a : akey)
    (k : scalar) (m : Z) (value : rhs) :
  get_loc columns k = Ok (LocPos m) ->
  is_integer k && negb (_is_integer_index columns) = false ->
  0 <= m < len (ilabels columns) ->
  is_unique index = true ->
  List.length values = List.length (ilabels index) ->
  exists index' values' r,
    setitem_body rec loc (DataFrame index columns values)
      (KTuple [a; KScalar k]) value
    = (DataFrame index' columns values', r) /\
    (exists ext, ilabels index' = ilabels index ++ ext) /\
    (forall i j, Z.of_nat j <> m -> (i < List.length values)%nat ->
       cell_at values' i j = cell_at values i j).
Proof.
  intros Hloc Hlook Hm Huniq Hlen.
  set (df := DataFrame index columns values).
  assert (Hkeep : forall r : res unit, exists index' values' r',
             (df, r) = (DataFrame index' columns values', r') /\
             (exists ext, ilabels index' = ilabels index ++ ext) /\
             (forall i j, Z.of_nat j <> m -> (i < List.length values)%nat ->
                cell_at values' i j = cell_at values i j)).
  { intro r. exists index, values, r. split; [reflexivity|]. split.
    - exists []. symmetry. apply app_nil_r.
    - reflexivity. }
  unfold setitem_body. cbn [resolve_key].
  change (ndim df <? len [a; KScalar k]) with false. cbv iota.
  unfold _convert_tuple, enumerate. cbn [enumerate_from mapM fst snd].
  change (0 + 1) with 1.
  destruct (_convert_to_indexer loc df a 0 true) as [j0|e] eqn:Ea;
    [|apply Hkeep].
  cbn [bind].
  rewrite (resolver_present_key loc df 1 columns k (LocPos m) true);
    [|discriminate|reflexivity|exact Hlook|exact Hloc].
  cbn [bind indexer_of_location].
  unfold _setitem_with_indexer. cbn [_has_valid_setitem_indexer].
  unfold enumerate. cbn [enumerate_from]. change (0 + 1) with 1.
  assert (Hcol : forall j0',
             is_dict j0' = false ->
             exists index' values' r,
               match enlarge_tuple rec (ndim df) [j0; IInt m] value df
                       [(0, j0'); (1, IInt m)] [] with
               | Returned obj' r => (obj', r)
               | Converted obj' nindexer =>
                 set_values obj' (ITuple nindexer) value
               end = (DataFrame index' columns values', r) /\
               (exists ext, ilabels index' = ilabels index ++ ext) /\
               (forall i j, Z.of_nat j <> m -> (i < List.length values)%nat ->
                  cell_at values' i j = cell_at values i j)).
  { intros j0' Hd.
    destruct (set_values_column index columns values j0' m value Hm)
      as [values' [r [Hset [Hcells _]]]].
    exists index, values', r. split; [|split].
    - destruct j0'; try discriminate Hd; exact Hset.
    - exists []. symmetry. apply app_nil_r.
    - intros i j Hj _. apply Hcells. exact Hj. }
  destruct j0 as [p|sl|arr|mask|l|k0];
    try (apply Hcol; reflexivity).
  destruct (resolver_missing_absent loc df a 0 index k0 true eq_refl Ea)
    as [_ Habs].
  cbn [enlarge_tuple]. unfold _convert_missing_indexer.
  destruct (is_bool k0); [apply Hkeep|].
  cbn [ndim df _info_axis_number Z.ltb Z.eqb Z.compare Pos.compare
       Pos.compare_cont andb _get_axis axes nth_error Z.to_nat].
  unfold df. rewrite reindex_new_row by assumption.
  rewrite get_loc_appended by exact Habs.
  cbn [app indexer_of_location].
  replace (len (ilabels index)) with (len values)
    by (unfold len; rewrite Hlen; reflexivity).
  destruct (set_values_column (_safe_append_to_index index k0) columns
              (values ++ [map (fun _ => NaN) (ilabels columns)])
              (IInt (len values)) m value Hm)
    as [values' [r [Hset [Hcells _]]]].
  exists (_safe_append_to_index index k0), values', r.
  split; [exact Hset|]. split.
  - exists [k0]. apply _safe_append_to_index_labels.
  - intros i j Hj Hi. rewrite Hcells by exact Hj.
    apply cell_at_app. exact Hi.
Qed.

Lemma has_dups_appended (l : list scalar) (k : scalar) :
  has_dups l = false ->
  existsb (scalar_eqb k) l = false ->
  has_dups (l ++ [k]) = false.
Proof.
  induction l as [|x l IH]; intros Hd Hk; [reflexivity|].
  cbn [has_dups existsb app] in *.
  apply orb_false_iff in Hd. destruct Hd as [Hx Hd].
  apply orb_false_iff in Hk. destruct Hk as [Hkx Hk].
  rewrite existsb_app, Hx. cbn [existsb orb].
  rewrite scalar_eqb_sym, Hkx. cbn [orb]. apply IH; assumption.
Qed.

Lemma is_unique_appended (index : Index) (k : scalar) :
  is_unique index = true ->
  contains index k = false ->
  is_unique (_safe_append_to_index index k) = true.
Proof.
  unfold is_unique, contains. intros Hu Hk.
  rewrite _safe_append_to_index_labels. apply negb_true_iff.
  apply negb_true_iff in Hu. apply has_dups_appended; assumption.
Qed.

Lemma returned_as_it_is (x : NDFrame * res unit) (value : rhs) :
  match (let (obj'', r) := x in Returned obj'' r) with
  | Returned obj' r => (obj', r)
  | Converted obj' nindexer => set_values obj' (ITuple nindexer) value
  end = x.
Proof. destruct x; reflexivity. Qed.

(** A write under a tuple key whose second entry is a new column label:
    the column axis receives the label at its end and every cell that
    was there is kept, whatever the first entry and the value are and
    whether the write of the value succeeds. *)
Lemma new_column_by_a_tuple_key
    (rec : accessor -> NDFrame -> key -> rhs -> NDFrame * res unit)
    (self : accessor) (index columns : Index) (values : list (list cell))
    (a : akey) (i0 : indexer1) (k : scalar) (value : rhs) :
  self <> iloc ->
  is_bool k = false ->
  contains columns k = false ->
  is_integer k && negb (_is_integer_index columns) = false ->
  well_formed (DataFrame index columns values) = true ->
  is_unique index = true ->
  _convert_to_indexer self (DataFrame index columns values) a 0 true
  = Ok i0 ->
  match i0 with IDict k0 => is_bool k0 = false | _ => True end ->
  exists index' values' r,
    setitem_body (setitem_body rec) self (DataFrame index columns values)
      (KTuple [a; KScalar k]) value
    = (DataFrame index' (_safe_append_to_index columns k) values', r) /\
    (exists ext, ilabels index' = ilabels index ++ ext) /\
    (forall i j c, cell_at values i j = Some c ->
                   cell_at values' i j = Some c).
Proof.
  intros Hself Hbool Habs Hlook Hwf Huniq Ha Hi0.
  cbn [well_formed] in Hwf. apply andb_true_iff in Hwf.
  destruct Hwf as [Hlen Hrows]. apply Nat.eqb_eq in Hlen.
  set (columns' := _safe_append_to_index columns k).
  set (df := DataFrame index columns values).
  assert (Hm : 0 <= len (ilabels columns) < len (ilabels columns')).
  { unfold columns'. rewrite _safe_append_to_index_labels, len_app.
    pose proof (len_nonneg (ilabels columns)). change (len [k]) with 1. lia. }
  assert (Hlook' : is_integer k && negb (_is_integer_index columns') = false)
    by (apply append_keeps_lookup; assumption).
  assert (Hloc' : get_loc columns' k = Ok (LocPos (len (ilabels columns))))
    by (apply get_loc_appended; exact Habs).
  unfold setitem_body at 1. cbn [resolve_key].
  change (ndim df <? len [a; KScalar k]) with false. cbv iota.
  unfold _convert_tuple, enumerate. cbn [enumerate_from mapM fst snd].
  change (0 + 1) with 1. fold df in Ha. rewrite Ha. cbn [bind].
  rewrite (resolver_absent_key self df 1 columns k true)
    by (auto; reflexivity).
  cbn [bind]. unfold _setitem_with_indexer.
  rewrite label_accessors_have_no_gate by exact Hself.
  unfold enumerate. cbn [enumerate_from]. change (0 + 1) with 1.
  (* the column is appended and the nested call writes *)
  assert (Hnested : forall index1 values1 a1,
             is_unique index1 = true ->
             List.length values1 = List.length (ilabels index1) ->
             (exists ext, ilabels index1 = ilabels index ++ ext) ->
             (forall i j c, cell_at values i j = Some c ->
                            cell_at values1 i j = Some c) ->
             forallb (fun row => Nat.eqb (List.length row)
                                   (List.length (ilabels columns)))
                     values = true ->
             exists index' values' r,
               setitem_body rec loc
                 (DataFrame index1 columns'
                    (map (fun row => row ++ [NaN]) values1))
                 (KTuple [a1; KScalar k]) value
               = (DataFrame index' columns' values', r) /\
               (exists ext, ilabels index' = ilabels index ++ ext) /\
               (forall i j c, cell_at values i j = Some c ->
                              cell_at values' i j = Some c)).
  { intros index1 values1 a1 Hu1 Hl1 [ext1 Hext1] Hc1 Hrows1.
    destruct (write_at_a_present_column rec index1 columns'
                (map (fun row => row ++ [NaN]) values1) a1 k
                (len (ilabels columns)) value Hloc' Hlook' Hm Hu1)
      as [index' [values' [r [Hset [[ext Hext] Hcells]]]]].
    { rewrite length_map. exact Hl1. }
    exists index', values', r. split; [exact Hset|]. split.
    - exists (ext1 ++ ext). rewrite Hext, Hext1, app_assoc. reflexivity.
    - intros i j c Hc.
      pose proof (cell_at_column columns values i j c Hrows1 Hc) as Hj.
      pose proof (Hc1 i j c Hc) as Hc'.
      rewrite Hcells.
      + apply cell_at_appended_column. exact Hc'.
      + unfold len. lia.
      + rewrite length_map. eapply cell_at_row. exact Hc'. }
  destruct i0 as [p|sl|arr|mask|l|k0].
  1-5: cbn [enlarge_tuple app]; unfold _convert_missing_indexer;
    rewrite Hbool;
    cbn [ndim df _info_axis_number Z.ltb Z.eqb Z.compare Pos.compare
         Pos.compare_cont andb Pos.eqb];
    unfold setitem_nan, df; rewrite Habs; fold columns';
    unfold _convert_from_missing_indexer_tuple; cbn [map key_of_indexer];
    rewrite returned_as_it_is;
    apply Hnested; try assumption;
    [exists []; symmetry; apply app_nil_r|intros i j c Hc; exact Hc].
  destruct (resolver_missing_absent self df a 0 index k0 true eq_refl Ha)
    as [_ Habs0].
  cbn [enlarge_tuple]. unfold _convert_missing_indexer at 1. rewrite Hi0.
  cbn [ndim df _info_axis_number Z.ltb Z.eqb Z.compare Pos.compare
       Pos.compare_cont andb _get_axis axes nth_error Z.to_nat].
  unfold df. rewrite reindex_new_row by assumption.
  rewrite get_loc_appended by exact Habs0.
  unfold _convert_missing_indexer. rewrite Hbool.
  cbn [_info_axis_number Z.eqb Pos.eqb andb].
  unfold setitem_nan. rewrite Habs. fold columns'.
  unfold _convert_from_missing_indexer_tuple. cbn [map key_of_indexer].
  rewrite returned_as_it_is.
  apply Hnested.
  - apply is_unique_appended; assumption.
  - rewrite _safe_append_to_index_labels, !length_app. cbn [List.length].
    lia.
  - exists [k0]. apply _safe_append_to_index_labels.
  - intros i j c Hc. rewrite cell_at_app; [exact Hc|].
    eapply cell_at_row. exact Hc.
  - exact Hrows.
Qed.

(** ** A labelled vector assigned to a row or to a column *)




(** ** C3: a key that is not found *)

(** The dict of a bool at the head of a tuple indexer *)
Lemma bool_at_the_head_of_a_tuple (self : accessor) (o : NDFrame)
    (b : bool) (rest : list indexer1) (value : rhs) :
  self <> iloc ->
  setitem_with_indexer self o (ITuple (IDict (SBool b) :: rest)) value
  = (o, Raise (Exn KeyError "cannot use a single bool to index into setitem")).
Proof.
  intro Hself. unfold setitem_with_indexer, _setitem_with_indexer.
  rewrite label_accessors_have_no_gate by exact Hself.
  unfold enumerate. cbn [enumerate_from enlarge_tuple].
  reflexivity.
Qed.

(** The dict of a bool as the second entry of a tuple indexer on a
    two-axis object: the call raises, the columns are as they were, and
    the rows are as the first entry left them. *)
Lemma bool_as_the_second_entry (self : accessor) (index columns : Index)
    (values : list (list cell)) (i0 : indexer1) (b : bool) (value : rhs) :
  self <> iloc ->
  exists index' values',
    setitem_with_indexer self (DataFrame index columns values)
      (ITuple [i0; IDict (SBool b)]) value
    = (DataFrame index' columns values',
       Raise (Exn KeyError "cannot use a single bool to index into setitem")) /\
    (is_dict i0 = false -> index' = index /\ values' = values).
Proof.
  intro Hself. unfold setitem_with_indexer, _setitem_with_indexer.
  rewrite label_accessors_have_no_gate by exact Hself.
  unfold enumerate. cbn [enumerate_from]. change (0 + 1) with 1.
  destruct i0 as [p|sl|arr|mask|l|k0];
    try (exists index, values; split; [reflexivity|split; reflexivity]).
  cbn [enlarge_tuple]. unfold _convert_missing_indexer at 1.
  destruct (is_bool k0).
  - exists index, values. split; [reflexivity|]. discriminate.
  - cbn [ndim _info_axis_number Z.ltb Z.eqb Z.compare Pos.compare
         Pos.compare_cont andb _get_axis axes nth_error Z.to_nat
         reindex_axis].
    destruct (get_loc (_safe_append_to_index index k0) k0) as [l|e] eqn:E.
    + cbn [_convert_missing_indexer is_bool].
      eexists. eexists. split; [reflexivity|]. discriminate.
    + exfalso.
      destruct (get_loc_present (_safe_append_to_index index k0) k0)
        as [l Hl]; [|congruence].
      unfold contains. rewrite _safe_append_to_index_labels.
      rewrite existsb_app. cbn [existsb]. rewrite scalar_eqb_refl.
      rewrite orb_true_r. reflexivity.
Qed.

(** C3 (as amended).  A scalar key that the resolver of [ix] or [loc]
    looks up as a label on an axis and does not find: the read raises
    KeyError, the resolver in read mode raises the same KeyError, and in
    setter mode it returns the dict [{'key': key}] with the key as it was
    given.  For a key that is not a bool the dict unwraps as "missing" and
    the assignment enlarges the axis of the key: as a single key, a
    one-axis object receives the label with the scalar at its end and a
    two-axis object a row under the label; in a tuple key, the row axis
    (first entry, any key that is found for the columns) or the column
    axis (second entry, any key for the rows other than a bool that is
    not found) receives the label at its end, for every value.  For a
    bool key the unwrapping raises KeyError and the axis of the key is not
    enlarged: a single key and the first entry of a tuple leave the
    target as it was; as the second entry of a tuple the columns are as
    they were (the rows are as the first entry left them).  The indexer
    class of the one-axis container hands the dict of a missing key to
    the same assignment.  The assignments are those of objects that are
    not of mixed type: where no object is, the method with the split path
    is the method of the single block. *)
Theorem C3_missing_key_read_and_write
    (gi : accessor -> NDFrame -> list scalar -> Z -> res value)
    (obj : NDFrame) (axis : Z) (labels : Index) (k : scalar) :
  _get_axis obj axis = Ok labels ->
  is_integer k && negb (_is_integer_index labels) = false ->
  get_loc labels k = Raise (Exn KeyError "label not found") ->
  (forall self, self <> iloc ->
     _convert_to_indexer self obj (KScalar k) axis false
     = Raise (Exn KeyError "label not found") /\
     _convert_to_indexer self obj (KScalar k) axis true = Ok (IDict k)) /\
  _getitem_axis gi ix obj (KScalar k) axis
  = Raise (Exn KeyError "label not found") /\
  _getitem_axis gi loc obj (KScalar k) axis
  = Raise (Exn KeyError "label not found") /\
  (is_bool k = false ->
     _convert_missing_indexer (IDict k) = Ok (TheKey k, true) /\
     (forall self index values c, self <> iloc ->
        exists index',
          setitem_with_indexer self (Series index values) (I1 (IDict k))
            (RScalar c)
          = (Series index' (values ++ [c]), Ok tt) /\
          ilabels index' = ilabels index ++ [k]) /\
     (forall self index columns values value,
        self <> iloc ->
        obj = DataFrame index columns values ->
        well_formed obj = true ->
        is_unique index = true ->
        (axis = 0 ->
           exists row r,
             __setitem__ self obj (K (KScalar k)) value
             = (DataFrame (_safe_append_to_index index k) columns
                  (values ++ [row]), r)) /\
        (axis = 0 ->
           forall b i1,
             _convert_to_indexer self obj b 1 true = Ok i1 ->
             is_dict i1 = false ->
             exists row r,
               __setitem__ self obj (KTuple [KScalar k; b]) value
               = (DataFrame (_safe_append_to_index index k) columns
                    (values ++ [row]), r)) /\
        (axis = 1 ->
           forall a i0,
             _convert_to_indexer self obj a 0 true = Ok i0 ->
             match i0 with IDict k0 => is_bool k0 = false | _ => True end ->
             exists index' values' r,
               __setitem__ self obj (KTuple [a; KScalar k]) value
               = (DataFrame index' (_safe_append_to_index columns k) values',
                  r)))) /\
  (is_bool k = true ->
     (forall self o value, self <> iloc ->
        setitem_with_indexer self o (I1 (IDict k)) value
        = (o, Raise (Exn KeyError
                       "cannot use a single bool to index into setitem"))) /\
     (forall self o rest value, self <> iloc ->
        setitem_with_indexer self o (ITuple (IDict k :: rest)) value
        = (o, Raise (Exn KeyError
                       "cannot use a single bool to index into setitem"))) /\
     (forall self index columns values i0 value, self <> iloc ->
        exists index' values',
          setitem_with_indexer self (DataFrame index columns values)
            (ITuple [i0; IDict k]) value
          = (DataFrame index' columns values',
             Raise (Exn KeyError
                      "cannot use a single bool to index into setitem")) /\
          (is_dict i0 = false -> index' = index /\ values' = values))) /\
  (forall _set_values rec self o value,
     SeriesIndexer._setitem_with_indexer _set_values rec self o
       (I1 (IDict k)) value
     = _setitem_with_indexer rec self o (I1 (IDict k)) value) /\
  (forall mixed getitem_item setitem_item,
     (forall o, mixed o = false) ->
     forall self o key value,
       MixedType.__setitem__ mixed getitem_item setitem_item self o key value
       = __setitem__ self o key value).
Proof.
  intros Hax Hlook Hloc.
  pose proof (get_loc_raise_absent _ _ _ Hloc) as Habs.
  split; [|split; [|split; [|split; [|split; [|split]]]]].
  - intros self Hself. split.
    + apply (resolver_absent_key self obj axis labels k false); assumption.
    + apply (resolver_absent_key self obj axis labels k true); assumption.
  - unfold _getitem_axis. rewrite Hax. cbn [bind]. rewrite Hlook.
    eapply _get_label_raise; eauto.
  - unfold _getitem_axis. rewrite Hax. cbn [bind].
    eapply _get_label_raise; eauto.
  - intros Hbool. split; [|split].
    + unfold _convert_missing_indexer. rewrite Hbool. reflexivity.
    + intros self index values c Hself. unfold setitem_with_indexer.
      apply setitem_with_missing_key_Series; assumption.
    + intros self index columns values value Hself -> Hwf Huniq.
      assert (Hlen : List.length values = List.length (ilabels index)).
      { cbn [well_formed] in Hwf. apply andb_true_iff in Hwf.
        destruct Hwf as [Hlen _]. apply Nat.eqb_eq in Hlen. exact Hlen. }
      split; [|split].
      * intros ->. cbn in Hax.
        assert (Hl : labels = index) by congruence. subst labels.
        destruct (new_row_by_a_single_key
                    (setitem_body (setitem_body (setitem_rec 0)))
                    self index columns values k value)
          as [row [r [Hset _]]]; try assumption.
        exists row, r. exact Hset.
      * intros -> b i1 Hb Hi1. cbn in Hax.
        assert (Hl : labels = index) by congruence. subst labels.
        destruct (new_row_by_a_tuple_key
                    (setitem_body (setitem_body (setitem_body (setitem_rec 0))))
                    self index columns values k b i1 value)
          as [row [r [Hset _]]]; try assumption.
        exists row, r. exact Hset.
      * intros -> a i0 Ha Hi0.
        assert (Hl : Ok columns = Ok labels) by exact Hax.
        inversion Hl. subst labels.
        destruct (new_column_by_a_tuple_key
                    (setitem_body (setitem_body (setitem_rec 0)))
                    self index columns values a i0 k value)
          as [index' [values' [r [Hset _]]]]; try assumption.
        exists index', values', r. exact Hset.
  - intros Hbool. destruct k as [z|s|b]; try discriminate.
    split; [|split].
    + intros self o value Hself. unfold setitem_with_indexer,
        _setitem_with_indexer.
      rewrite label_accessors_have_no_gate by exact Hself. reflexivity.
    + intros self o rest value Hself.
      apply bool_at_the_head_of_a_tuple. exact Hself.
    + intros self index columns values i0 value Hself.
      apply bool_as_the_second_entry. exact Hself.
  - reflexivity.
  - intros mixed gi0 si Hmixed self obj0 key value.
    apply mixed_type_never. exact Hmixed.
Qed.

Lemma C3_witness :
  let s := Series (Index_of [SStr "a"; SStr "b"]) [Num 1; Num 2] in
  _convert_to_indexer ix s (KScalar (SStr "z")) 0 false
  = Raise (Exn KeyError "label not found") /\
  _convert_to_indexer ix s (KScalar (SStr "z")) 0 true
  = Ok (IDict (SStr "z")).
Proof.
  intros s.
  destruct (C3_missing_key_read_and_write no_getitem_iterable s 0
              (Index_of [SStr "a"; SStr "b"]) (SStr "z")
              eq_refl eq_refl eq_refl) as [H _].
  apply (H ix). discriminate.
Defined.

(** The key True is no label of the axis [10, 20, 30]: the resolver hands
    back the dict of a missing key, and the assignment raises instead of
    enlarging the axis. *)
Lemma C3_counterexample :
  let index := Index_of [SInt 10; SInt 20; SInt 30] in
  let s := Series index [Num 1; Num 2; Num 3] in
  get_loc index (SBool true) = Raise (Exn KeyError "label not found") /\
  _convert_to_indexer ix s (KScalar (SBool true)) 0 true
  = Ok (IDict (SBool true)) /\
  __setitem__ ix s (K (KScalar (SBool true))) (RScalar (Num 9))
  = (s, Raise (Exn KeyError "cannot use a single bool to index into setitem")) /\
  ~ (exists s', __setitem__ ix s (K (KScalar (SBool true))) (RScalar (Num 9))
                = (s', Ok tt)).
Proof.
  intros index s. repeat split; try reflexivity.
  intros [s' H]. vm_compute in H. discriminate.
Qed.

(** ** C4: enlargement by a write to a new label *)





(** ** C6: alignment of a labelled value *)
















(** * Properties of the Excel module *)

Import Ascii.

(** ** Column names *)

Lemma upper_char_letter (a : Ascii.ascii) :
  is_letter a = true ->
  (65 <= Ascii.nat_of_ascii (Excel.upper_char a) <= 90)%nat /\
  Excel.is_space (Excel.upper_char a) = false /\
  Ascii.eqb a ":"%char = false /\ Ascii.eqb a ","%char = false /\
  Ascii.eqb a "."%char = false.
Proof.
  destruct a as [[] [] [] [] [] [] [] []]; vm_compute; intro H;
    try discriminate; repeat split; lia.
Qed.

Lemma rstrip_no_space (s : string) :
  (forall a, In a (list_ascii_of_string s) -> Excel.is_space a = false) ->
  Excel.rstrip s = s.
Proof.
  induction s as [|a s IH]; intro H.
  - reflexivity.
  - cbn [Excel.rstrip]. rewrite IH.
    + destruct s; [|reflexivity].
      rewrite (H a) by (left; reflexivity). reflexivity.
    + intros b Hb. apply H. right. exact Hb.
Qed.

Lemma upper_letters_no_space (s : string) :
  letters s = true ->
  forall a, In a (list_ascii_of_string (Excel.upper s)) ->
            Excel.is_space a = false /\
            (65 <= Ascii.nat_of_ascii a <= 90)%nat.
Proof.
  induction s as [|c s IH]; intros H a Ha.
  - destruct Ha.
  - cbn [letters] in H. apply andb_true_iff in H. destruct H as [Hc Hs].
    cbn [Excel.upper list_ascii_of_string In] in Ha.
    destruct Ha as [<-|Ha].
    + destruct (upper_char_letter c Hc) as (H1 & H2 & _). split; assumption.
    + apply IH; assumption.
Qed.

Lemma strip_upper_letters (s : string) :
  letters s = true -> Excel.strip (Excel.upper s) = Excel.upper s.
Proof.
  intro H. unfold Excel.strip.
  assert (Hl : Excel.lstrip (Excel.upper s) = Excel.upper s).
  { destruct s as [|c s]; [reflexivity|].
    cbn [letters] in H. apply andb_true_iff in H. destruct H as [Hc _].
    cbn [Excel.upper Excel.lstrip].
    destruct (upper_char_letter c Hc) as (_ & -> & _). reflexivity. }
  rewrite Hl. apply rstrip_no_space.
  intros a Ha. apply (upper_letters_no_space s H a Ha).
Qed.

Lemma reduce_fold_left {A} (f : A -> Ascii.ascii -> A) (s : string)
    (init : A) :
  Excel.reduce f s init = fold_left f (list_ascii_of_string s) init.
Proof.
  revert init. induction s as [|a s IH]; intros init.
  - reflexivity.
  - cbn [Excel.reduce list_ascii_of_string fold_left]. apply IH.
Qed.

Lemma column_value_app (l : list Ascii.ascii) (c : Ascii.ascii) :
  fold_left (fun s a => s * 26 + Excel.ord a - Excel.ord "A"%char + 1)
    (l ++ [c]) 0
  = fold_left (fun s a => s * 26 + Excel.ord a - Excel.ord "A"%char + 1) l 0 * 26
    + (Excel.ord c - 64).
Proof.
  rewrite fold_left_app. cbn [fold_left].
  change (Excel.ord "A"%char) with 65. lia.
Qed.

Lemma column_value_pos (l : list Ascii.ascii) :
  (forall a, In a l -> (65 <= Ascii.nat_of_ascii a <= 90)%nat) ->
  0 <= fold_left (fun s a => s * 26 + Excel.ord a - Excel.ord "A"%char + 1) l 0 /\
  (l <> [] ->
   1 <= fold_left (fun s a => s * 26 + Excel.ord a - Excel.ord "A"%char + 1) l 0).
Proof.
  induction l as [|c l IH] using rev_ind; intro H.
  - split; [simpl; lia|congruence].
  - rewrite column_value_app.
    assert (Hc : (65 <= Ascii.nat_of_ascii c <= 90)%nat)
      by (apply H; apply in_or_app; right; left; reflexivity).
    destruct IH as [IH _];
      [intros a Ha; apply H; apply in_or_app; left; exact Ha|].
    unfold Excel.ord in *. split; [lia|intros _; lia].
Qed.

Lemma column_value_injective (l1 l2 : list Ascii.ascii) :
  (forall a, In a l1 -> (65 <= Ascii.nat_of_ascii a <= 90)%nat) ->
  (forall a, In a l2 -> (65 <= Ascii.nat_of_ascii a <= 90)%nat) ->
  fold_left (fun s a => s * 26 + Excel.ord a - Excel.ord "A"%char + 1) l1 0
  = fold_left (fun s a => s * 26 + Excel.ord a - Excel.ord "A"%char + 1) l2 0 ->
  l1 = l2.
Proof.
  revert l2. induction l1 as [|c1 l1 IH] using rev_ind; intros l2 H1 H2 Heq.
  - destruct l2 as [|c l2]; [reflexivity|].
    destruct (column_value_pos (c :: l2) H2) as [_ Hp].
    specialize (Hp ltac:(discriminate)). simpl in Heq. simpl in Hp. lia.
  - destruct l2 as [|c2 l2 _] using rev_ind.
    + destruct (column_value_pos (l1 ++ [c1]) H1) as [_ Hp].
      specialize (Hp ltac:(intro Hn; apply app_eq_nil in Hn;
                           destruct Hn; discriminate)).
      simpl in Heq. lia.
    + rewrite !column_value_app in Heq.
      assert (Hc1 : (65 <= Ascii.nat_of_ascii c1 <= 90)%nat)
        by (apply H1; apply in_or_app; right; left; reflexivity).
      assert (Hc2 : (65 <= Ascii.nat_of_ascii c2 <= 90)%nat)
        by (apply H2; apply in_or_app; right; left; reflexivity).
      unfold Excel.ord in *.
      assert (Hd : Ascii.nat_of_ascii c1 = Ascii.nat_of_ascii c2) by lia.
      assert (Hc : c1 = c2).
      { rewrite <- (Ascii.ascii_nat_embedding c1),
          <- (Ascii.ascii_nat_embedding c2), Hd. reflexivity. }
      subst c2. f_equal. apply IH.
      * intros a Ha. apply H1. apply in_or_app. left. exact Ha.
      * intros a Ha. apply H2. apply in_or_app. left. exact Ha.
      * lia.
Qed.

(** X24.  [_excel2num] does not depend on the case of the letters and
    tells column names apart: two names made of letters have the same
    number only when they are the same name up to case.  The number of a
    name is at least 0, and that of the empty name is -1. *)
Theorem excel2num_is_injective (x y : string) :
  letters x = true -> letters y = true ->
  Excel._excel2num (Excel.upper x) = Excel._excel2num x /\
  (Excel._excel2num x = Excel._excel2num y -> Excel.upper x = Excel.upper y) /\
  (x <> "" -> 0 <= Excel._excel2num x) /\
  Excel._excel2num "" = -1.
Proof.
  intros Hx Hy.
  assert (Hval : forall s, letters s = true ->
            Excel._excel2num s
            = fold_left (fun s a => s * 26 + Excel.ord a - Excel.ord "A"%char + 1)
                (list_ascii_of_string (Excel.upper s)) 0 - 1).
  { intros s Hs. unfold Excel._excel2num.
    rewrite (strip_upper_letters s Hs). rewrite reduce_fold_left.
    reflexivity. }
  assert (Hup : forall s, Excel.upper (Excel.upper s) = Excel.upper s).
  { induction s as [|a s IH]; [reflexivity|].
    cbn [Excel.upper]. rewrite IH. f_equal.
    destruct a as [[] [] [] [] [] [] [] []]; reflexivity. }
  assert (Hlet : forall s, letters s = true -> letters (Excel.upper s) = true).
  { induction s as [|a s IH]; [reflexivity|]. cbn [letters Excel.upper].
    intro H. apply andb_true_iff in H. destruct H as [Ha Hs].
    rewrite (IH Hs), andb_true_r.
    revert Ha. destruct a as [[] [] [] [] [] [] [] []]; vm_compute;
      intro; congruence. }
  split; [|split; [|split]].
  - rewrite (Hval _ (Hlet _ Hx)), (Hval _ Hx), Hup. reflexivity.
  - intro Heq. rewrite (Hval _ Hx), (Hval _ Hy) in Heq.
    assert (Hl : list_ascii_of_string (Excel.upper x)
                 = list_ascii_of_string (Excel.upper y)).
    { apply column_value_injective.
      - intros a Ha. apply (upper_letters_no_space x Hx a Ha).
      - intros a Ha. apply (upper_letters_no_space y Hy a Ha).
      - lia. }
    rewrite <- (string_of_list_ascii_of_string (Excel.upper x)),
      <- (string_of_list_ascii_of_string (Excel.upper y)), Hl.
    reflexivity.
  - intro Hne. rewrite (Hval _ Hx).
    destruct (column_value_pos (list_ascii_of_string (Excel.upper x)))
      as [_ Hp].
    + intros a Ha. apply (upper_letters_no_space x Hx a Ha).
    + assert (Hn : list_ascii_of_string (Excel.upper x) <> []).
      { destruct x; [congruence|discriminate]. }
      specialize (Hp Hn). lia.
  - reflexivity.
Qed.

Lemma excel2num_witness :
  Excel._excel2num "ab" = 27 /\ Excel._excel2num (Excel.upper "ab") = 27.
Proof.
  destruct (excel2num_is_injective "ab" "AB") as [H _].
  - reflexivity.
  - reflexivity.
  - split; [reflexivity|rewrite H; reflexivity].
Defined.

Lemma split_no_sep (sep : ascii) (s : string) :
  Excel.contains_char sep s = false -> Excel.split sep s = [s].
Proof.
  induction s as [|a s IH]; intro H.
  - reflexivity.
  - cbn [Excel.contains_char] in H. apply orb_false_iff in H.
    destruct H as [Ha Hs]. cbn [Excel.split]. rewrite Ha, (IH Hs).
    reflexivity.
Qed.

Lemma split_at_sep (sep : ascii) (x y : string) :
  Excel.contains_char sep x = false ->
  Excel.split sep (x ++ String sep y) = x :: Excel.split sep y.
Proof.
  induction x as [|a x IH]; intro H.
  - cbn [String.append Excel.split]. rewrite Ascii.eqb_refl. reflexivity.
  - cbn [Excel.contains_char] in H. apply orb_false_iff in H.
    destruct H as [Ha Hx]. cbn [String.append Excel.split].
    rewrite Ha, (IH Hx). reflexivity.
Qed.

Lemma contains_char_app (sep : ascii) (x y : string) :
  Excel.contains_char sep (x ++ y)
  = Excel.contains_char sep x || Excel.contains_char sep y.
Proof.
  induction x as [|a x IH]; [reflexivity|].
  cbn [String.append Excel.contains_char]. rewrite IH. apply orb_assoc.
Qed.

Lemma letters_no_separator (s : string) :
  letters s = true ->
  Excel.contains_char ":" s = false /\ Excel.contains_char "," s = false.
Proof.
  induction s as [|a s IH]; intro H.
  - split; reflexivity.
  - cbn [letters] in H. apply andb_true_iff in H. destruct H as [Ha Hs].
    destruct (IH Hs) as [H1 H2].
    destruct (upper_char_letter a Ha) as (_ & _ & Hc & Hm & _).
    cbn [Excel.contains_char]. rewrite Hc, Hm, H1, H2. split; reflexivity.
Qed.

Lemma existsb_eqb_zrange (i a b : Z) :
  existsb (Z.eqb i) (zrange a b) = (a <=? i) && (i <? b).
Proof.
  rewrite <- existsb_zrange. generalize (zrange a b) as l.
  induction l as [|x l IH]; [reflexivity|].
  cbn [existsb]. rewrite IH, Z.eqb_sym. reflexivity.
Qed.

(** X25.  The columns a string of [parse_cols] selects: a column name
    selects its own number; a range [a:b] of two names selects the
    numbers from that of [a] to that of [b], both included; and a
    comma-separated list selects what its parts select. *)
Theorem should_parse_columns (i : Z) :
  (forall a, letters a = true ->
     Excel._should_parse i (Excel.PStr a) = (i =? Excel._excel2num a)) /\
  (forall a b, letters a = true -> letters b = true ->
     Excel._should_parse i (Excel.PStr (a ++ ":" ++ b))
     = (Excel._excel2num a <=? i) && (i <=? Excel._excel2num b)) /\
  (forall x y, Excel.contains_char "," x = false ->
     Excel._should_parse i (Excel.PStr (x ++ "," ++ y))
     = Excel._should_parse i (Excel.PStr x) ||
       Excel._should_parse i (Excel.PStr y)).
Proof.
  split; [|split].
  - intros a Ha. destruct (letters_no_separator a Ha) as [Hc Hm].
    cbn [Excel._should_parse]. unfold Excel._range2cols.
    rewrite (split_no_sep _ _ Hm). cbn [flat_map]. rewrite Hc.
    cbn [app existsb]. apply orb_false_r.
  - intros a b Ha Hb.
    destruct (letters_no_separator a Ha) as [Hca Hma].
    destruct (letters_no_separator b Hb) as [Hcb Hmb].
    cbn [Excel._should_parse]. unfold Excel._range2cols.
    change (a ++ ":" ++ b)%string with (a ++ String ":" b)%string.
    rewrite split_no_sep.
    2:{ rewrite contains_char_app. cbn [Excel.contains_char].
        rewrite Hma, Hmb. reflexivity. }
    cbn [flat_map]. rewrite contains_char_app. cbn [Excel.contains_char].
    rewrite Ascii.eqb_refl, orb_true_r.
    rewrite (split_at_sep _ _ _ Hca), (split_no_sep _ _ Hcb).
    rewrite app_nil_r. unfold Excel.lrange. rewrite existsb_eqb_zrange.
    f_equal. destruct (i <? Excel._excel2num b + 1) eqn:E.
    + apply Z.ltb_lt in E. symmetry. apply Z.leb_le. lia.
    + apply Z.ltb_ge in E. symmetry. apply Z.leb_gt. lia.
  - intros x y Hx. cbn [Excel._should_parse]. unfold Excel._range2cols.
    change (x ++ "," ++ y)%string with (x ++ String "," y)%string.
    rewrite (split_at_sep _ _ _ Hx), (split_no_sep _ _ Hx).
    cbn [flat_map]. rewrite app_nil_r, existsb_app. reflexivity.
Qed.

Lemma should_parse_columns_witness :
  Excel._should_parse 27 (Excel.PStr "Z:AB") = true /\
  Excel._should_parse 28 (Excel.PStr "Z:AB") = false.
Proof.
  destruct (should_parse_columns 27) as [_ [H27 _]].
  destruct (should_parse_columns 28) as [_ [H28 _]].
  split.
  - etransitivity; [exact (H27 "Z" "AB" eq_refl eq_refl)|reflexivity].
  - etransitivity; [exact (H28 "Z" "AB" eq_refl eq_refl)|reflexivity].
Defined.

(** ** The header row *)

(** X26.  [_trim_excel_header] removes the longest run of blank cells
    (None or the empty string) at the start of the row and nothing else:
    the row is a run of blank cells followed by the result, the result
    does not start with a blank cell, and trimming it again changes
    nothing. *)
Theorem trim_excel_header_spec (row : list Excel.cell_value) :
  exists blanks,
    row = blanks ++ Excel._trim_excel_header row /\
    forallb Excel.is_blank blanks = true /\
    match Excel._trim_excel_header row with
    | v :: _ => Excel.is_blank v = false
    | [] => True
    end /\
    Excel._trim_excel_header (Excel._trim_excel_header row)
    = Excel._trim_excel_header row.
Proof.
  induction row as [|v row IH].
  - exists []. repeat split.
  - cbn [Excel._trim_excel_header]. destruct (Excel.is_blank v) eqn:E.
    + destruct IH as (blanks & Hrow & Hb & Hhead & Hidem).
      exists (v :: blanks). cbn [app forallb]. rewrite E, Hb.
      repeat split; try assumption. f_equal. exact Hrow.
    + exists []. cbn [app forallb Excel._trim_excel_header]. rewrite E.
      repeat split.
Qed.

(** ** The writers *)

Lemma prefix_append (s t : string) : String.prefix s (s ++ t) = true.
Proof.
  induction s as [|a s IH]; [destruct t; reflexivity|].
  cbn [String.append String.prefix].
  destruct (Ascii.ascii_dec a a); [exact IH|congruence].
Qed.

Lemma has_substring_append (pre sub post : string) :
  has_substring sub (pre ++ sub ++ post) = true.
Proof.
  induction pre as [|a pre IH].
  - cbn [String.append]. destruct (sub ++ post)%string eqn:E.
    + cbn [has_substring]. rewrite <- E, prefix_append. reflexivity.
    + cbn [has_substring]. rewrite <- E, prefix_append. reflexivity.
  - cbn [String.append has_substring]. rewrite IH. apply orb_true_r.
Qed.

(** X27.  [check_extension] accepts more than the supported extensions:
    every string contained in a supported extension is accepted, with
    or without a leading dot, the empty string included. *)
Theorem check_extension_accepts_substrings (cls : Excel.writer_class)
    (pre ext post : string) :
  In (pre ++ ext ++ post)%string (Excel.supported_extensions cls) ->
  Excel.without_dot ext = ext ->
  Excel.check_extension cls ext = Ok true /\
  Excel.check_extension cls (String "." ext) = Ok true /\
  Excel.check_extension cls "" = Ok true.
Proof.
  intros Hin Hdot.
  assert (H : forall sub, has_substring sub (pre ++ ext ++ post) = true ->
            existsb (fun extension => has_substring sub extension)
              (Excel.supported_extensions cls) = true).
  { intros sub Hsub. apply existsb_exists.
    exists (pre ++ ext ++ post)%string. split; assumption. }
  split; [|split]; unfold Excel.check_extension.
  - rewrite Hdot, H; [reflexivity|apply has_substring_append].
  - cbn [Excel.without_dot]. rewrite H; [reflexivity|].
    apply has_substring_append.
  - cbn [Excel.without_dot]. rewrite H; [reflexivity|].
    destruct (pre ++ ext ++ post)%string; reflexivity.
Qed.

Lemma check_extension_witness :
  Excel.check_extension (Excel.mkWriter "xlsxwriter" [".xlsx"]) "xls"
  = Ok true.
Proof.
  destruct (check_extension_accepts_substrings
              (Excel.mkWriter "xlsxwriter" [".xlsx"]) "." "xls" "x")
    as [H _].
  - left. reflexivity.
  - reflexivity.
  - exact H.
Defined.

Lemma dict_get_set_same {A} (d : list (string * A)) (k : string) (v : A) :
  Excel.dict_get (Excel.dict_set d k v) k = Some v.
Proof.
  induction d as [|[k' v'] d IH]; cbn [Excel.dict_set Excel.dict_get].
  - rewrite String.eqb_refl. reflexivity.
  - destruct (String.eqb k' k) eqn:E; cbn [Excel.dict_get].
    + rewrite String.eqb_refl. reflexivity.
    + rewrite E. exact IH.
Qed.

Lemma dict_get_set_other {A} (d : list (string * A)) (k k0 : string) (v : A) :
  k0 <> k ->
  Excel.dict_get (Excel.dict_set d k v) k0 = Excel.dict_get d k0.
Proof.
  intro Hne. apply String.eqb_neq in Hne.
  induction d as [|[k' v'] d IH]; cbn [Excel.dict_set Excel.dict_get].
  - rewrite String.eqb_sym, Hne. reflexivity.
  - destruct (String.eqb k' k) eqn:E; cbn [Excel.dict_get].
    + apply String.eqb_eq in E. subst k'.
      rewrite String.eqb_sym, Hne. reflexivity.
    + rewrite IH. reflexivity.
Qed.

Lemma register_extensions_keeps (config : Type)
    (register_option : config -> string -> string -> config * res unit)
    (engine_name : string) (exts extensions : list string) (c : config) :
  NoDup extensions ->
  exists added,
    fst (fst (Excel.register_extensions config register_option engine_name
                exts extensions c)) = extensions ++ added /\
    NoDup (extensions ++ added).
Proof.
  revert extensions c. induction exts as [|ext exts IH];
    intros extensions c Hnd.
  - exists []. rewrite app_nil_r. split; [reflexivity|exact Hnd].
  - cbn [Excel.register_extensions].
    destruct (existsb (String.eqb (Excel.without_dot ext)) extensions) eqn:E;
      cbn [negb].
    + apply IH. exact Hnd.
    + destruct (register_option c _ engine_name) as [c' [u|e]].
      * destruct (IH (extensions ++ [Excel.without_dot ext]) c') as
          (added & Heq & Hnd').
        { apply NoDup_app.
          - exact Hnd.
          - repeat constructor. intros [].
          - intros x Hx [Hx'|[]]. subst x.
            assert (Ht : existsb (String.eqb (Excel.without_dot ext))
                           extensions = true).
            { apply existsb_exists. eexists. split; [exact Hx|].
              apply String.eqb_refl. }
            congruence. }
        exists (Excel.without_dot ext :: added).
        rewrite Heq, <- app_assoc. split; [reflexivity|].
        rewrite <- app_assoc in Hnd'. exact Hnd'.
      * exists []. rewrite app_nil_r. split; [reflexivity|exact Hnd].
Qed.

(** X28.  After [register_writer] was called with a writer class,
    [get_writer] returns that class for its engine name, also when the
    registration of an option failed on the way, and returns for every
    other name what it returned before.  The list of writer extensions
    only grows at its end, and it stays free of repetitions when it was
    so. *)
Theorem register_writer_then_get_writer (config : Type)
    (register_option : config -> string -> string -> config * res unit)
    (st : Excel.registry) (c : config) (klass : Excel.writer_class) :
  let st' := fst (fst (Excel.register_writer config register_option st c
                         (Excel.Class klass))) in
  Excel.get_writer st' (Excel.engine klass) = Ok klass /\
  (forall name, name <> Excel.engine klass ->
     Excel.get_writer st' name = Excel.get_writer st name) /\
  (NoDup (Excel._writer_extensions st) ->
   exists added,
     Excel._writer_extensions st' = Excel._writer_extensions st ++ added /\
     NoDup (Excel._writer_extensions st')).
Proof.
  cbn zeta. unfold Excel.register_writer.
  destruct (Excel.register_extensions config register_option
              (Excel.engine klass) (Excel.supported_extensions klass)
              (Excel._writer_extensions st) c) as [[extensions c'] r] eqn:E.
  cbn [fst Excel._writers Excel._writer_extensions]. split; [|split].
  - unfold Excel.get_writer. cbn [Excel._writers].
    rewrite dict_get_set_same. reflexivity.
  - intros name Hne. unfold Excel.get_writer. cbn [Excel._writers].
    rewrite dict_get_set_other by exact Hne. reflexivity.
  - intro Hnd.
    destruct (register_extensions_keeps config register_option
                (Excel.engine klass) (Excel.supported_extensions klass)
                (Excel._writer_extensions st) c Hnd) as (added & Heq & Hnd').
    rewrite E in Heq. cbn [fst] in Heq. subst extensions.
    exists added. split; [reflexivity|exact Hnd'].
Qed.
